(** * Money Tracker: the cycle ledger and its derived statistics

    A shallow embedding of the services of the money-tracker application
    ([src/services/*.service.ts], [src/lib/calculations.ts], [src/types])
    and the properties of the monthly cycle bookkeeping.

    Conventions of the embedding.
    - A TypeScript [number] holding an amount is an exact rational [Q];
      rounding of IEEE doubles is not modelled.  Arithmetic equalities are
      stated with [==]; where the code copies a value, with [=].
    - A division whose divisor is zero produces a non-finite number in
      JavaScript; the model makes that visible as [None] ([js_div]).
    - Dates are milliseconds since the epoch ([Z]).
    - Every service call goes to the record store through one request; a
      request can fail in transport.  The world carries the schedule of
      those failures, the identifiers the store will generate and the clock. *)

From Stdlib Require Import ZArith QArith Qabs Lqa Lia Bool List String Ascii.
From Stdlib Require Import Permutation Sorted.
Import ListNotations.

Local Open Scope string_scope.
Local Open Scope list_scope.
Local Open Scope Z_scope.
Local Open Scope Q_scope.

(** ** Numbers *)

Definition Qltb (x y : Q) : bool :=
  match x ?= y with Lt => true | _ => false end.

Definition Qgtb (x y : Q) : bool := Qltb y x.

(** [x || 0] on a number: zero (and NaN) are falsy. *)
Definition or_zero (x : Q) : Q := if Qeq_bool x 0 then 0 else x.

(** [x / y]; [None] stands for the non-finite result of a zero divisor. *)
Definition js_div (x y : Q) : option Q :=
  if Qeq_bool y 0 then None else Some (x / y).

(** [Math.ceil (a / b)] on integers, [b > 0]. *)
Definition ceil_div (a b : Z) : Z := (- ((- a) / b))%Z.

Definition MS_PER_DAY : Z := (1000 * 60 * 60 * 24)%Z.

(** [s.includes(needle)] *)
Fixpoint includes (needle s : string) : bool :=
  if String.prefix needle s then true
  else match s with
       | EmptyString => false
       | String _ rest => includes needle rest
       end.

(** ** Types ([src/types]) *)

Inductive CycleStatut := actif | cloture.

Inductive Devise := EUR | USD | MAD.

Inductive CategorieType := charge | depense.

Module CycleMensuel.
Record t := mk {
    id : string;
    user_id : string;
    annee : Z;
    mois : Z;
    salaire_reel : Q;
    total_charges : Q;
    total_depenses : Q;
    reste : Q;
    statut : CycleStatut;
    devise : option Devise;
    date_debut : Z;
    date_fin : Z;
    notes : option string;
    created_at : Z;
    updated_at : Z
}.
End CycleMensuel.

Module ChargeFix.
Record t := mk {
    id : string;
    user_id : string;
    nom : string;
    montant : Q;
    categorie_id : string;
    jour_prelevement : Z;
    actif : bool;
    created_at : Z;
    updated_at : Z
}.
End ChargeFix.

Module Categorie.
Record t := mk {
    id : string;
    user_id : option string;
    nom : string;
    icon : string;
    couleur : string;
    budget_max : option Q;
    type : CategorieType;
    created_at : Z
}.
End Categorie.

Module Depense.
Record t := mk {
    id : string;
    user_id : string;
    cycle_id : string;
    montant : Q;
    categorie_id : string;
    date : Z;
    description : option string;
    tags : option (list string);
    created_at : Z;
    updated_at : Z
}.
End Depense.

(** [DepenseFormData] *)
Module DepenseFormData.
Record t := mk {
    montant : Q;
    categorie_id : string;
    date : Z;
    description : option string;
    tags : option (list string)
}.
End DepenseFormData.

(** [Partial<DepenseFormData>]: an absent key is [None]. *)
Module PartialDepense.
Record t := mk {
    montant : option Q;
    categorie_id : option string;
    date : option Z;
    description : option string;
    tags : option (list string)
}.
End PartialDepense.

(** [Partial<CycleMensuel>]: an absent key is [None].  The same shape is
    the payload of every [update] sent to [cycles_mensuels]. *)
Module PartialCycle.
Record t := mk {
    id : option string;
    user_id : option string;
    annee : option Z;
    mois : option Z;
    salaire_reel : option Q;
    total_charges : option Q;
    total_depenses : option Q;
    reste : option Q;
    statut : option CycleStatut;
    devise : option Devise;
    date_debut : option Z;
    date_fin : option Z;
    notes : option string;
    created_at : option Z;
    updated_at : option Z
}.

Definition empty : t :=
  mk None None None None None None None None None None None None None None None.
End PartialCycle.

(** ** Errors and responses *)

Record PostgrestError := mkError { message : string; code : string }.

(** The request never reached the store. *)
Definition fetch_failed : PostgrestError :=
  mkError "TypeError: Failed to fetch" "".

(** [.single()] on a result that is not exactly one row. *)
Definition not_single : PostgrestError :=
  mkError "JSON object requested, multiple (or no) rows returned" "PGRST116".

(** Modelled from the spec: the schema of the tables is not among the
    sources.  The store keeps "exactly one cycle per (user, year, month)"
    and unique row identifiers, and reports a violation as the
    unique-violation error 23505 whose message the pages look for. *)
Definition unique_violation : PostgrestError :=
  mkError "duplicate key value violates unique constraint" "23505".

(** The test the pages apply to the error of [createCycle]
    (Configuration page and dashboard):
    [error.message?.includes('duplicate key') || error.message?.includes('23505')]. *)
Definition is_duplicate_key (e : PostgrestError) : bool :=
  includes "duplicate key" (message e) || includes "23505" (message e).

Record Response (A : Type) := mkResponse {
  data : option A;
  error : option PostgrestError
}.
Arguments mkResponse {A}.
Arguments data {A}.
Arguments error {A}.

Definition ok {A} (x : A) : Response A := mkResponse (Some x) None.
Definition failure {A} (e : PostgrestError) : Response A := mkResponse None (Some e).

(** ** The record store *)

Record Store := mkStore {
  cycles_mensuels : list CycleMensuel.t;
  charges_fixes : list ChargeFix.t;
  categories : list Categorie.t;
  depenses : list Depense.t
}.

Record World := mkWorld {
  db : Store;
  faults : list bool;     (* one entry per request to come: [true] fails *)
  uuids : list string;    (* identifiers the store will generate *)
  now : Z                 (* the clock *)
}.

(** A small state monad over the world. *)
Definition M (A : Type) : Type := World -> A * World.

Definition ret {A} (x : A) : M A := fun w => (x, w).

Definition bind {A B} (m : M A) (k : A -> M B) : M B :=
  fun w => let (x, w') := m w in k x w'.

Declare Scope svc_scope.
Delimit Scope svc_scope with svc.
Notation "x <- m ;; k" := (bind m (fun x => k))
  (at level 100, m at next level, right associativity) : svc_scope.
Local Open Scope svc_scope.

(** [new Date()] *)
Definition clock : M Z := fun w => (now w, w).

(** One request: either the transport fails and the store is not reached,
    or the query runs on the store. *)
Definition request {A} (q : World -> Response A * World) : M (Response A) :=
  fun w =>
    match faults w with
    | true :: fs => (failure fetch_failed, mkWorld (db w) fs (uuids w) (now w))
    | _ => q (mkWorld (db w) (tl (faults w)) (uuids w) (now w))
    end.

(** A query that only reads or rewrites the tables. *)
Definition on_store {A} (q : Store -> Response A * Store) : World -> Response A * World :=
  fun w => let (r, s) := q (db w) in (r, mkWorld s (faults w) (uuids w) (now w)).

(** [.single()] *)
Definition single {A} (rows : list A) : Response A :=
  match rows with
  | [r] => ok r
  | _ => failure not_single
  end.

Definition set_cycles (s : Store) (l : list CycleMensuel.t) : Store :=
  mkStore l (charges_fixes s) (categories s) (depenses s).

Definition set_depenses (s : Store) (l : list Depense.t) : Store :=
  mkStore (cycles_mensuels s) (charges_fixes s) (categories s) l.

(** *** Constraints of [cycles_mensuels] *)

(** Modelled from the spec: "exactly one cycle per (user, year, month)".
    The table declaration is not among the sources. *)
Definition same_period (a b : CycleMensuel.t) : bool :=
  String.eqb (CycleMensuel.user_id a) (CycleMensuel.user_id b)
  && Z.eqb (CycleMensuel.annee a) (CycleMensuel.annee b)
  && Z.eqb (CycleMensuel.mois a) (CycleMensuel.mois b).

(** Modelled from the spec: two rows clash when they share their
    identifier or their period. *)
Definition same_cycle_key (a b : CycleMensuel.t) : bool :=
  String.eqb (CycleMensuel.id a) (CycleMensuel.id b) || same_period a b.

(** Modelled from the spec: the table holds no two clashing rows. *)
Fixpoint cycles_ok (l : list CycleMensuel.t) : bool :=
  match l with
  | [] => true
  | c :: rest => negb (existsb (same_cycle_key c) rest) && cycles_ok rest
  end.

Definition cycle_has_id (i : string) (c : CycleMensuel.t) : bool :=
  String.eqb (CycleMensuel.id c) i.

Definition depense_has_id (i : string) (d : Depense.t) : bool :=
  String.eqb (Depense.id d) i.

Definition opt {A} (o : option A) (d : A) : A :=
  match o with Some x => x | None => d end.

(** The effect of an update payload on one row. *)
Definition patch_cycle (p : PartialCycle.t) (c : CycleMensuel.t) : CycleMensuel.t :=
  CycleMensuel.mk
    (opt (PartialCycle.id p) (CycleMensuel.id c))
    (opt (PartialCycle.user_id p) (CycleMensuel.user_id c))
    (opt (PartialCycle.annee p) (CycleMensuel.annee c))
    (opt (PartialCycle.mois p) (CycleMensuel.mois c))
    (opt (PartialCycle.salaire_reel p) (CycleMensuel.salaire_reel c))
    (opt (PartialCycle.total_charges p) (CycleMensuel.total_charges c))
    (opt (PartialCycle.total_depenses p) (CycleMensuel.total_depenses c))
    (opt (PartialCycle.reste p) (CycleMensuel.reste c))
    (opt (PartialCycle.statut p) (CycleMensuel.statut c))
    (match PartialCycle.devise p with Some d => Some d | None => CycleMensuel.devise c end)
    (opt (PartialCycle.date_debut p) (CycleMensuel.date_debut c))
    (opt (PartialCycle.date_fin p) (CycleMensuel.date_fin c))
    (match PartialCycle.notes p with Some n => Some n | None => CycleMensuel.notes c end)
    (opt (PartialCycle.created_at p) (CycleMensuel.created_at c))
    (opt (PartialCycle.updated_at p) (CycleMensuel.updated_at c)).

(** *** Queries on [cycles_mensuels] *)

(** [.select(..).eq('id', i).single()] *)
Definition select_cycle (i : string) : M (Response CycleMensuel.t) :=
  request (on_store (fun s =>
    (single (filter (cycle_has_id i) (cycles_mensuels s)), s))).

(** [.insert(row).select().single()]: the store generates the identifier
    and the timestamps, and rejects a row that breaks a constraint. *)
Definition insert_cycle (row : CycleMensuel.t) : M (Response CycleMensuel.t) :=
  request (fun w =>
    let c := patch_cycle
               (PartialCycle.mk (Some (hd "" (uuids w))) None None None None None
                  None None None None None None None (Some (now w)) (Some (now w)))
               row in
    let w' := mkWorld (db w) (faults w) (tl (uuids w)) (now w) in
    if existsb (same_cycle_key c) (cycles_mensuels (db w))
    then (failure unique_violation, w')
    else (ok c, mkWorld (set_cycles (db w) (cycles_mensuels (db w) ++ [c]))
                  (faults w) (tl (uuids w)) (now w))).

(** The table after [.update(p).eq('id', i)]. *)
Definition updated_cycles (i : string) (p : PartialCycle.t) (l : list CycleMensuel.t)
  : list CycleMensuel.t :=
  map (fun c => if cycle_has_id i c then patch_cycle p c else c) l.

(** [.update(p).eq('id', i)] *)
Definition update_cycles (i : string) (p : PartialCycle.t) : M (Response unit) :=
  request (on_store (fun s =>
    let l := updated_cycles i p (cycles_mensuels s) in
    if cycles_ok l then (ok tt, set_cycles s l)
    else (failure unique_violation, s))).

(** [.update(p).eq('id', i).select().single()]: when the rows written are
    not exactly one the store answers with an error and keeps nothing. *)
Definition update_cycle_returning (i : string) (p : PartialCycle.t)
  : M (Response CycleMensuel.t) :=
  request (on_store (fun s =>
    let l := updated_cycles i p (cycles_mensuels s) in
    if cycles_ok l then
      match map (patch_cycle p) (filter (cycle_has_id i) (cycles_mensuels s)) with
      | [c] => (ok c, set_cycles s l)
      | _ => (failure not_single, s)
      end
    else (failure unique_violation, s))).

(** *** Queries on [charges_fixes] *)

(** [.select('montant').eq('user_id', u).eq('actif', true)] *)
Definition select_active_charges (u : string) : M (Response (list ChargeFix.t)) :=
  request (on_store (fun s =>
    (ok (filter (fun ch => String.eqb (ChargeFix.user_id ch) u && ChargeFix.actif ch)
           (charges_fixes s)), s))).

(** ** Calendar ([new Date(y, m, 1)], [startOfMonth], [endOfMonth])

    Dates are taken in UTC.  [days_from_civil y m d] is the number of days
    from 1970-01-01 to the given day of the proleptic Gregorian calendar. *)
Definition days_from_civil (y m d : Z) : Z :=
  (let y' := if m <=? 2 then y - 1 else y in
   let era := y' / 400 in
   let yoe := y' - era * 400 in
   let mp := if m >? 2 then m - 3 else m + 9 in
   let doy := (153 * mp + 2) / 5 + d - 1 in
   let doe := yoe * 365 + yoe / 4 - yoe / 100 + doy in
   era * 146097 + doe - 719468)%Z.

(** [new Date(annee, mois - 1, 1)]: a month index outside 0..11 carries
    into the year. *)
Definition startOfMonth (annee mois : Z) : Z :=
  (let m0 := mois - 1 in
   days_from_civil (annee + m0 / 12) (m0 mod 12 + 1) 1 * MS_PER_DAY)%Z.

(** The last millisecond of the month. *)
Definition endOfMonth (annee mois : Z) : Z :=
  (startOfMonth annee (mois + 1) - 1)%Z.

(** ** Cycles service ([cycles.service.ts]) *)

Definition with_reste (p : PartialCycle.t) (r : Q) : PartialCycle.t :=
  PartialCycle.mk
    (PartialCycle.id p) (PartialCycle.user_id p) (PartialCycle.annee p)
    (PartialCycle.mois p) (PartialCycle.salaire_reel p)
    (PartialCycle.total_charges p) (PartialCycle.total_depenses p)
    (Some r)
    (PartialCycle.statut p) (PartialCycle.devise p) (PartialCycle.date_debut p)
    (PartialCycle.date_fin p) (PartialCycle.notes p) (PartialCycle.created_at p)
    (PartialCycle.updated_at p).

Definition with_updated_at (p : PartialCycle.t) (t : Z) : PartialCycle.t :=
  PartialCycle.mk
    (PartialCycle.id p) (PartialCycle.user_id p) (PartialCycle.annee p)
    (PartialCycle.mois p) (PartialCycle.salaire_reel p)
    (PartialCycle.total_charges p) (PartialCycle.total_depenses p)
    (PartialCycle.reste p)
    (PartialCycle.statut p) (PartialCycle.devise p) (PartialCycle.date_debut p)
    (PartialCycle.date_fin p) (PartialCycle.notes p) (PartialCycle.created_at p)
    (Some t).

Definition is_some {A} (o : option A) : bool :=
  match o with Some _ => true | None => false end.

(** The tail shared by the services:
    [if (error) return { data: null, error }; return { data, error: null }]. *)
Definition settle {A} (r : Response A) : Response A :=
  match error r with
  | Some e => mkResponse None (Some e)
  | None => mkResponse (data r) None
  end.

(** [createCycle(userId, salaire, annee, mois, totalCharges = 0, devise = 'EUR')] *)
Definition createCycle (userId : string) (salaire : Q) (annee mois : Z)
    (totalCharges : option Q) (devise : option Devise) : M (Response CycleMensuel.t) :=
  let totalCharges := opt totalCharges 0 in
  let devise := opt devise EUR in
  let dateDebut := startOfMonth annee mois in
  let dateFin := endOfMonth annee mois in
  let newCycle :=
    CycleMensuel.mk "" userId annee mois salaire totalCharges 0
      (salaire - totalCharges) actif (Some devise) dateDebut dateFin None 0%Z 0%Z in
  r <- insert_cycle newCycle ;;
  ret (settle r).

(** The sum of [closeCycle]: [activeCharges?.reduce(..., 0) || 0].
    [ChargeFix.montant] is a number, so the [parseFloat] arm of the
    reducer is not taken. *)
Definition sum_charges (activeCharges : option (list ChargeFix.t)) : Q :=
  or_zero
    (match activeCharges with
     | Some l => fold_left (fun sum ch => sum + ChargeFix.montant ch) l 0
     | None => 0
     end).

Definition closeCycle (cycleId : string) : M (Response CycleMensuel.t) :=
  cur <- select_cycle cycleId ;;
  match error cur, data cur with
  | None, Some currentCycle =>
      ch <- select_active_charges (CycleMensuel.user_id currentCycle) ;;
      match error ch with
      | Some chargesError => ret (mkResponse None (Some chargesError))
      | None =>
          let totalCharges := sum_charges (data ch) in
          let reste :=
            CycleMensuel.salaire_reel currentCycle - totalCharges
            - CycleMensuel.total_depenses currentCycle in
          t <- clock ;;
          r <- update_cycle_returning cycleId
                 (PartialCycle.mk None None None None None (Some totalCharges) None
                    (Some reste) (Some cloture) None None None None None (Some t)) ;;
          ret (settle r)
      end
  | fetchError, _ => ret (mkResponse None fetchError)
  end.

Definition updateCycle (cycleId : string) (updates : PartialCycle.t)
  : M (Response CycleMensuel.t) :=
  updates <-
    (if is_some (PartialCycle.salaire_reel updates)
        || is_some (PartialCycle.total_charges updates)
        || is_some (PartialCycle.total_depenses updates)
     then
       cur <- select_cycle cycleId ;;
       match data cur with
       | Some current =>
           let salaire := opt (PartialCycle.salaire_reel updates) (CycleMensuel.salaire_reel current) in
           let charges := opt (PartialCycle.total_charges updates) (CycleMensuel.total_charges current) in
           let depenses := opt (PartialCycle.total_depenses updates) (CycleMensuel.total_depenses current) in
           ret (with_reste updates (salaire - charges - depenses))
       | None => ret updates
       end
     else ret updates) ;;
  t <- clock ;;
  r <- update_cycle_returning cycleId (with_updated_at updates t) ;;
  ret (settle r).

(** *** A sample world *)

Definition cycle_janvier : CycleMensuel.t :=
  CycleMensuel.mk "c1" "u1" 2025 1 3000 700 450 1850 actif (Some EUR)
    (startOfMonth 2025 1) (endOfMonth 2025 1) None 0%Z 0%Z.

Definition sample_charges : list ChargeFix.t :=
  [ ChargeFix.mk "f1" "u1" "Loyer" 500 "k1" 1 true 0%Z 0%Z;
    ChargeFix.mk "f2" "u1" "Assurance" 300 "k2" 5 true 0%Z 0%Z;
    ChargeFix.mk "f3" "u1" "Salle de sport" 40 "k2" 9 false 0%Z 0%Z;
    ChargeFix.mk "f4" "u2" "Loyer" 900 "k1" 1 true 0%Z 0%Z ].

Definition sample_store : Store :=
  mkStore [cycle_janvier] sample_charges [] [].

Definition sample_world (fs : list bool) : World :=
  mkWorld sample_store fs ["id-1"; "id-2"; "id-3"] 1736000000000%Z.

(** ** Depenses service ([depenses.service.ts]) *)

(** *** Queries on [depenses] *)

(** [.insert(row).select(..).single()] *)
Definition insert_depense (row : Depense.t) : M (Response Depense.t) :=
  request (fun w =>
    let d := Depense.mk (hd "" (uuids w)) (Depense.user_id row) (Depense.cycle_id row)
               (Depense.montant row) (Depense.categorie_id row) (Depense.date row)
               (Depense.description row) (Depense.tags row) (now w) (now w) in
    if existsb (depense_has_id (Depense.id d)) (depenses (db w))
    then (failure unique_violation, mkWorld (db w) (faults w) (tl (uuids w)) (now w))
    else (ok d, mkWorld (set_depenses (db w) (depenses (db w) ++ [d]))
                  (faults w) (tl (uuids w)) (now w))).

(** The payload [updateData] of [updateDepense]: the keys present in the
    form, and [updated_at]. *)
Definition patch_depense (p : PartialDepense.t) (t : Z) (d : Depense.t) : Depense.t :=
  Depense.mk (Depense.id d) (Depense.user_id d) (Depense.cycle_id d)
    (opt (PartialDepense.montant p) (Depense.montant d))
    (opt (PartialDepense.categorie_id p) (Depense.categorie_id d))
    (opt (PartialDepense.date p) (Depense.date d))
    (match PartialDepense.description p with
     | Some s => Some s
     | None => Depense.description d
     end)
    (match PartialDepense.tags p with
     | Some l => Some l
     | None => Depense.tags d
     end)
    (Depense.created_at d) t.

(** [.update(updateData).eq('id', i).select(..).single()] *)
Definition update_depense_returning (i : string) (p : PartialDepense.t) (t : Z)
  : M (Response Depense.t) :=
  request (on_store (fun s =>
    match map (patch_depense p t) (filter (depense_has_id i) (depenses s)) with
    | [d] =>
        (ok d, set_depenses s
                 (map (fun e => if depense_has_id i e then patch_depense p t e else e)
                    (depenses s)))
    | _ => (failure not_single, s)
    end)).

(** [.select('cycle_id').eq('id', i).single()] *)
Definition select_depense_cycle_id (i : string) : M (Response string) :=
  request (on_store (fun s =>
    (single (map Depense.cycle_id (filter (depense_has_id i) (depenses s))), s))).

(** [.delete().eq('id', i).select().single()] *)
Definition delete_depense_returning (i : string) : M (Response Depense.t) :=
  request (on_store (fun s =>
    match filter (depense_has_id i) (depenses s) with
    | [d] =>
        (ok d, set_depenses s (filter (fun e => negb (depense_has_id i e)) (depenses s)))
    | _ => (failure not_single, s)
    end)).

Definition in_cycle (cycleId : string) (d : Depense.t) : bool :=
  String.eqb (Depense.cycle_id d) cycleId.

(** [.select('montant').eq('cycle_id', cycleId)] *)
Definition select_depenses_of_cycle (cycleId : string) : M (Response (list Depense.t)) :=
  request (on_store (fun s => (ok (filter (in_cycle cycleId) (depenses s)), s))).

(** *** The service *)

(** [data?.reduce((sum, depense) => sum + depense.montant, 0) || 0] *)
Definition sum_montants (rows : option (list Depense.t)) : Q :=
  or_zero
    (match rows with
     | Some l => fold_left (fun sum d => sum + Depense.montant d) l 0
     | None => 0
     end).

Definition getTotalDepenses (cycleId : string) : M (Response Q) :=
  r <- select_depenses_of_cycle cycleId ;;
  match error r with
  | Some e => ret (mkResponse None (Some e))
  | None => ret (mkResponse (Some (sum_montants (data r))) None)
  end.

(** The refresh of the totals kept on the cycle.  It returns nothing:
    the errors of its three requests are dropped. *)
Definition updateCycleTotalDepenses (cycleId : string) : M unit :=
  tot <- getTotalDepenses cycleId ;;
  match data tot with
  | Some total =>
      cur <- select_cycle cycleId ;;
      match data cur with
      | Some cycle =>
          let reste :=
            CycleMensuel.salaire_reel cycle - CycleMensuel.total_charges cycle - total in
          t <- clock ;;
          _ <- update_cycles cycleId
                 (PartialCycle.mk None None None None None None (Some total)
                    (Some reste) None None None None None None (Some t)) ;;
          ret tt
      | None => ret tt
      end
  | None => ret tt
  end.

(** [x || null] on an optional string: the empty string is falsy. *)
Definition or_null (o : option string) : option string :=
  match o with
  | Some "" => None
  | _ => o
  end.

Definition newDepense (userId cycleId : string) (form : DepenseFormData.t) : Depense.t :=
  Depense.mk "" userId cycleId (DepenseFormData.montant form)
    (DepenseFormData.categorie_id form) (DepenseFormData.date form)
    (or_null (DepenseFormData.description form)) (DepenseFormData.tags form) 0%Z 0%Z.

Definition createDepense (userId cycleId : string) (form : DepenseFormData.t)
  : M (Response Depense.t) :=
  r <- insert_depense (newDepense userId cycleId form) ;;
  match error r with
  | Some e => ret (mkResponse None (Some e))
  | None =>
      _ <- updateCycleTotalDepenses cycleId ;;
      ret (mkResponse (data r) None)
  end.

Definition updateDepense (depenseId : string) (updates : PartialDepense.t)
  : M (Response Depense.t) :=
  t <- clock ;;
  r <- update_depense_returning depenseId updates t ;;
  match error r with
  | Some e => ret (mkResponse None (Some e))
  | None =>
      _ <- match PartialDepense.montant updates, data r with
           | Some _, Some d => updateCycleTotalDepenses (Depense.cycle_id d)
           | _, _ => ret tt
           end ;;
      ret (mkResponse (data r) None)
  end.

Definition deleteDepense (depenseId : string) : M (Response Depense.t) :=
  pre <- select_depense_cycle_id depenseId ;;
  r <- delete_depense_returning depenseId ;;
  match error r with
  | Some e => ret (mkResponse None (Some e))
  | None =>
      _ <- match data pre with
           | Some cycle_id => updateCycleTotalDepenses cycle_id
           | None => ret tt
           end ;;
      ret (mkResponse (data r) None)
  end.

(** ** Calculations ([lib/calculations.ts]) *)

(** A computation that divides: [None] when a divisor was zero. *)
Definition Checked (A : Type) : Type := option A.

Notation "x <~ m ;; k" := (match m with Some x => k | None => None end)
  (at level 100, m at next level, right associativity) : svc_scope.

(** [(x / y) * 100] *)
Definition percent (x y : Q) : Checked Q :=
  q <~ js_div x y ;; Some (q * 100).

Definition calculerPourcentageUtilise (salaire charges depenses : Q) : Checked Q :=
  let total := charges + depenses in
  if Qeq_bool salaire 0 then Some 0 else percent total salaire.

Definition calculerTauxEpargne (reste salaire : Q) : Checked Q :=
  if Qeq_bool salaire 0 then Some 0 else percent reste salaire.

(** ** Statistics service ([stats.service.ts]) *)

Record StatsMensuel := mkStats {
  salaire : Q;
  stats_total_charges : Q;
  stats_total_depenses : Q;
  stats_reste : Q;
  pourcentage_utilise : Q;
  taux_epargne : Q;
  depenses_par_jour : Q;
  jours_restants : Z;
  budget_journalier_restant : Q
}.

Definition totalJours (cycle : CycleMensuel.t) : Z :=
  ceil_div (CycleMensuel.date_fin cycle - CycleMensuel.date_debut cycle) MS_PER_DAY.

Definition joursEcoules (cycle : CycleMensuel.t) (today : Z) : Z :=
  Z.max 0 (ceil_div (today - CycleMensuel.date_debut cycle) MS_PER_DAY).

Definition joursRestants (cycle : CycleMensuel.t) (today : Z) : Z :=
  Z.max 0 (totalJours cycle - joursEcoules cycle today).

(** The statistics computed by [getStatsMensuel] from the row it read. *)
Definition stats_of_cycle (cycle : CycleMensuel.t) (today : Z) : Checked StatsMensuel :=
  let totalUtilise := CycleMensuel.total_charges cycle + CycleMensuel.total_depenses cycle in
  pourcentageUtilise <~
    (if Qgtb (CycleMensuel.salaire_reel cycle) 0
     then percent totalUtilise (CycleMensuel.salaire_reel cycle)
     else Some 0) ;;
  tauxEpargne <~
    (if Qgtb (CycleMensuel.salaire_reel cycle) 0
     then percent (CycleMensuel.reste cycle) (CycleMensuel.salaire_reel cycle)
     else Some 0) ;;
  depensesParJour <~
    (if (joursEcoules cycle today >? 0)%Z
     then js_div (CycleMensuel.total_depenses cycle) (inject_Z (joursEcoules cycle today))
     else Some 0) ;;
  budgetJournalierRestant <~
    (if (joursRestants cycle today >? 0)%Z
     then js_div (CycleMensuel.reste cycle) (inject_Z (joursRestants cycle today))
     else Some (CycleMensuel.reste cycle)) ;;
  Some (mkStats (CycleMensuel.salaire_reel cycle) (CycleMensuel.total_charges cycle)
          (CycleMensuel.total_depenses cycle) (CycleMensuel.reste cycle)
          pourcentageUtilise tauxEpargne depensesParJour
          (joursRestants cycle today) budgetJournalierRestant).

Definition getStatsMensuel (cycleId : string) : M (Checked (Response StatsMensuel)) :=
  cur <- select_cycle cycleId ;;
  match error cur, data cur with
  | None, Some cycle =>
      today <- clock ;;
      ret (stats <~ stats_of_cycle cycle today ;; Some (ok stats))
  | e, _ => ret (Some (mkResponse None e))
  end.

(** *** Expenses by category *)

Record DepenseParCategorie := mkParCategorie {
  categorie_id : string;
  categorie_nom : string;
  categorie_couleur : string;
  categorie_icon : string;
  total : Q;
  pourcentage : Q;
  nombre_depenses : Z;
  budget_max : option Q;
  is_exceeded : bool
}.

(** A row of [.select('montant, categorie_id, categorie:categories(..)')]. *)
Definition DepenseJointe : Type := (Depense.t * option Categorie.t)%type.

Definition select_depenses_jointes (cycleId : string) : M (Response (list DepenseJointe)) :=
  request (on_store (fun s =>
    (ok (map (fun d =>
                (d, find (fun k => String.eqb (Categorie.id k) (Depense.categorie_id d))
                      (categories s)))
           (filter (in_cycle cycleId) (depenses s))), s))).

(** [s || d] on an optional string. *)
Definition or_default (o : option string) (d : string) : string :=
  match o with
  | Some "" | None => d
  | Some s => s
  end.

(** One step of the grouping reducer.  The accumulator object, keyed by
    category identifiers (uuids, so [Object.values] follows the order of
    insertion), becomes the list of its values in that order; the
    pourcentage and the flag are filled afterwards. *)
Definition grouper (acc : list DepenseParCategorie) (row : DepenseJointe)
  : list DepenseParCategorie :=
  let (dep, categorie) := row in
  let catId := Depense.categorie_id dep in
  let acc :=
    if existsb (fun g => String.eqb (categorie_id g) catId) acc then acc
    else acc ++
         [mkParCategorie catId
            (or_default (option_map Categorie.nom categorie) "Unknown")
            (or_default (option_map Categorie.couleur categorie) "#64748B")
            (or_default (option_map Categorie.icon categorie) "MoreHorizontal")
            0 0 0%Z
            (match categorie with Some k => Categorie.budget_max k | None => None end)
            false] in
  map (fun g =>
         if String.eqb (categorie_id g) catId
         then mkParCategorie (categorie_id g) (categorie_nom g) (categorie_couleur g)
                (categorie_icon g) (total g + Depense.montant dep) (pourcentage g)
                (nombre_depenses g + 1)%Z (budget_max g) (is_exceeded g)
         else g) acc.

Fixpoint traverse {A B} (f : A -> Checked B) (l : list A) : Checked (list B) :=
  match l with
  | [] => Some []
  | x :: rest => y <~ f x ;; ys <~ traverse f rest ;; Some (y :: ys)
  end.

(** [Array.prototype.sort(cmp)]: a stable sort; [x] stays before [y]
    unless [cmp x y > 0]. *)
Fixpoint insert_by {A} (cmp : A -> A -> Q) (x : A) (l : list A) : list A :=
  match l with
  | [] => [x]
  | y :: rest => if Qgtb (cmp x y) 0 then y :: insert_by cmp x rest else x :: l
  end.

Definition js_sort {A} (cmp : A -> A -> Q) (l : list A) : list A :=
  fold_right (insert_by cmp) [] l.

Definition completer (totalDepenses : Q) (cat : DepenseParCategorie)
  : Checked DepenseParCategorie :=
  p <~ (if Qgtb totalDepenses 0 then percent (total cat) totalDepenses else Some 0) ;;
  Some (mkParCategorie (categorie_id cat) (categorie_nom cat) (categorie_couleur cat)
          (categorie_icon cat) (total cat) p (nombre_depenses cat) (budget_max cat)
          (match budget_max cat with
           | Some b => if Qeq_bool b 0 then false else Qgtb (total cat) b
           | None => false
           end)).

Definition par_categorie (rows : list DepenseJointe) : Checked (list DepenseParCategorie) :=
  let totalDepenses := fold_left (fun sum row => sum + Depense.montant (fst row)) rows 0 in
  let grouped := fold_left grouper rows [] in
  result <~ traverse (completer totalDepenses) grouped ;;
  Some (js_sort (fun a b => total b - total a) result).

Definition getDepensesParCategorie (cycleId : string)
  : M (Checked (Response (list DepenseParCategorie))) :=
  r <- select_depenses_jointes cycleId ;;
  match error r with
  | Some e => ret (Some (mkResponse None (Some e)))
  | None =>
      match data r with
      | None | Some [] => ret (Some (ok []))
      | Some rows => ret (result <~ par_categorie rows ;; Some (ok result))
      end
  end.

(** *** Month over month *)

Record Variation := mkVariation { nom : string; variation : Q }.

Record ComparaisonMois := mkComparaison {
  cycle_actuel : CycleMensuel.t;
  cycle_precedent : CycleMensuel.t;
  variation_depenses : Q;
  variation_reste : Q;
  categories_en_hausse : list Variation;
  categories_en_baisse : list Variation
}.

(** [precedent > 0 ? ((actuel - precedent) / precedent) * 100 : 0] *)
Definition variation_pct (precedent actuel : Q) : Checked Q :=
  if Qgtb precedent 0 then percent (actuel - precedent) precedent else Some 0.

(** The body of [statsActuel.forEach]: the two lists grow by [push]. *)
Definition classer (statsPrecedent : list DepenseParCategorie)
    (acc : Checked (list Variation * list Variation)) (catActuel : DepenseParCategorie)
  : Checked (list Variation * list Variation) :=
  lists <~ acc ;;
  match find (fun c => String.eqb (categorie_id c) (categorie_id catActuel)) statsPrecedent with
  | Some catPrecedent =>
      v <~ variation_pct (total catPrecedent) (total catActuel) ;;
      if Qgtb v 5 then
        Some (fst lists ++ [mkVariation (categorie_nom catActuel) v], snd lists)
      else if Qltb v (-5) then
        Some (fst lists, snd lists ++ [mkVariation (categorie_nom catActuel) (Qabs v)])
      else Some lists
  | None => Some lists
  end.

Definition par_variation (a b : Variation) : Q := variation b - variation a.

(** What [getComparaisonMois] computes from the two cycles and the two
    breakdowns it read ([None]: the breakdown could not be read). *)
Definition comparer (cycleActuel cyclePrecedent : CycleMensuel.t)
    (statsActuel statsPrecedent : option (list DepenseParCategorie))
  : Checked ComparaisonMois :=
  variationDepenses <~
    variation_pct (CycleMensuel.total_depenses cyclePrecedent)
      (CycleMensuel.total_depenses cycleActuel) ;;
  variationReste <~
    variation_pct (CycleMensuel.reste cyclePrecedent) (CycleMensuel.reste cycleActuel) ;;
  lists <~
    match statsActuel, statsPrecedent with
    | Some sa, Some sp => fold_left (classer sp) sa (Some ([], []))
    | _, _ => Some ([], [])
    end ;;
  Some (mkComparaison cycleActuel cyclePrecedent variationDepenses variationReste
          (js_sort par_variation (fst lists)) (js_sort par_variation (snd lists))).



(** *** More sample data *)

(** The January cycle once closed, with the totals frozen at 700 / 1850. *)
Definition cycle_cloture : CycleMensuel.t :=
  CycleMensuel.mk "c1" "u1" 2025 1 3000 700 450 1850 cloture (Some EUR)
    (startOfMonth 2025 1) (endOfMonth 2025 1) None 0%Z 0%Z.

Definition closed_world : World :=
  mkWorld (mkStore [cycle_cloture] sample_charges [] []) [] [] 1738400000000%Z.

(** The sum of a list of amounts, as the specification words it. *)
Definition somme (l : list Q) : Q := fold_right Qplus 0 l.

(** The user's charges that are active at this moment. *)
Definition charges_actives (u : string) (s : Store) : list ChargeFix.t :=
  filter (fun ch => String.eqb (ChargeFix.user_id ch) u && ChargeFix.actif ch)
    (charges_fixes s).

(** The payload [closeCycle] sends for a cycle, from the charges it read. *)
Definition cloture_de (c : CycleMensuel.t) (charges : list ChargeFix.t) (t : Z)
  : PartialCycle.t :=
  PartialCycle.mk None None None None None (Some (sum_charges (Some charges))) None
    (Some (CycleMensuel.salaire_reel c - sum_charges (Some charges)
           - CycleMensuel.total_depenses c))
    (Some cloture) None None None None None (Some t).

(** The condition under which [updateCycle] recomputes [reste]. *)
Definition mentions_a_total (updates : PartialCycle.t) : Prop :=
  PartialCycle.salaire_reel updates <> None
  \/ PartialCycle.total_charges updates <> None
  \/ PartialCycle.total_depenses updates <> None.

(** [{ salaire_reel: 2000 }], the update of the Configuration page. *)
Definition salaire_2000 : PartialCycle.t :=
  PartialCycle.mk None None None None (Some 2000) None None None None None None
    None None None None.

(** [{ reste: 5 }] *)
Definition reste_5 : PartialCycle.t :=
  PartialCycle.mk None None None None None None None (Some 5) None None None
    None None None None.

(** [{ total_depenses: 500, reste: 5 }] *)
Definition depenses_500_reste_5 : PartialCycle.t :=
  PartialCycle.mk None None None None None None (Some 500) (Some 5) None None None
    None None None None.

(** *** The three mutations of an expense *)

Inductive Mutation :=
| Creer (userId cycleId : string) (form : DepenseFormData.t)
| Modifier (depenseId : string) (updates : PartialDepense.t)
| Supprimer (depenseId : string).

Definition run (m : Mutation) : M (Response Depense.t) :=
  match m with
  | Creer userId cycleId form => createDepense userId cycleId form
  | Modifier depenseId updates => updateDepense depenseId updates
  | Supprimer depenseId => deleteDepense depenseId
  end.

(** The part of a mutation up to and including the write of the expense. *)
Definition primary_write (m : Mutation) : M (Response Depense.t) :=
  match m with
  | Creer userId cycleId form => insert_depense (newDepense userId cycleId form)
  | Modifier depenseId updates =>
      t <- clock ;; update_depense_returning depenseId updates t
  | Supprimer depenseId =>
      _ <- select_depense_cycle_id depenseId ;; delete_depense_returning depenseId
  end.

(** [updateDepense] refreshes the totals only when [montant] is given. *)
Definition triggers_refresh (m : Mutation) : bool :=
  match m with
  | Modifier _ updates => is_some (PartialDepense.montant updates)
  | _ => true
  end.

(** Requests issued by a mutation followed by its refresh. *)
Definition requests (m : Mutation) : nat :=
  match m with
  | Supprimer _ => 5%nat
  | _ => 4%nat
  end.

(** The totals kept on a cycle agree with the expenses of the store. *)
Definition totals_fresh (s : Store) (c : CycleMensuel.t) : Prop :=
  CycleMensuel.total_depenses c
  == somme (map Depense.montant (filter (in_cycle (CycleMensuel.id c)) (depenses s)))
  /\ CycleMensuel.reste c
     == CycleMensuel.salaire_reel c - CycleMensuel.total_charges c
        - CycleMensuel.total_depenses c.

(** One of the three requests of the refresh fails. *)
Definition refresh_fails (w : World) : Prop :=
  existsb (fun b => b) (firstn 3 (faults w)) = true.

(** The payload the refresh sends for a cycle, from the expenses it read. *)
Definition totaux_de (c : CycleMensuel.t) (rows : list Depense.t) (t : Z)
  : PartialCycle.t :=
  PartialCycle.mk None None None None None None (Some (sum_montants (Some rows)))
    (Some (CycleMensuel.salaire_reel c - CycleMensuel.total_charges c
           - sum_montants (Some rows)))
    None None None None None None (Some t).

Definition courses : DepenseFormData.t :=
  DepenseFormData.mk 50 "k3" 1736000000000%Z (Some "Courses") None.

Definition montant_80 : PartialDepense.t :=
  PartialDepense.mk (Some 80) None None None None.

(** January with one expense of 50 recorded and the totals agreeing. *)
Definition tenue : Depense.t :=
  Depense.mk "d1" "u1" "c1" 50 "k3" 1736000000000%Z (Some "Courses") None 0%Z 0%Z.

Definition cycle_tenu : CycleMensuel.t :=
  CycleMensuel.mk "c1" "u1" 2025 1 3000 700 50 2250 actif (Some EUR)
    (startOfMonth 2025 1) (endOfMonth 2025 1) None 0%Z 0%Z.

Definition world_tenu (fs : list bool) : World :=
  mkWorld (mkStore [cycle_tenu] sample_charges [] [tenue]) fs ["id-9"] 1736100000000%Z.

(** *** The comparison, as the specification words it *)






Definition cat_stat (i n : string) (t : Q) : DepenseParCategorie :=
  mkParCategorie i n "#64748B" "MoreHorizontal" t 0 1%Z None false.

(** Food 100 -> 130, transport 80 -> 60, leisure 50 -> 51, rent 0 -> 40,
    health new this month. *)
Definition stats_fevrier : list DepenseParCategorie :=
  [ cat_stat "k1" "Alimentation" 130; cat_stat "k2" "Transport" 60;
    cat_stat "k3" "Loisirs" 51; cat_stat "k4" "Loyer" 40; cat_stat "k5" "Sante" 20 ].

Definition stats_janvier : list DepenseParCategorie :=
  [ cat_stat "k1" "Alimentation" 100; cat_stat "k2" "Transport" 80;
    cat_stat "k3" "Loisirs" 50; cat_stat "k4" "Loyer" 0 ].

(** A cycle with no income, no expense yet and its period not started. *)
Definition cycle_vide : CycleMensuel.t :=
  CycleMensuel.mk "c0" "u1" 2025 3 0 0 0 0 actif (Some EUR)
    (startOfMonth 2025 3) (endOfMonth 2025 3) None 0%Z 0%Z.

(** February: expenses 200 after a January without expenses. *)
Definition cycle_fevrier : CycleMensuel.t :=
  CycleMensuel.mk "c2" "u1" 2025 2 3000 800 200 2000 actif (Some EUR)
    (startOfMonth 2025 2) (endOfMonth 2025 2) None 0%Z 0%Z.

Definition cycle_janvier_vide : CycleMensuel.t :=
  CycleMensuel.mk "c1" "u1" 2025 1 800 800 0 0 cloture (Some EUR)
    (startOfMonth 2025 1) (endOfMonth 2025 1) None 0%Z 0%Z.

(** Expenses A:30, A:20, B:50 of one cycle, categories not joined. *)
Definition trois_depenses : list DepenseJointe :=
  [ (Depense.mk "d1" "u1" "c1" 30 "A" 0%Z None None 0%Z 0%Z, None);
    (Depense.mk "d2" "u1" "c1" 20 "A" 0%Z None None 0%Z 0%Z, None);
    (Depense.mk "d3" "u1" "c1" 50 "B" 0%Z None None 0%Z 0%Z, None) ].

(** The first [n] requests to come reach the store. *)
Definition calm (n : nat) (w : World) : Prop :=
  forallb negb (firstn n (faults w)) = true.

(** A payload that leaves the columns of the constraints alone. *)
Definition keeps_keys (p : PartialCycle.t) : Prop :=
  PartialCycle.id p = None /\ PartialCycle.user_id p = None
  /\ PartialCycle.annee p = None /\ PartialCycle.mois p = None.

(** * The other services *)

(** ** Ordered and bounded reads *)

(** [.order(..)]: the rows sorted so that [before a b] holds from each row
    to the next; rows the order does not separate stay in table order
    (the store leaves their order open). *)
Fixpoint insert_ordered {A} (before : A -> A -> bool) (x : A) (l : list A) : list A :=
  match l with
  | [] => [x]
  | y :: rest => if before x y then x :: l else y :: insert_ordered before x rest
  end.

Definition order_by {A} (before : A -> A -> bool) (l : list A) : list A :=
  fold_right (insert_ordered before) [] l.

(** [.maybeSingle()]: no row is no data and no error. *)
Definition maybeSingle {A} (rows : list A) : Response A :=
  match rows with
  | [] => mkResponse None None
  | [r] => ok r
  | _ => failure not_single
  end.

(** [array.slice(0, fin)] for an integer [fin]: a negative [fin] counts
    from the end. *)
Definition slice0 {A} (fin : Z) (l : list A) : list A :=
  if (fin <? 0)%Z
  then firstn (Z.to_nat (Z.max 0 (Z.of_nat (List.length l) + fin))) l
  else firstn (Z.to_nat fin) l.

(** ** Cycles service, the reads *)

Definition est_actif (c : CycleMensuel.t) : bool :=
  match CycleMensuel.statut c with actif => true | cloture => false end.

Definition getCycleActif (userId : string) : M (Response CycleMensuel.t) :=
  r <- request (on_store (fun s =>
         (maybeSingle
            (filter (fun c => String.eqb (CycleMensuel.user_id c) userId && est_actif c)
               (cycles_mensuels s)), s))) ;;
  ret (settle r).

(** [annee] descending, then [mois] descending. *)
Definition plus_recent (a b : CycleMensuel.t) : bool :=
  (CycleMensuel.annee b <? CycleMensuel.annee a)%Z
  || ((CycleMensuel.annee a =? CycleMensuel.annee b)%Z
      && (CycleMensuel.mois b <=? CycleMensuel.mois a)%Z).

Definition cycles_of (userId : string) (s : Store) : list CycleMensuel.t :=
  filter (fun c => String.eqb (CycleMensuel.user_id c) userId) (cycles_mensuels s).

Definition getAllCycles (userId : string) : M (Response (list CycleMensuel.t)) :=
  r <- request (on_store (fun s => (ok (order_by plus_recent (cycles_of userId s)), s))) ;;
  ret (settle r).

(** ** Charges service ([charges.service.ts]) *)

Module ChargeFormData.
Record t := mk {
  nom : string;
  montant : Q;
  categorie_id : string;
  jour_prelevement : Z;
  actif : bool
}.
End ChargeFormData.

(** [Partial<ChargeFormData>] *)
Module PartialCharge.
Record t := mk {
  nom : option string;
  montant : option Q;
  categorie_id : option string;
  jour_prelevement : option Z;
  actif : option bool
}.
End PartialCharge.

Definition set_charges (s : Store) (l : list ChargeFix.t) : Store :=
  mkStore (cycles_mensuels s) l (categories s) (depenses s).

Definition charge_has_id (i : string) (ch : ChargeFix.t) : bool :=
  String.eqb (ChargeFix.id ch) i.

(** [getChargesActives]: the active charges of the user by day of debit.
    The joined category of each row is not kept. *)
Definition getChargesActives (userId : string) : M (Response (list ChargeFix.t)) :=
  r <- request (on_store (fun s =>
         (ok (order_by
                (fun a b => (ChargeFix.jour_prelevement a <=? ChargeFix.jour_prelevement b)%Z)
                (filter (fun ch => String.eqb (ChargeFix.user_id ch) userId && ChargeFix.actif ch)
                   (charges_fixes s))), s))) ;;
  ret (settle r).

Definition getTotalCharges (userId : string) : M (Response Q) :=
  r <- getChargesActives userId ;;
  match error r, data r with
  | None, Some rows =>
      ret (mkResponse (Some (fold_left (fun sum ch => sum + ChargeFix.montant ch) rows 0)) None)
  | e, _ => ret (mkResponse None e)
  end.

(** [.insert(newCharge).select(..).single()] *)
Definition insert_charge (row : ChargeFix.t) : M (Response ChargeFix.t) :=
  request (fun w =>
    let ch := ChargeFix.mk (hd "" (uuids w)) (ChargeFix.user_id row) (ChargeFix.nom row)
                (ChargeFix.montant row) (ChargeFix.categorie_id row)
                (ChargeFix.jour_prelevement row) (ChargeFix.actif row) (now w) (now w) in
    if existsb (charge_has_id (ChargeFix.id ch)) (charges_fixes (db w))
    then (failure unique_violation, mkWorld (db w) (faults w) (tl (uuids w)) (now w))
    else (ok ch, mkWorld (set_charges (db w) (charges_fixes (db w) ++ [ch]))
                   (faults w) (tl (uuids w)) (now w))).

Definition createCharge (userId : string) (form : ChargeFormData.t)
  : M (Response ChargeFix.t) :=
  r <- insert_charge
         (ChargeFix.mk "" userId (ChargeFormData.nom form) (ChargeFormData.montant form)
            (ChargeFormData.categorie_id form) (ChargeFormData.jour_prelevement form)
            (ChargeFormData.actif form) 0%Z 0%Z) ;;
  ret (settle r).

(** The payload [updateData] of [updateCharge] and of [toggleChargeActive]. *)
Definition patch_charge (p : PartialCharge.t) (t : Z) (ch : ChargeFix.t) : ChargeFix.t :=
  ChargeFix.mk (ChargeFix.id ch) (ChargeFix.user_id ch)
    (opt (PartialCharge.nom p) (ChargeFix.nom ch))
    (opt (PartialCharge.montant p) (ChargeFix.montant ch))
    (opt (PartialCharge.categorie_id p) (ChargeFix.categorie_id ch))
    (opt (PartialCharge.jour_prelevement p) (ChargeFix.jour_prelevement ch))
    (opt (PartialCharge.actif p) (ChargeFix.actif ch))
    (ChargeFix.created_at ch) t.

(** [.update(updateData).eq('id', i).select(..).single()] *)
Definition update_charge_returning (i : string) (p : PartialCharge.t) (t : Z)
  : M (Response ChargeFix.t) :=
  request (on_store (fun s =>
    match map (patch_charge p t) (filter (charge_has_id i) (charges_fixes s)) with
    | [ch] =>
        (ok ch, set_charges s
                  (map (fun e => if charge_has_id i e then patch_charge p t e else e)
                     (charges_fixes s)))
    | _ => (failure not_single, s)
    end)).

Definition updateCharge (chargeId : string) (updates : PartialCharge.t)
  : M (Response ChargeFix.t) :=
  t <- clock ;;
  r <- update_charge_returning chargeId updates t ;;
  ret (settle r).

Definition toggleChargeActive (chargeId : string) (actif : bool) : M (Response ChargeFix.t) :=
  t <- clock ;;
  r <- update_charge_returning chargeId
         (PartialCharge.mk None None None None (Some actif)) t ;;
  ret (settle r).

(** [.delete().eq('id', i).select().single()] *)
Definition deleteCharge (chargeId : string) : M (Response ChargeFix.t) :=
  r <- request (on_store (fun s =>
         match filter (charge_has_id chargeId) (charges_fixes s) with
         | [ch] =>
             (ok ch, set_charges s
                       (filter (fun e => negb (charge_has_id chargeId e)) (charges_fixes s)))
         | _ => (failure not_single, s)
         end)) ;;
  ret (settle r).

(** ** Categories service ([categories.service.ts]) *)

(** [CategorieFormData] *)
Module CategorieFormData.
Record t := mk {
  nom : string;
  icon : string;
  couleur : string;
  budget_max : option Q;
  type : CategorieType
}.
End CategorieFormData.

(** [Partial<CategorieFormData>] *)
Module PartialCategorie.
Record t := mk {
  nom : option string;
  icon : option string;
  couleur : option string;
  budget_max : option Q;
  type : option CategorieType
}.
End PartialCategorie.

Definition set_categories (s : Store) (l : list Categorie.t) : Store :=
  mkStore (cycles_mensuels s) (charges_fixes s) l (depenses s).

Definition categorie_has_id (i : string) (k : Categorie.t) : bool :=
  String.eqb (Categorie.id k) i.

(** [user_id === userId] on a column that is null for the default
    categories. *)
Definition owned_by (userId : string) (owner : option string) : bool :=
  match owner with
  | Some u => String.eqb u userId
  | None => false
  end.

Definition cannot_update : PostgrestError :=
  mkError "Cannot update default categories or categories from other users" "".

Definition cannot_delete : PostgrestError :=
  mkError "Cannot delete default categories or categories from other users" "".

(** [.select('*').eq('id', i).single()] *)
Definition getCategorieById (categorieId : string) : M (Response Categorie.t) :=
  r <- request (on_store (fun s =>
         (single (filter (categorie_has_id categorieId) (categories s)), s))) ;;
  ret (settle r).

(** [x || null] on an optional number: zero is falsy. *)
Definition or_null_number (o : option Q) : option Q :=
  match o with
  | Some x => if Qeq_bool x 0 then None else Some x
  | None => None
  end.

(** [.insert(newCategorie).select().single()] *)
Definition insert_categorie (row : Categorie.t) : M (Response Categorie.t) :=
  request (fun w =>
    let k := Categorie.mk (hd "" (uuids w)) (Categorie.user_id row) (Categorie.nom row)
               (Categorie.icon row) (Categorie.couleur row) (Categorie.budget_max row)
               (Categorie.type row) (now w) in
    if existsb (categorie_has_id (Categorie.id k)) (categories (db w))
    then (failure unique_violation, mkWorld (db w) (faults w) (tl (uuids w)) (now w))
    else (ok k, mkWorld (set_categories (db w) (categories (db w) ++ [k]))
                  (faults w) (tl (uuids w)) (now w))).

Definition createCategorie (userId : string) (form : CategorieFormData.t)
  : M (Response Categorie.t) :=
  r <- insert_categorie
         (Categorie.mk "" (Some userId) (CategorieFormData.nom form)
            (CategorieFormData.icon form) (CategorieFormData.couleur form)
            (or_null_number (CategorieFormData.budget_max form))
            (CategorieFormData.type form) 0%Z) ;;
  ret (settle r).

(** [.select('user_id').eq('id', i).single()]: the owner column of the row. *)
Definition select_categorie_owner (i : string) : M (Response (option string)) :=
  request (on_store (fun s =>
    (single (map Categorie.user_id (filter (categorie_has_id i) (categories s))), s))).

(** The guard of [updateCategorie] and [deleteCategorie]:
    [!existing || existing.user_id !== userId]. *)
Definition not_owner (existing : option (option string)) (userId : string) : bool :=
  match existing with
  | Some owner => negb (owned_by userId owner)
  | None => true
  end.

Definition patch_categorie (p : PartialCategorie.t) (k : Categorie.t) : Categorie.t :=
  Categorie.mk (Categorie.id k) (Categorie.user_id k)
    (opt (PartialCategorie.nom p) (Categorie.nom k))
    (opt (PartialCategorie.icon p) (Categorie.icon k))
    (opt (PartialCategorie.couleur p) (Categorie.couleur k))
    (match PartialCategorie.budget_max p with
     | Some b => Some b
     | None => Categorie.budget_max k
     end)
    (opt (PartialCategorie.type p) (Categorie.type k))
    (Categorie.created_at k).

(** The rows matched by [.eq('id', i).eq('user_id', userId)]. *)
Definition own_categorie (i userId : string) (k : Categorie.t) : bool :=
  categorie_has_id i k && owned_by userId (Categorie.user_id k).

Definition updateCategorie (categorieId userId : string) (updates : PartialCategorie.t)
  : M (Response Categorie.t) :=
  existing <- select_categorie_owner categorieId ;;
  if not_owner (data existing) userId then
    ret (mkResponse None (Some cannot_update))
  else
    r <- request (on_store (fun s =>
           match map (patch_categorie updates)
                   (filter (own_categorie categorieId userId) (categories s)) with
           | [k] =>
               (ok k, set_categories s
                        (map (fun e => if own_categorie categorieId userId e
                                       then patch_categorie updates e else e)
                           (categories s)))
           | _ => (failure not_single, s)
           end)) ;;
    ret (settle r).

Definition deleteCategorie (categorieId userId : string) : M (Response Categorie.t) :=
  existing <- select_categorie_owner categorieId ;;
  if not_owner (data existing) userId then
    ret (mkResponse None (Some cannot_delete))
  else
    r <- request (on_store (fun s =>
           match filter (own_categorie categorieId userId) (categories s) with
           | [k] =>
               (ok k, set_categories s
                        (filter (fun e => negb (own_categorie categorieId userId e))
                           (categories s)))
           | _ => (failure not_single, s)
           end)) ;;
    ret (settle r).

(** ** Statistics service, the lists *)

Definition getTopCategories (cycleId : string) (limit : Z)
  : M (Checked (Response (list DepenseParCategorie))) :=
  r <- getDepensesParCategorie cycleId ;;
  ret (resp <~ r ;;
       match error resp, data resp with
       | None, Some rows => Some (mkResponse (Some (slice0 limit rows)) None)
       | e, _ => Some (mkResponse None e)
       end).

Module EvolutionDepenses.
Record t := mk {
  mois : option string;     (* [undefined] outside 1..12 *)
  annee : Z;
  total_depenses : Q;
  total_charges : Q;
  reste : Q
}.
End EvolutionDepenses.

Definition moisNoms : list string :=
  [ "Janvier"; "Février"; "Mars"; "Avril"; "Mai"; "Juin"; "Juillet"; "Août";
    "Septembre"; "Octobre"; "Novembre"; "Décembre" ].

(** [moisNoms[mois - 1]] *)
Definition nom_du_mois (mois : Z) : option string :=
  if (mois <? 1)%Z then None else nth_error moisNoms (Z.to_nat (mois - 1)).

Definition point_evolution (cycle : CycleMensuel.t) : EvolutionDepenses.t :=
  EvolutionDepenses.mk (nom_du_mois (CycleMensuel.mois cycle)) (CycleMensuel.annee cycle)
    (CycleMensuel.total_depenses cycle) (CycleMensuel.total_charges cycle)
    (CycleMensuel.reste cycle).

(** [nbMois] is the count given to [.limit(..)] (6 when not given). *)
Definition getEvolutionDepenses (userId : string) (nbMois : nat)
  : M (Response (list EvolutionDepenses.t)) :=
  r <- request (on_store (fun s =>
         (ok (firstn nbMois (order_by plus_recent (cycles_of userId s))), s))) ;;
  match error r with
  | Some e => ret (mkResponse None (Some e))
  | None =>
      match data r with
      | None | Some [] => ret (ok [])
      | Some cycles => ret (ok (rev (map point_evolution cycles)))
      end
  end.

(** ** Notions used to state the properties *)

(** The amount a row brings to a filtered sum. *)
Definition poids {A} (p : A -> bool) (h : A -> Q) (x : A) : Q :=
  if p x then h x else 0.

(** What [closeCycle] leaves alone on a row: everything but
    [total_charges], [reste], [statut] and [updated_at]. *)
Definition hors_cloture (c : CycleMensuel.t) :=
  (CycleMensuel.id c, CycleMensuel.user_id c, CycleMensuel.annee c, CycleMensuel.mois c,
   CycleMensuel.salaire_reel c, CycleMensuel.total_depenses c, CycleMensuel.devise c,
   CycleMensuel.date_debut c, CycleMensuel.date_fin c, CycleMensuel.notes c,
   CycleMensuel.created_at c).

(** What the refresh of the totals leaves alone on a row: everything but
    [total_depenses], [reste] and [updated_at]. *)
Definition hors_totaux (c : CycleMensuel.t) :=
  (CycleMensuel.id c, CycleMensuel.user_id c, CycleMensuel.annee c, CycleMensuel.mois c,
   CycleMensuel.salaire_reel c, CycleMensuel.total_charges c, CycleMensuel.statut c,
   CycleMensuel.devise c, CycleMensuel.date_debut c, CycleMensuel.date_fin c,
   CycleMensuel.notes c, CycleMensuel.created_at c).

(** A second cycle of the sample user, for February. *)
Definition deux_cycles_world : World :=
  mkWorld (mkStore [cycle_janvier; cycle_fevrier] sample_charges [] []) [] ["id-7"]
    1740000000000%Z.

(** The test of "an active charge of this user". *)
Definition active_de (u : string) (ch : ChargeFix.t) : bool :=
  String.eqb (ChargeFix.user_id ch) u && ChargeFix.actif ch.

(** The live total of the user's active charges. *)
Definition total_actives (u : string) (s : Store) : Q :=
  somme (map ChargeFix.montant (charges_actives u s)).

Definition abonnement : ChargeFormData.t :=
  ChargeFormData.mk "Abonnement" 25 "k2" 12 true.

(** [{ montant: 350 }] *)
Definition montant_350 : PartialCharge.t :=
  PartialCharge.mk None (Some 350) None None None.

(** What the write of a mutation does to the expenses of a store: the
    row it answers with, and the table it leaves. *)
Inductive ecrit (s : Store) : Mutation -> Depense.t -> list Depense.t -> Prop :=
| ecrit_creer (userId cycleId : string) (form : DepenseFormData.t) (d : Depense.t) :
    Depense.cycle_id d = cycleId ->
    Depense.montant d = DepenseFormData.montant form ->
    filter (depense_has_id (Depense.id d)) (depenses s) = [] ->
    ecrit s (Creer userId cycleId form) d (depenses s ++ [d])
| ecrit_modifier (depenseId : string) (updates : PartialDepense.t) (t : Z)
    (d0 : Depense.t) (l1 l2 : list Depense.t) :
    depenses s = l1 ++ d0 :: l2 ->
    filter (depense_has_id depenseId) (depenses s) = [d0] ->
    ecrit s (Modifier depenseId updates) (patch_depense updates t d0)
      (l1 ++ patch_depense updates t d0 :: l2)
| ecrit_supprimer (depenseId : string) (d : Depense.t) (l1 l2 : list Depense.t) :
    depenses s = l1 ++ d :: l2 ->
    filter (depense_has_id depenseId) (depenses s) = [d] ->
    ecrit s (Supprimer depenseId) d (l1 ++ l2).

(** The test of "an expense of this category". *)
Definition de_categorie (i : string) (d : Depense.t) : bool :=
  String.eqb (Depense.categorie_id d) i.

(** Largest total first. *)
Definition decroissant_total (l : list DepenseParCategorie) : Prop :=
  StronglySorted (fun a b => total b <= total a) l.

(** A store with the three expenses A:30, A:20, B:50 on the January cycle. *)
Definition world_trois (fs : list bool) : World :=
  mkWorld (mkStore [cycle_janvier] sample_charges [] (map fst trois_depenses)) fs []
    1736100000000%Z.

(** The sum the code forms from a list of amounts, left to right from 0:
    [l.reduce((sum, m) => sum + m, 0)]. *)
Definition cumul (l : list Q) : Q := fold_left Qplus l 0.

(** What the grouping has built after reading the expenses [ds]: one
    group per category met, whose total is the sum, left to right from 0,
    of the amounts of its expenses in the order they were read, and whose
    count is their number. *)
Definition groupes_de (ds : list Depense.t) (acc : list DepenseParCategorie) : Prop :=
  NoDup (map categorie_id acc)
  /\ (forall g, In g acc ->
        total g = cumul (map Depense.montant (filter (de_categorie (categorie_id g)) ds))
        /\ nombre_depenses g
           = Z.of_nat (List.length (filter (de_categorie (categorie_id g)) ds))
        /\ (1 <= nombre_depenses g)%Z)
  /\ (forall d, In d ds -> In (Depense.categorie_id d) (map categorie_id acc)).

(** The second half of a step of [grouper]: one more expense of amount
    [m] on the group of [catId]. *)
Definition incrementer (catId : string) (m : Q) (g : DepenseParCategorie)
  : DepenseParCategorie :=
  if String.eqb (categorie_id g) catId
  then mkParCategorie (categorie_id g) (categorie_nom g) (categorie_couleur g)
         (categorie_icon g) (total g + m) (pourcentage g)
         (nombre_depenses g + 1)%Z (budget_max g) (is_exceeded g)
  else g.

(** [cat.budget_max ? cat.total > cat.budget_max : false] *)
Definition depasse (g : DepenseParCategorie) : bool :=
  match budget_max g with
  | Some b => if Qeq_bool b 0 then false else Qgtb (total g) b
  | None => false
  end.


(** A default category and a category of another user. *)
Definition sample_categories : list Categorie.t :=
  [ Categorie.mk "k1" None "Logement" "Home" "#3B82F6" None charge 0%Z;
    Categorie.mk "k2" (Some "u2") "Sport" "Heart" "#10B981" (Some 50) depense 0%Z ].

Definition world_categories (fs : list bool) : World :=
  mkWorld (mkStore [cycle_janvier] sample_charges sample_categories []) fs ["id-9"]
    1736000000000%Z.

Definition loisirs : CategorieFormData.t :=
  CategorieFormData.mk "Loisirs" "Gamepad2" "#F59E0B" (Some 0) depense.

(** The rows [userId] does not own: the default categories and the
    categories of the other users. *)
Definition hors_de (userId : string) (k : Categorie.t) : bool :=
  negb (owned_by userId (Categorie.user_id k)).

(** * The pages that open and close cycles *)

(** The messages the two pages show, in place of the calls to [toast]. *)
Inductive Toast :=
| Utilisateur_non_connecte
| Erreur_mise_a_jour
| Cycle_mis_a_jour
| Cycle_en_double (mois : option string) (annee : Z)
| Erreur_creation
| Cycle_cree
| Erreur_cloture
| Cycle_cloture
| Erreur_creation_nouveau
| Nouveau_cycle_cree.

(** ** Configuration page ([onSubmit]) *)

(** [CycleFormData], the values the form has validated. *)
Module CycleFormData.
Record t := mk {
  salaire : Q;
  mois : Z;
  annee : Z;
  devise : Devise
}.
End CycleFormData.

(** [{ salaire_reel: data.salaire }] *)
Definition salaire_seul (s : Q) : PartialCycle.t :=
  PartialCycle.mk None None None None (Some s) None None None None None None
    None None None None.

(** [onSubmit(data)] (the values are [form] here), with the user of the session and the active cycle
    the page loaded when it was mounted.  The answer is the list of the
    messages shown; the navigation and the [isSubmitting] flag are left
    out.  The names of the months are those of [moisNoms]. *)
Definition onSubmit (user : option string) (cycleActif : option CycleMensuel.t)
    (form : CycleFormData.t) : M (list Toast) :=
  match user with
  | None => ret [Utilisateur_non_connecte]
  | Some userId =>
      match cycleActif with
      | Some cycle =>
          r <- updateCycle (CycleMensuel.id cycle)
                 (salaire_seul (CycleFormData.salaire form)) ;;
          match error r with
          | Some _ => ret [Erreur_mise_a_jour]
          | None => ret [Cycle_mis_a_jour]
          end
      | None =>
          t <- getTotalCharges userId ;;
          r <- createCycle userId (CycleFormData.salaire form) (CycleFormData.annee form)
                 (CycleFormData.mois form)
                 (Some (match data t with Some x => or_zero x | None => 0 end))
                 (Some (CycleFormData.devise form)) ;;
          match error r with
          | Some e =>
              if is_duplicate_key e
              then ret [Cycle_en_double (nom_du_mois (CycleFormData.mois form))
                          (CycleFormData.annee form)]
              else ret [Erreur_creation]
          | None => ret [Cycle_cree]
          end
      end
  end.

(** ** Dashboard page ([handleCloseCycle]) *)

(** [new Date(y, m + 1, 1)] read back as [(getFullYear(), getMonth() + 1)],
    for a year [y] of four digits and a month [m] of 0..11, as
    [getFullYear()] and [getMonth()] give them for today. *)
Definition mois_suivant (y m : Z) : Z * Z :=
  ((y + (m + 1) / 12)%Z, ((m + 1) mod 12 + 1)%Z).

(** [handleCloseCycle()], with the state of the page it reads: the cycle
    and the total of the active charges the dashboard has loaded, the
    user of the session, the choices of the closing dialog, and the year
    and the month (0..11) of today in the time zone of the browser.  The
    answer is the list of the messages shown; the flags of the dialog and
    the reload of the page are left out. *)
Definition handleCloseCycle (cycle : option CycleMensuel.t) (user : option string)
    (createNewCycle : bool) (newCycleSalaire : Q) (newCycleDevise : Devise)
    (totalChargesActives : Q) (anneeLocale moisLocal : Z) : M (list Toast) :=
  match cycle, user with
  | Some cycle, Some userId =>
      closed <- closeCycle (CycleMensuel.id cycle) ;;
      match error closed with
      | Some _ => ret [Erreur_cloture]
      | None =>
          if createNewCycle then
            let (nextYear, nextMonth) := mois_suivant anneeLocale moisLocal in
            r <- createCycle userId newCycleSalaire nextYear nextMonth
                   (Some totalChargesActives) (Some newCycleDevise) ;;
            match error r with
            | Some e =>
                if is_duplicate_key e
                then ret [Cycle_cloture; Cycle_en_double (nom_du_mois nextMonth) nextYear]
                else ret [Cycle_cloture; Erreur_creation_nouveau]
            | None => ret [Cycle_cloture; Nouveau_cycle_cree]
            end
          else ret [Cycle_cloture]
      end
  | _, _ => ret []
  end.

(** The active cycles of a user. *)
Definition actifs_de (userId : string) (l : list CycleMensuel.t) : list CycleMensuel.t :=
  filter (fun c => String.eqb (CycleMensuel.user_id c) userId && est_actif c) l.

(** No stored cycle has the identifier the store will give next, nor the
    period [annee]/[mois] of the user. *)
Definition periode_libre (w : World) (userId : string) (annee mois : Z) : Prop :=
  forall d, In d (cycles_mensuels (db w)) ->
    CycleMensuel.id d <> hd "" (uuids w)
    /\ ~ (CycleMensuel.user_id d = userId /\ CycleMensuel.annee d = annee
          /\ CycleMensuel.mois d = mois).

Definition form_fevrier : CycleFormData.t := CycleFormData.mk 2800 2 2025 USD.

(** ** More sample data *)



(** A store that holds the cycle without income, read before its period. *)
Definition world_vide : World :=
  mkWorld (mkStore [cycle_vide] [] [] []) [] [] 0%Z.





(** * Properties *)

(** ** Numbers *)

Lemma Qltb_lt (x y : Q) : Qltb x y = true <-> x < y.
Proof.
  unfold Qltb. rewrite Qlt_alt. destruct (x ?= y); intuition discriminate.
Qed.

Lemma Qltb_ge (x y : Q) : Qltb x y = false <-> y <= x.
Proof.
  split; intros H.
  - apply Qnot_lt_le. intros L. apply Qltb_lt in L. congruence.
  - destruct (Qltb x y) eqn:E; [|reflexivity].
    apply Qltb_lt in E. exfalso. apply (Qlt_not_le _ _ E H).
Qed.

Lemma Qgtb_gt (x y : Q) : Qgtb x y = true <-> y < x.
Proof. apply Qltb_lt. Qed.

Lemma Qgtb_le (x y : Q) : Qgtb x y = false <-> x <= y.
Proof. apply Qltb_ge. Qed.

Lemma or_zero_eq (x : Q) : or_zero x == x.
Proof.
  unfold or_zero. destruct (Qeq_bool x 0) eqn:E; [|reflexivity].
  apply Qeq_bool_iff in E. symmetry. exact E.
Qed.

Lemma js_div_finite (x y : Q) : ~ y == 0 -> js_div x y = Some (x / y).
Proof.
  intros H. unfold js_div. destruct (Qeq_bool y 0) eqn:E; [|reflexivity].
  apply Qeq_bool_iff in E. contradiction.
Qed.

Lemma percent_finite (x y : Q) : ~ y == 0 -> percent x y = Some (x / y * 100).
Proof. intros H. unfold percent. rewrite js_div_finite by exact H. reflexivity. Qed.

(** ** Requests *)

Lemma calm_head (n : nat) (w : World) :
  calm (S n) w -> hd false (faults w) = false.
Proof.
  unfold calm. destruct (faults w) as [|[] fs]; simpl; intros H; congruence.
Qed.


Lemma request_reaches {A} (q : World -> Response A * World) (w : World) :
  hd false (faults w) = false ->
  request q w = q (mkWorld (db w) (tl (faults w)) (uuids w) (now w)).
Proof.
  unfold request. destruct (faults w) as [|[] fs]; simpl; intros H;
    [reflexivity | discriminate | reflexivity].
Qed.

Lemma request_fails {A} (q : World -> Response A * World) (w : World) :
  hd false (faults w) = true ->
  request q w
  = (failure fetch_failed, mkWorld (db w) (tl (faults w)) (uuids w) (now w)).
Proof.
  unfold request. destruct (faults w) as [|[] fs]; simpl; intros H;
    [discriminate | reflexivity | discriminate].
Qed.


(** ** The constraints of [cycles_mensuels] *)

Lemma same_cycle_key_patch (i : string) (p : PartialCycle.t) (a b : CycleMensuel.t) :
  keeps_keys p ->
  same_cycle_key (if cycle_has_id i a then patch_cycle p a else a)
                 (if cycle_has_id i b then patch_cycle p b else b)
  = same_cycle_key a b.
Proof.
  intros (Hi & Hu & Ha & Hm).
  unfold same_cycle_key, same_period, patch_cycle.
  destruct (cycle_has_id i a), (cycle_has_id i b); simpl;
    rewrite ?Hi, ?Hu, ?Ha, ?Hm; reflexivity.
Qed.

Lemma cycles_ok_updated (i : string) (p : PartialCycle.t) (l : list CycleMensuel.t) :
  keeps_keys p -> cycles_ok (updated_cycles i p l) = cycles_ok l.
Proof.
  intros K. unfold updated_cycles.
  induction l as [|c rest IH]; simpl; [reflexivity|].
  rewrite IH. f_equal. f_equal.
  clear IH. induction rest as [|d rest IH]; simpl; [reflexivity|].
  rewrite IH, (same_cycle_key_patch i p c d K). reflexivity.
Qed.

Lemma single_filter_in {A} (f : A -> bool) (l : list A) (x : A) :
  filter f l = [x] -> In x l /\ f x = true.
Proof.
  intros H. apply filter_In. rewrite H. left. reflexivity.
Qed.

Lemma in_updated_cycles (i : string) (p : PartialCycle.t) (l : list CycleMensuel.t)
    (c : CycleMensuel.t) :
  In c l -> cycle_has_id i c = true -> In (patch_cycle p c) (updated_cycles i p l).
Proof.
  intros Hin Hid. unfold updated_cycles.
  apply in_map_iff. exists c. rewrite Hid. split; [reflexivity | exact Hin].
Qed.

Lemma existsb_same_period (c : CycleMensuel.t) (l : list CycleMensuel.t) (d : CycleMensuel.t) :
  In d l -> same_period c d = true -> existsb (same_cycle_key c) l = true.
Proof.
  intros Hin Hp. apply existsb_exists. exists d. split; [exact Hin|].
  unfold same_cycle_key. rewrite Hp. apply orb_true_r.
Qed.

(** ** createCycle *)

(** C2. When a cycle of the user already exists for the year and month and
    the request reaches the store, [createCycle] answers with no data and
    the unique-violation error; the pages' test recognises that error and
    rejects the transport error and the row-count error; the tables are
    left as they were. *)
Theorem createCycle_duplicate_rejected :
  forall (w : World) (userId : string) (salaire : Q) (annee mois : Z)
         (totalCharges : option Q) (devise : option Devise) (c : CycleMensuel.t),
    hd false (faults w) = false ->
    In c (cycles_mensuels (db w)) ->
    CycleMensuel.user_id c = userId ->
    CycleMensuel.annee c = annee ->
    CycleMensuel.mois c = mois ->
    data (fst (createCycle userId salaire annee mois totalCharges devise w)) = None
    /\ error (fst (createCycle userId salaire annee mois totalCharges devise w))
       = Some unique_violation
    /\ is_duplicate_key unique_violation = true
    /\ is_duplicate_key fetch_failed = false
    /\ is_duplicate_key not_single = false
    /\ db (snd (createCycle userId salaire annee mois totalCharges devise w)) = db w.
Proof.
  intros w userId salaire0 annee mois totalCharges devise c Hf Hin Hu Ha Hm.
  unfold createCycle, bind, insert_cycle.
  rewrite (request_reaches _ w Hf). cbn [db uuids now faults].
  match goal with
  | |- context [existsb (same_cycle_key ?n) _] =>
      rewrite (existsb_same_period n (cycles_mensuels (db w)) c Hin)
  end.
  - cbn. repeat split; reflexivity.
  - unfold same_period, patch_cycle. cbn.
    rewrite Hu, Ha, Hm, String.eqb_refl, !Z.eqb_refl. reflexivity.
Qed.

Lemma createCycle_duplicate_rejected_witness :
  data (fst (createCycle "u1" 2800 2025 1 (Some 800) (Some EUR) (sample_world []))) = None
  /\ db (snd (createCycle "u1" 2800 2025 1 (Some 800) (Some EUR) (sample_world [])))
     = sample_store.
Proof.
  pose proof (createCycle_duplicate_rejected (sample_world []) "u1" 2800 2025 1
                (Some 800) (Some EUR) cycle_janvier) as H.
  destruct H as (Hd & _ & _ & _ & _ & Hs);
    [reflexivity | left; reflexivity | reflexivity | reflexivity | reflexivity |].
  split; [exact Hd | exact Hs].
Defined.

(** ** Sums *)

Lemma fold_left_somme {A} (f : A -> Q) (l : list A) (a : Q) :
  fold_left (fun sum x => sum + f x) l a == a + somme (map f l).
Proof.
  revert a. induction l as [|x rest IH]; intros a; simpl.
  - ring.
  - rewrite IH. ring.
Qed.

Lemma sum_charges_somme (l : list ChargeFix.t) :
  sum_charges (Some l) == somme (map ChargeFix.montant l).
Proof.
  unfold sum_charges. rewrite or_zero_eq, fold_left_somme. ring.
Qed.

Lemma sum_montants_somme (l : list Depense.t) :
  sum_montants (Some l) == somme (map Depense.montant l).
Proof.
  unfold sum_montants. rewrite or_zero_eq, fold_left_somme. ring.
Qed.

(** ** closeCycle *)

Lemma calm_three (w : World) :
  calm 3 w ->
  hd false (faults w) = false
  /\ hd false (tl (faults w)) = false
  /\ hd false (tl (tl (faults w))) = false.
Proof.
  unfold calm.
  destruct (faults w) as [|[] [|[] [|[] fs]]]; simpl; intros H;
    try discriminate; repeat split; reflexivity.
Qed.

Lemma keeps_keys_cloture (c : CycleMensuel.t) (l : list ChargeFix.t) (t : Z) :
  keeps_keys (cloture_de c l t).
Proof. repeat split. Qed.

(** With three requests reaching the store and the row present,
    [closeCycle] runs to its end whatever the status of the row. *)
Lemma closeCycle_runs (w : World) (cycleId : string) (c : CycleMensuel.t) :
  calm 3 w ->
  cycles_ok (cycles_mensuels (db w)) = true ->
  filter (cycle_has_id cycleId) (cycles_mensuels (db w)) = [c] ->
  let p := cloture_de c (charges_actives (CycleMensuel.user_id c) (db w)) (now w) in
  closeCycle cycleId w
  = (ok (patch_cycle p c),
     mkWorld (set_cycles (db w) (updated_cycles cycleId p (cycles_mensuels (db w))))
       (tl (tl (tl (faults w)))) (uuids w) (now w)).
Proof.
  intros Hc Hok Hrow p.
  destruct (calm_three w Hc) as (H1 & H2 & H3).
  unfold closeCycle, bind, select_cycle.
  rewrite (request_reaches _ w H1). unfold on_store at 1. cbn [db faults uuids now].
  rewrite Hrow. cbn [single ok error data].
  unfold select_active_charges.
  rewrite request_reaches by exact H2.
  unfold on_store at 1. cbn [db faults uuids now ok error data clock].
  unfold update_cycle_returning.
  rewrite request_reaches by exact H3.
  unfold on_store. cbn [db faults uuids now].
  fold (charges_actives (CycleMensuel.user_id c) (db w)).
  fold (cloture_de c (charges_actives (CycleMensuel.user_id c) (db w)) (now w)).
  fold p.
  rewrite (cycles_ok_updated cycleId p _ (keeps_keys_cloture _ _ _)), Hok, Hrow.
  reflexivity.
Qed.

(** The row [closeCycle] writes. *)
Lemma cloture_fields (c : CycleMensuel.t) (l : list ChargeFix.t) (t : Z) :
  let c' := patch_cycle (cloture_de c l t) c in
  CycleMensuel.total_charges c' == somme (map ChargeFix.montant l)
  /\ CycleMensuel.reste c'
     == CycleMensuel.salaire_reel c - CycleMensuel.total_charges c'
        - CycleMensuel.total_depenses c
  /\ CycleMensuel.statut c' = cloture
  /\ CycleMensuel.salaire_reel c' = CycleMensuel.salaire_reel c
  /\ CycleMensuel.total_depenses c' = CycleMensuel.total_depenses c
  /\ CycleMensuel.id c' = CycleMensuel.id c.
Proof.
  cbn. repeat split; try reflexivity. apply sum_charges_somme.
Qed.

Lemma filter_updated_cycles (i : string) (p : PartialCycle.t) (l : list CycleMensuel.t) :
  PartialCycle.id p = None ->
  filter (cycle_has_id i) (updated_cycles i p l)
  = map (patch_cycle p) (filter (cycle_has_id i) l).
Proof.
  intros Hid. unfold updated_cycles.
  induction l as [|c rest IH]; simpl; [reflexivity|].
  destruct (cycle_has_id i c) eqn:E; simpl.
  - replace (cycle_has_id i (patch_cycle p c)) with true.
    + rewrite IH. reflexivity.
    + unfold cycle_has_id, patch_cycle in *. simpl. rewrite Hid. simpl. symmetry. exact E.
  - rewrite E. exact IH.
Qed.

(** C4. On an active cycle that is in the store, with the three requests
    reaching the store, [closeCycle] succeeds; the row it returns and
    stores has [total_charges] equal to the sum of the user's charges
    that are active now, [reste] equal to the income minus that sum minus
    the expenses total, and the status closed.  With income 3000, live sum
    800 and expenses 450 that is 800 / 1750. *)
Theorem closeCycle_freezes_live_charges :
  forall (w : World) (cycleId : string) (c : CycleMensuel.t),
    calm 3 w ->
    cycles_ok (cycles_mensuels (db w)) = true ->
    filter (cycle_has_id cycleId) (cycles_mensuels (db w)) = [c] ->
    CycleMensuel.statut c = actif ->
    exists c' : CycleMensuel.t,
      fst (closeCycle cycleId w) = ok c'
      /\ filter (cycle_has_id cycleId)
           (cycles_mensuels (db (snd (closeCycle cycleId w)))) = [c']
      /\ CycleMensuel.total_charges c'
         == somme (map ChargeFix.montant
                     (charges_actives (CycleMensuel.user_id c) (db w)))
      /\ CycleMensuel.reste c'
         == CycleMensuel.salaire_reel c - CycleMensuel.total_charges c'
            - CycleMensuel.total_depenses c
      /\ CycleMensuel.statut c' = cloture
      /\ (CycleMensuel.salaire_reel c == 3000 ->
          somme (map ChargeFix.montant
                   (charges_actives (CycleMensuel.user_id c) (db w))) == 800 ->
          CycleMensuel.total_depenses c == 450 ->
          CycleMensuel.total_charges c' == 800 /\ CycleMensuel.reste c' == 1750).
Proof.
  intros w cycleId c Hc Hok Hrow _.
  rewrite (closeCycle_runs w cycleId c Hc Hok Hrow). cbn [fst snd db cycles_mensuels set_cycles].
  set (l := charges_actives (CycleMensuel.user_id c) (db w)).
  destruct (cloture_fields c l (now w)) as (Ht & Hr & Hs & _).
  eexists. split; [reflexivity|].
  split; [rewrite filter_updated_cycles by reflexivity; rewrite Hrow; reflexivity|].
  split; [exact Ht|]. split; [exact Hr|]. split; [exact Hs|].
  intros E1 E2 E3. split.
  - rewrite Ht. exact E2.
  - rewrite Hr, Ht, E1, E2, E3. reflexivity.
Qed.

Lemma closeCycle_freezes_live_charges_witness :
  exists c' : CycleMensuel.t,
    fst (closeCycle "c1" (sample_world [])) = ok c'
    /\ CycleMensuel.total_charges c' == 800
    /\ CycleMensuel.reste c' == 1750
    /\ CycleMensuel.statut c' = cloture.
Proof.
  destruct (closeCycle_freezes_live_charges (sample_world []) "c1" cycle_janvier)
    as (c' & Hr & _ & _ & _ & Hs & Hex);
    [reflexivity | reflexivity | reflexivity | reflexivity |].
  exists c'. destruct Hex as (Ht & Hre); [reflexivity | reflexivity | reflexivity |].
  repeat split; assumption.
Defined.

(** C3, as the code has it.  [closeCycle] does not look at the status: on
    a cycle that is already closed it succeeds as on an active one, sums
    the live active charges again and writes [total_charges], [reste] and
    the status closed over the frozen row. *)
Theorem closeCycle_on_closed_cycle_recomputes :
  forall (w : World) (cycleId : string) (c : CycleMensuel.t),
    calm 3 w ->
    cycles_ok (cycles_mensuels (db w)) = true ->
    filter (cycle_has_id cycleId) (cycles_mensuels (db w)) = [c] ->
    CycleMensuel.statut c = cloture ->
    exists c' : CycleMensuel.t,
      fst (closeCycle cycleId w) = ok c'
      /\ filter (cycle_has_id cycleId)
           (cycles_mensuels (db (snd (closeCycle cycleId w)))) = [c']
      /\ CycleMensuel.total_charges c'
         == somme (map ChargeFix.montant
                     (charges_actives (CycleMensuel.user_id c) (db w)))
      /\ CycleMensuel.reste c'
         == CycleMensuel.salaire_reel c - CycleMensuel.total_charges c'
            - CycleMensuel.total_depenses c
      /\ CycleMensuel.statut c' = cloture.
Proof.
  intros w cycleId c Hc Hok Hrow _.
  rewrite (closeCycle_runs w cycleId c Hc Hok Hrow). cbn [fst snd db cycles_mensuels set_cycles].
  destruct (cloture_fields c (charges_actives (CycleMensuel.user_id c) (db w)) (now w))
    as (Ht & Hr & Hs & _).
  eexists. split; [reflexivity|].
  split; [rewrite filter_updated_cycles by reflexivity; rewrite Hrow; reflexivity|].
  repeat split; assumption.
Qed.

Lemma closeCycle_on_closed_cycle_recomputes_witness :
  exists c' : CycleMensuel.t,
    fst (closeCycle "c1" closed_world) = ok c'
    /\ CycleMensuel.total_charges c' == 800.
Proof.
  destruct (closeCycle_on_closed_cycle_recomputes closed_world "c1" cycle_cloture)
    as (c' & Hr & _ & Ht & _);
    [reflexivity | reflexivity | reflexivity | reflexivity |].
  exists c'. split; [exact Hr | rewrite Ht; reflexivity].
Defined.

(** C3 as stated fails: a second [closeCycle] on the closed January cycle
    is not rejected, and the frozen 700 / 1850 become 800 / 1750. *)
Lemma closeCycle_closed_cycle_counterexample :
  CycleMensuel.statut cycle_cloture = cloture
  /\ cycles_mensuels (db closed_world) = [cycle_cloture]
  /\ error (fst (closeCycle "c1" closed_world)) = None
  /\ cycles_mensuels (db (snd (closeCycle "c1" closed_world)))
     = [ CycleMensuel.mk "c1" "u1" 2025 1 3000 800 450 1750 cloture (Some EUR)
           (startOfMonth 2025 1) (endOfMonth 2025 1) None 0%Z 1738400000000%Z ]
  /\ db (snd (closeCycle "c1" closed_world)) <> db closed_world.
Proof.
  repeat split; try (vm_compute; reflexivity).
  vm_compute. discriminate.
Qed.

(** C5. When the read of the cycle succeeds and the read of the active
    charges fails, [closeCycle] answers with that error and no data, the
    tables are left as they were, and no third request (the update) is
    issued. *)
Theorem closeCycle_charges_fetch_fails :
  forall (w : World) (cycleId : string) (c : CycleMensuel.t) (fs : list bool),
    faults w = false :: true :: fs ->
    filter (cycle_has_id cycleId) (cycles_mensuels (db w)) = [c] ->
    fst (closeCycle cycleId w) = failure fetch_failed
    /\ db (snd (closeCycle cycleId w)) = db w
    /\ faults (snd (closeCycle cycleId w)) = fs.
Proof.
  intros w cycleId c fs Hf Hrow.
  assert (E : closeCycle cycleId w
              = (failure fetch_failed, mkWorld (db w) fs (uuids w) (now w))).
  { unfold closeCycle, bind, select_cycle.
    rewrite (request_reaches _ w) by (rewrite Hf; reflexivity).
    unfold on_store at 1. cbn [db faults uuids now].
    rewrite Hrow. cbn [single ok error data].
    unfold select_active_charges.
    rewrite request_fails by (cbn; rewrite Hf; reflexivity).
    cbn. rewrite Hf. reflexivity. }
  rewrite E. repeat split; reflexivity.
Qed.

Lemma closeCycle_charges_fetch_fails_witness :
  fst (closeCycle "c1" (sample_world [false; true])) = failure fetch_failed
  /\ db (snd (closeCycle "c1" (sample_world [false; true]))) = sample_store.
Proof.
  destruct (closeCycle_charges_fetch_fails (sample_world [false; true]) "c1"
              cycle_janvier [])
    as (Hr & Hs & _); [reflexivity | reflexivity |].
  split; [exact Hr | exact Hs].
Defined.

(** ** updateCycle *)

Lemma settle_data {A} (r : Response A) (x : A) :
  data (settle r) = Some x -> data r = Some x /\ error r = None.
Proof.
  unfold settle. destruct (error r); cbn; intros H; [discriminate | split; [exact H | reflexivity]].
Qed.

(** What a successful [update ... select().single()] has done. *)
Lemma update_cycle_returning_data (i : string) (p : PartialCycle.t) (w : World)
    (c' : CycleMensuel.t) :
  data (fst (update_cycle_returning i p w)) = Some c' ->
  exists c : CycleMensuel.t,
    filter (cycle_has_id i) (cycles_mensuels (db w)) = [c]
    /\ c' = patch_cycle p c
    /\ snd (update_cycle_returning i p w)
       = mkWorld (set_cycles (db w) (updated_cycles i p (cycles_mensuels (db w))))
           (tl (faults w)) (uuids w) (now w).
Proof.
  unfold update_cycle_returning, request, on_store.
  destruct (faults w) as [|[] fs]; cbn [db faults uuids now tl];
    try (cbn; discriminate);
    (destruct (cycles_ok (updated_cycles i p (cycles_mensuels (db w))));
     [|cbn; discriminate];
     destruct (filter (cycle_has_id i) (cycles_mensuels (db w))) as [|c [|d rest]];
     cbn; try discriminate;
     intros H; injection H as <-; exists c; repeat split; reflexivity).
Qed.

Lemma mentions_a_total_test (updates : PartialCycle.t) :
  mentions_a_total updates ->
  is_some (PartialCycle.salaire_reel updates)
  || is_some (PartialCycle.total_charges updates)
  || is_some (PartialCycle.total_depenses updates) = true.
Proof.
  unfold mentions_a_total.
  destruct (PartialCycle.salaire_reel updates), (PartialCycle.total_charges updates),
    (PartialCycle.total_depenses updates); cbn; intuition congruence.
Qed.

(** When the read of the stored row succeeds, [updateCycle] sends the
    update with the recomputed [reste]. *)
Lemma updateCycle_with_read (w : World) (cycleId : string) (updates : PartialCycle.t)
    (c : CycleMensuel.t) :
  mentions_a_total updates ->
  hd false (faults w) = false ->
  filter (cycle_has_id cycleId) (cycles_mensuels (db w)) = [c] ->
  updateCycle cycleId updates w
  = (let salaire := opt (PartialCycle.salaire_reel updates) (CycleMensuel.salaire_reel c) in
     let charges := opt (PartialCycle.total_charges updates) (CycleMensuel.total_charges c) in
     let depenses := opt (PartialCycle.total_depenses updates) (CycleMensuel.total_depenses c) in
     let w1 := mkWorld (db w) (tl (faults w)) (uuids w) (now w) in
     let r := update_cycle_returning cycleId
                (with_updated_at (with_reste updates (salaire - charges - depenses)) (now w))
                w1 in
     (settle (fst r), snd r)).
Proof.
  intros Hm Hf Hrow. unfold updateCycle.
  rewrite (mentions_a_total_test updates Hm).
  unfold bind, select_cycle. rewrite (request_reaches _ w Hf).
  unfold on_store at 1. cbn [db faults uuids now].
  rewrite Hrow. cbn [single ok data ret clock now].
  destruct (update_cycle_returning _ _ _). reflexivity.
Qed.

(** Without any of the three totals, [updateCycle] sends the update as
    given. *)
Lemma updateCycle_without_read (w : World) (cycleId : string) (updates : PartialCycle.t) :
  PartialCycle.salaire_reel updates = None ->
  PartialCycle.total_charges updates = None ->
  PartialCycle.total_depenses updates = None ->
  updateCycle cycleId updates w
  = (let r := update_cycle_returning cycleId (with_updated_at updates (now w)) w in
     (settle (fst r), snd r)).
Proof.
  intros H1 H2 H3. unfold updateCycle. rewrite H1, H2, H3.
  cbn [is_some orb]. unfold bind, ret, clock.
  destruct (update_cycle_returning _ _ _). reflexivity.
Qed.

(** C6, as the code has it.  When the update names at least one of the
    three totals and the read of the stored row succeeds, a successful
    [updateCycle] stores each total as given, or as it was when not given,
    and stores as [reste] the difference of those merged values; a [reste]
    given by the caller makes no difference. *)
Theorem updateCycle_recomputes_reste :
  forall (w : World) (cycleId : string) (updates : PartialCycle.t)
         (c c' : CycleMensuel.t),
    mentions_a_total updates ->
    hd false (faults w) = false ->
    filter (cycle_has_id cycleId) (cycles_mensuels (db w)) = [c] ->
    data (fst (updateCycle cycleId updates w)) = Some c' ->
    let salaire := opt (PartialCycle.salaire_reel updates) (CycleMensuel.salaire_reel c) in
    let charges := opt (PartialCycle.total_charges updates) (CycleMensuel.total_charges c) in
    let depenses := opt (PartialCycle.total_depenses updates) (CycleMensuel.total_depenses c) in
    CycleMensuel.salaire_reel c' = salaire
    /\ CycleMensuel.total_charges c' = charges
    /\ CycleMensuel.total_depenses c' = depenses
    /\ CycleMensuel.reste c' = salaire - charges - depenses
    /\ In c' (cycles_mensuels (db (snd (updateCycle cycleId updates w))))
    /\ (forall r : Q,
          updateCycle cycleId (with_reste updates r) w = updateCycle cycleId updates w).
Proof.
  intros w cycleId updates c c' Hm Hf Hrow Hd salaire0 charges0 depenses0.
  assert (Hig : forall r : Q,
             updateCycle cycleId (with_reste updates r) w = updateCycle cycleId updates w).
  { intros r.
    rewrite (updateCycle_with_read w cycleId (with_reste updates r) c), 
            (updateCycle_with_read w cycleId updates c); auto. }
  subst salaire0 charges0 depenses0.
  repeat apply conj; try exact Hig.
  all: rewrite (updateCycle_with_read w cycleId updates c Hm Hf Hrow) in Hd;
    try rewrite (updateCycle_with_read w cycleId updates c Hm Hf Hrow);
    cbv zeta in Hd |- *; cbn [fst snd] in Hd |- *;
    apply settle_data in Hd; destruct Hd as (Hd & _);
    apply update_cycle_returning_data in Hd;
    destruct Hd as (c0 & Hrow0 & Hc' & Hw);
    cbn [db] in Hrow0; rewrite Hrow in Hrow0; injection Hrow0 as <-;
    try (subst c'; reflexivity).
  rewrite Hw. cbn [db cycles_mensuels set_cycles]. subst c'.
  apply in_updated_cycles; apply (single_filter_in _ _ _ Hrow).
Qed.

Lemma updateCycle_recomputes_reste_witness :
  exists c' : CycleMensuel.t,
    data (fst (updateCycle "c1" depenses_500_reste_5 (sample_world []))) = Some c'
    /\ CycleMensuel.reste c' = 3000 - 700 - 500.
Proof.
  eexists. split; [reflexivity|].
  apply (updateCycle_recomputes_reste (sample_world []) "c1" depenses_500_reste_5
           cycle_janvier);
    [right; right; discriminate | reflexivity | reflexivity | reflexivity].
Defined.

(** C6 as stated fails when the read of the stored row fails and the
    update goes through: the new income 2000 is stored next to the old
    [reste] 1850, which is not 2000 - 700 - 450. *)
Lemma updateCycle_read_fails_counterexample :
  mentions_a_total salaire_2000
  /\ fst (updateCycle "c1" salaire_2000 (sample_world [true]))
     = ok (CycleMensuel.mk "c1" "u1" 2025 1 2000 700 450 1850 actif (Some EUR)
             (startOfMonth 2025 1) (endOfMonth 2025 1) None 0%Z 1736000000000%Z)
  /\ cycles_mensuels (db (snd (updateCycle "c1" salaire_2000 (sample_world [true]))))
     = [ CycleMensuel.mk "c1" "u1" 2025 1 2000 700 450 1850 actif (Some EUR)
           (startOfMonth 2025 1) (endOfMonth 2025 1) None 0%Z 1736000000000%Z ]
  /\ ~ (1850 == 2000 - 700 - 450).
Proof.
  split; [left; discriminate|].
  split; [vm_compute; reflexivity|].
  split; [vm_compute; reflexivity|].
  intros H. vm_compute in H. discriminate.
Qed.

(** C10. When the update names [reste] and none of the three totals,
    [updateCycle] issues the update alone, without reading the row: a
    successful call stores the caller's [reste] as given and leaves the
    three totals as they were, so the stored row breaks
    [reste = salaire_reel - total_charges - total_depenses] whenever the
    given value differs from that difference. *)
Theorem updateCycle_reste_alone_verbatim :
  forall (w : World) (cycleId : string) (updates : PartialCycle.t) (r : Q)
         (c' : CycleMensuel.t),
    PartialCycle.salaire_reel updates = None ->
    PartialCycle.total_charges updates = None ->
    PartialCycle.total_depenses updates = None ->
    PartialCycle.reste updates = Some r ->
    data (fst (updateCycle cycleId updates w)) = Some c' ->
    exists c : CycleMensuel.t,
      filter (cycle_has_id cycleId) (cycles_mensuels (db w)) = [c]
      /\ CycleMensuel.reste c' = r
      /\ CycleMensuel.salaire_reel c' = CycleMensuel.salaire_reel c
      /\ CycleMensuel.total_charges c' = CycleMensuel.total_charges c
      /\ CycleMensuel.total_depenses c' = CycleMensuel.total_depenses c
      /\ In c' (cycles_mensuels (db (snd (updateCycle cycleId updates w))))
      /\ faults (snd (updateCycle cycleId updates w)) = tl (faults w)
      /\ (~ r == CycleMensuel.salaire_reel c - CycleMensuel.total_charges c
                 - CycleMensuel.total_depenses c ->
          ~ CycleMensuel.reste c'
            == CycleMensuel.salaire_reel c' - CycleMensuel.total_charges c'
               - CycleMensuel.total_depenses c').
Proof.
  intros w cycleId updates r c' H1 H2 H3 Hr Hd.
  rewrite (updateCycle_without_read w cycleId updates H1 H2 H3) in Hd |- *.
  cbn zeta in Hd |- *. cbn [fst snd] in Hd |- *.
  apply settle_data in Hd. destruct Hd as (Hd & _).
  apply update_cycle_returning_data in Hd.
  destruct Hd as (c & Hrow & Hc' & Hw).
  exists c. rewrite Hw. cbn [db cycles_mensuels set_cycles faults].
  assert (F : CycleMensuel.reste c' = r
              /\ CycleMensuel.salaire_reel c' = CycleMensuel.salaire_reel c
              /\ CycleMensuel.total_charges c' = CycleMensuel.total_charges c
              /\ CycleMensuel.total_depenses c' = CycleMensuel.total_depenses c).
  { subst c'. unfold patch_cycle, with_updated_at. cbn.
    rewrite H1, H2, H3, Hr. cbn. repeat split; reflexivity. }
  destruct F as (F1 & F2 & F3 & F4).
  repeat apply conj; try assumption; try reflexivity.
  - subst c'. apply in_updated_cycles; apply (single_filter_in _ _ _ Hrow).
  - rewrite F1, F2, F3, F4. intros Hne. exact Hne.
Qed.

Lemma updateCycle_reste_alone_verbatim_witness :
  exists c' : CycleMensuel.t,
    data (fst (updateCycle "c1" reste_5 (sample_world []))) = Some c'
    /\ CycleMensuel.reste c' = 5
    /\ ~ CycleMensuel.reste c'
         == CycleMensuel.salaire_reel c' - CycleMensuel.total_charges c'
            - CycleMensuel.total_depenses c'.
Proof.
  eexists. split; [reflexivity|].
  destruct (updateCycle_reste_alone_verbatim (sample_world []) "c1" reste_5 5
              (CycleMensuel.mk "c1" "u1" 2025 1 3000 700 450 5 actif (Some EUR)
                 (startOfMonth 2025 1) (endOfMonth 2025 1) None 0%Z 1736000000000%Z))
    as (c & Hrow & Hr & _ & _ & _ & _ & _ & Hv);
    [reflexivity | reflexivity | reflexivity | reflexivity | reflexivity |].
  split; [exact Hr|].
  apply Hv. injection Hrow as <-. intros H. vm_compute in H. discriminate.
Defined.

(** ** The refresh of the totals *)
Lemma keeps_keys_totaux (c : CycleMensuel.t) (l : list Depense.t) (t : Z) :
  keeps_keys (totaux_de c l t).
Proof. repeat split. Qed.

Lemma refresh_runs (w : World) (cycleId : string) (c : CycleMensuel.t) :
  calm 3 w ->
  cycles_ok (cycles_mensuels (db w)) = true ->
  filter (cycle_has_id cycleId) (cycles_mensuels (db w)) = [c] ->
  let p := totaux_de c (filter (in_cycle cycleId) (depenses (db w))) (now w) in
  updateCycleTotalDepenses cycleId w
  = (tt,
     mkWorld (set_cycles (db w) (updated_cycles cycleId p (cycles_mensuels (db w))))
       (tl (tl (tl (faults w)))) (uuids w) (now w)).
Proof.
  intros Hc Hok Hrow p.
  destruct (calm_three w Hc) as (H1 & H2 & H3).
  unfold updateCycleTotalDepenses, getTotalDepenses, bind, select_depenses_of_cycle.
  rewrite (request_reaches _ w H1). unfold on_store at 1.
  cbn [db faults uuids now ok error data ret].
  unfold select_cycle. rewrite request_reaches by exact H2.
  unfold on_store at 1. cbn [db faults uuids now].
  rewrite Hrow. cbn [single ok error data clock now].
  unfold update_cycles. rewrite request_reaches by exact H3.
  unfold on_store. cbn [db faults uuids now].
  fold (totaux_de c (filter (in_cycle cycleId) (depenses (db w))) (now w)). fold p.
  rewrite (cycles_ok_updated cycleId p _ (keeps_keys_totaux _ _ _)), Hok.
  reflexivity.
Qed.

Lemma refresh_stale (w : World) (cycleId : string) :
  refresh_fails w -> db (snd (updateCycleTotalDepenses cycleId w)) = db w.
Proof.
  unfold refresh_fails.
  unfold updateCycleTotalDepenses, getTotalDepenses, bind, select_depenses_of_cycle,
    select_cycle, update_cycles, request, on_store, clock, ret.
  destruct (faults w) as [|[] [|[] [|[] fs]]]; cbn; intros H; try discriminate;
    try reflexivity;
    destruct (filter (cycle_has_id cycleId) (cycles_mensuels (db w))) as [|c [|d l]];
    cbn; try reflexivity.
Qed.


(** ** The writes of an expense *)

Lemma calm_after (n : nat) (w w1 : World) :
  calm (S n) w -> faults w1 = tl (faults w) -> calm n w1.
Proof.
  unfold calm. intros H E. rewrite E.
  destruct (faults w) as [|b fs]; simpl in *.
  - destruct n; reflexivity.
  - apply andb_true_iff in H. apply H.
Qed.


Lemma insert_depense_ok (row : Depense.t) (w : World) (d : Depense.t) :
  fst (insert_depense row w) = ok d ->
  Depense.cycle_id d = Depense.cycle_id row
  /\ snd (insert_depense row w)
     = mkWorld (set_depenses (db w) (depenses (db w) ++ [d]))
         (tl (faults w)) (tl (uuids w)) (now w).
Proof.
  unfold insert_depense, request.
  destruct (faults w) as [|[] fs]; cbn [db faults uuids now tl];
    try (cbn; discriminate);
    match goal with |- context [existsb ?f ?l] => destruct (existsb f l) end;
    cbn; try discriminate; intros H; injection H as <-; split; reflexivity.
Qed.

Lemma update_depense_ok (i : string) (p : PartialDepense.t) (t : Z) (w : World)
    (d : Depense.t) :
  fst (update_depense_returning i p t w) = ok d ->
  exists d0 : Depense.t,
    filter (depense_has_id i) (depenses (db w)) = [d0]
    /\ d = patch_depense p t d0
    /\ snd (update_depense_returning i p t w)
       = mkWorld
           (set_depenses (db w)
              (map (fun e => if depense_has_id i e then patch_depense p t e else e)
                 (depenses (db w))))
           (tl (faults w)) (uuids w) (now w).
Proof.
  unfold update_depense_returning, request, on_store.
  destruct (faults w) as [|[] fs]; cbn [db faults uuids now tl];
    try (cbn; discriminate);
    destruct (filter (depense_has_id i) (depenses (db w))) as [|d0 [|d1 rest]];
    cbn; try discriminate; intros H; injection H as <-; exists d0;
    repeat split; reflexivity.
Qed.

Lemma delete_depense_ok (i : string) (w : World) (d : Depense.t) :
  fst (delete_depense_returning i w) = ok d ->
  filter (depense_has_id i) (depenses (db w)) = [d]
  /\ snd (delete_depense_returning i w)
     = mkWorld
         (set_depenses (db w) (filter (fun e => negb (depense_has_id i e)) (depenses (db w))))
         (tl (faults w)) (uuids w) (now w).
Proof.
  unfold delete_depense_returning, request, on_store.
  destruct (faults w) as [|[] fs]; cbn [db faults uuids now tl];
    try (cbn; discriminate);
    destruct (filter (depense_has_id i) (depenses (db w))) as [|d0 [|d1 rest]];
    cbn; try discriminate; intros H; injection H as <-; split; reflexivity.
Qed.

Lemma response_eta {A} (r : Response A) (x : A) :
  error r = None -> data r = Some x -> r = ok x.
Proof. destruct r as [dt er]. cbn. intros -> ->. reflexivity. Qed.

(** The answer of a mutation is the answer of its write; after the write
    only the refresh may run. *)
Lemma run_after_write (m : Mutation) (w : World) (d : Depense.t) :
  fst (primary_write m w) = ok d ->
  fst (run m w) = ok d
  /\ (snd (run m w) = snd (primary_write m w)
      \/ exists cycleId : string,
           snd (run m w)
           = snd (updateCycleTotalDepenses cycleId (snd (primary_write m w)))).
Proof.
  destruct m as [userId cycleId form | depenseId updates | depenseId];
    cbn [run primary_write].
  - unfold createDepense, bind.
    destruct (insert_depense _ w) as [r w1]. cbn [fst snd]. intros ->. cbn.
    destruct (updateCycleTotalDepenses cycleId w1) as [u w2] eqn:E. cbn.
    split; [reflexivity|]. right. exists cycleId. rewrite E. reflexivity.
  - unfold updateDepense, bind, clock.
    destruct (update_depense_returning _ _ _ w) as [r w1]. cbn [fst snd]. intros ->. cbn.
    destruct (PartialDepense.montant updates).
    + destruct (updateCycleTotalDepenses (Depense.cycle_id d) w1) as [u w2] eqn:E. cbn.
      split; [reflexivity|]. right. exists (Depense.cycle_id d). rewrite E. reflexivity.
    + cbn. split; [reflexivity | left; reflexivity].
  - unfold deleteDepense, bind.
    destruct (select_depense_cycle_id depenseId w) as [pre w0].
    destruct (delete_depense_returning depenseId w0) as [r w1]. cbn [fst snd]. intros ->. cbn.
    destruct (data pre) as [cid|].
    + destruct (updateCycleTotalDepenses cid w1) as [u w2] eqn:E. cbn.
      split; [reflexivity|]. right. exists cid. rewrite E. reflexivity.
    + cbn. split; [reflexivity | left; reflexivity].
Qed.

(** A mutation that fails in its write stops there. *)
Lemma run_write_answer (m : Mutation) (w : World) (d : Depense.t) :
  fst (run m w) = ok d -> fst (primary_write m w) = ok d.
Proof.
  destruct m as [userId cycleId form | depenseId updates | depenseId];
    cbn [run primary_write].
  - unfold createDepense, bind.
    destruct (insert_depense _ w) as [r w1]. cbn [fst snd].
    destruct (error r) eqn:E; cbn; [discriminate|].
    destruct (updateCycleTotalDepenses cycleId w1). cbn.
    intros H. injection H as H. apply response_eta; assumption.
  - unfold updateDepense, bind, clock.
    destruct (update_depense_returning _ _ _ w) as [r w1]. cbn [fst snd].
    destruct (error r) eqn:E; cbn; [discriminate|].
    destruct (PartialDepense.montant updates), (data r) eqn:Ed; cbn;
      try match goal with |- context [updateCycleTotalDepenses ?c ?w] =>
            destruct (updateCycleTotalDepenses c w) end;
      cbn; intros H; injection H as H; apply response_eta; congruence.
  - unfold deleteDepense, bind.
    destruct (select_depense_cycle_id depenseId w) as [pre w0].
    destruct (delete_depense_returning depenseId w0) as [r w1]. cbn [fst snd].
    destruct (error r) eqn:E; cbn; [discriminate|].
    destruct (data pre); cbn;
      try match goal with |- context [updateCycleTotalDepenses ?c ?w] =>
            destruct (updateCycleTotalDepenses c w) end;
      cbn; intros H; injection H as H; apply response_eta; congruence.
Qed.

Lemma select_depense_cycle_id_run (i : string) (w : World) :
  snd (select_depense_cycle_id i w) = mkWorld (db w) (tl (faults w)) (uuids w) (now w)
  /\ (hd false (faults w) = false ->
      fst (select_depense_cycle_id i w)
      = single (map Depense.cycle_id (filter (depense_has_id i) (depenses (db w))))).
Proof.
  unfold select_depense_cycle_id, request, on_store.
  destruct (faults w) as [|[] fs]; cbn; split; try reflexivity; discriminate.
Qed.

Lemma primary_write_world (m : Mutation) (w : World) (d : Depense.t) :
  fst (primary_write m w) = ok d ->
  cycles_mensuels (db (snd (primary_write m w))) = cycles_mensuels (db w)
  /\ (calm (requests m) w -> calm 3 (snd (primary_write m w))).
Proof.
  destruct m as [userId cycleId form | depenseId updates | depenseId];
    cbn [primary_write requests].
  - intros H. destruct (insert_depense_ok _ _ _ H) as (_ & ->).
    split; [reflexivity|]. intros Hc. apply (calm_after 3 w); [exact Hc | reflexivity].
  - unfold bind, clock. intros H.
    destruct (update_depense_ok _ _ _ _ _ H) as (d0 & _ & _ & ->).
    split; [reflexivity|]. intros Hc. apply (calm_after 3 w); [exact Hc | reflexivity].
  - unfold bind.
    destruct (select_depense_cycle_id_run depenseId w) as (Hw0 & _).
    destruct (select_depense_cycle_id depenseId w) as [pre w0]. cbn [snd] in Hw0. subst w0.
    intros H. destruct (delete_depense_ok _ _ _ H) as (_ & ->).
    split; [reflexivity|]. intros Hc.
    apply (calm_after 3 (mkWorld (db w) (tl (faults w)) (uuids w) (now w)));
      [|reflexivity].
    apply (calm_after 4 w); [exact Hc | reflexivity].
Qed.

(** With its requests reaching the store, a mutation that triggers the
    refresh runs it on the cycle of the expense it wrote. *)
Lemma run_refreshes (m : Mutation) (w : World) (d : Depense.t) :
  calm (requests m) w ->
  triggers_refresh m = true ->
  fst (run m w) = ok d ->
  snd (run m w)
  = snd (updateCycleTotalDepenses (Depense.cycle_id d) (snd (primary_write m w))).
Proof.
  intros Hc Ht Hr. pose proof (run_write_answer m w d Hr) as Hpw.
  destruct m as [userId cycleId form | depenseId updates | depenseId];
    cbn [run primary_write requests triggers_refresh] in *.
  - destruct (insert_depense_ok _ _ _ Hpw) as (Hcid & _). cbn in Hcid.
    unfold createDepense, bind.
    destruct (insert_depense _ w) as [r w1]. cbn [fst snd] in *. subst r. cbn.
    rewrite Hcid. destruct (updateCycleTotalDepenses cycleId w1). reflexivity.
  - unfold updateDepense, bind, clock in *.
    destruct (update_depense_returning _ _ _ w) as [r w1]. cbn [fst snd] in *. subst r. cbn.
    destruct (PartialDepense.montant updates); [|discriminate].
    destruct (updateCycleTotalDepenses (Depense.cycle_id d) w1). reflexivity.
  - unfold deleteDepense, bind in *.
    destruct (select_depense_cycle_id_run depenseId w) as (Hw0 & Hpre).
    specialize (Hpre (calm_head _ _ Hc)).
    destruct (select_depense_cycle_id depenseId w) as [pre w0]. cbn [fst snd] in *.
    subst w0 pre.
    destruct (delete_depense_ok _ _ _ Hpw) as (Hrow & _). cbn [db] in Hrow.
    rewrite Hrow. cbn [map single ok data].
    destruct (delete_depense_returning depenseId _) as [r w1]. cbn [fst snd] in *. subst r. cbn.
    destruct (updateCycleTotalDepenses (Depense.cycle_id d) w1). reflexivity.
Qed.

Lemma cycle_has_id_eq (i : string) (c : CycleMensuel.t) :
  cycle_has_id i c = true -> CycleMensuel.id c = i.
Proof. unfold cycle_has_id. apply String.eqb_eq. Qed.

(** The row the refresh writes agrees with the expenses it read. *)
Lemma totaux_fresh (s : Store) (cycleId : string) (c : CycleMensuel.t) (t : Z) :
  cycle_has_id cycleId c = true ->
  totals_fresh s
    (patch_cycle (totaux_de c (filter (in_cycle cycleId) (depenses s)) t) c).
Proof.
  intros Hid. apply cycle_has_id_eq in Hid. unfold totals_fresh. cbn.
  rewrite Hid. split; [apply sum_montants_somme | reflexivity].
Qed.

(** A refresh whose requests reach the store leaves the totals fresh. *)
Lemma refresh_makes_fresh (w : World) (cycleId : string) (c : CycleMensuel.t) :
  calm 3 w ->
  cycles_ok (cycles_mensuels (db w)) = true ->
  filter (cycle_has_id cycleId) (cycles_mensuels (db w)) = [c] ->
  exists c' : CycleMensuel.t,
    filter (cycle_has_id cycleId)
      (cycles_mensuels (db (snd (updateCycleTotalDepenses cycleId w)))) = [c']
    /\ totals_fresh (db (snd (updateCycleTotalDepenses cycleId w))) c'.
Proof.
  intros Hc Hok Hrow. rewrite (refresh_runs w cycleId c Hc Hok Hrow).
  cbn [snd db cycles_mensuels set_cycles].
  eexists. split.
  - rewrite filter_updated_cycles by reflexivity. rewrite Hrow. reflexivity.
  - apply (totaux_fresh
             (set_cycles (db w)
                (updated_cycles cycleId
                   (totaux_de c (filter (in_cycle cycleId) (depenses (db w))) (now w))
                   (cycles_mensuels (db w))))
             cycleId c (now w)).
    apply (single_filter_in _ _ _ Hrow).
Qed.





(** C7. When the write of the expense succeeds and one of the requests
    of the refresh fails, the mutation answers with the expense written
    and no error; the expense is stored and [cycles_mensuels] is as it was
    before the mutation, so the totals kept on the cycle are stale.  A
    later refresh whose requests reach the store makes them fresh. *)
Theorem refresh_failure_not_surfaced :
  forall (w : World) (m : Mutation) (d : Depense.t),
    fst (primary_write m w) = ok d ->
    refresh_fails (snd (primary_write m w)) ->
    fst (run m w) = ok d
    /\ cycles_mensuels (db (snd (run m w))) = cycles_mensuels (db w)
    /\ depenses (db (snd (run m w))) = depenses (db (snd (primary_write m w)))
    /\ (forall (w2 : World) (c : CycleMensuel.t),
          db w2 = db (snd (run m w)) ->
          calm 3 w2 ->
          cycles_ok (cycles_mensuels (db w2)) = true ->
          filter (cycle_has_id (Depense.cycle_id d)) (cycles_mensuels (db w2)) = [c] ->
          exists c' : CycleMensuel.t,
            filter (cycle_has_id (Depense.cycle_id d))
              (cycles_mensuels
                 (db (snd (updateCycleTotalDepenses (Depense.cycle_id d) w2)))) = [c']
            /\ totals_fresh (db (snd (updateCycleTotalDepenses (Depense.cycle_id d) w2))) c').
Proof.
  intros w m d Hpw Hfail.
  destruct (run_after_write m w d Hpw) as (Hr & Hw).
  destruct (primary_write_world m w d Hpw) as (Hcy & _).
  split; [exact Hr|].
  assert (Hdb : db (snd (run m w)) = db (snd (primary_write m w))).
  { destruct Hw as [-> | (cid & ->)]; [reflexivity|].
    apply refresh_stale. exact Hfail. }
  rewrite Hdb. split; [exact Hcy|]. split; [reflexivity|].
  intros w2 c _ Hc2 Hok2 Hrow2. apply (refresh_makes_fresh w2 _ c Hc2 Hok2 Hrow2).
Qed.

Lemma refresh_failure_not_surfaced_witness :
  error (fst (run (Creer "u1" "c1" courses) (sample_world [false; false; true]))) = None
  /\ cycles_mensuels (db (snd (run (Creer "u1" "c1" courses)
                                  (sample_world [false; false; true]))))
     = [cycle_janvier]
  /\ List.length (depenses (db (snd (run (Creer "u1" "c1" courses)
                                  (sample_world [false; false; true]))))) = 1%nat.
Proof.
  destruct (refresh_failure_not_surfaced (sample_world [false; false; true])
              (Creer "u1" "c1" courses)
              (Depense.mk "id-1" "u1" "c1" 50 "k3" 1736000000000%Z (Some "Courses") None
                 1736000000000%Z 1736000000000%Z))
    as (Hr & Hcy & Hdep & _); [reflexivity | reflexivity |].
  split; [rewrite Hr; reflexivity|]. split; [exact Hcy|].
  rewrite Hdep. reflexivity.
Defined.

(** ** Monthly statistics *)

Lemma inject_Z_positive (z : Z) : (z >? 0)%Z = true -> ~ inject_Z z == 0.
Proof.
  intros H E. apply Z.gtb_lt in H. unfold Qeq in E. cbn in E. lia.
Qed.

(** The guarded percentage of [getStatsMensuel]. *)
Lemma guarded_percent (x s : Q) :
  exists p : Q,
    (if Qgtb s 0 then percent x s else Some 0) = Some p
    /\ (s == 0 -> p = 0).
Proof.
  destruct (Qgtb s 0) eqn:E.
  - apply Qgtb_gt in E. exists (x / s * 100). split.
    + apply percent_finite. intros Z. rewrite Z in E. apply (Qlt_irrefl 0 E).
    + intros Z. rewrite Z in E. destruct (Qlt_irrefl 0 E).
  - exists 0. split; reflexivity.
Qed.

Lemma guarded_rate (x y : Q) (j : Z) :
  exists p : Q,
    (if (j >? 0)%Z then js_div x (inject_Z j) else Some y) = Some p
    /\ (j = 0%Z -> p = y).
Proof.
  destruct (j >? 0)%Z eqn:E.
  - exists (x / inject_Z j). split.
    + apply js_div_finite. apply inject_Z_positive. exact E.
    + intros ->. discriminate.
  - exists y. split; reflexivity.
Qed.

(** ** Sorting *)

Lemma insert_by_perm {A} (cmp : A -> A -> Q) (x : A) (l : list A) :
  Permutation (insert_by cmp x l) (x :: l).
Proof.
  induction l as [|y rest IH]; cbn; [reflexivity|].
  destruct (Qgtb (cmp x y) 0); [|reflexivity].
  rewrite IH. apply perm_swap.
Qed.

Lemma js_sort_perm {A} (cmp : A -> A -> Q) (l : list A) :
  Permutation (js_sort cmp l) l.
Proof.
  induction l as [|x rest IH]; cbn; [reflexivity|].
  rewrite insert_by_perm. apply perm_skip. exact IH.
Qed.



(** ** Month over month *)






(** *** The breakdown by category never divides by zero *)

Lemma completer_total (t : Q) (cat : DepenseParCategorie) :
  exists r : DepenseParCategorie, completer t cat = Some r.
Proof.
  unfold completer.
  destruct (guarded_percent (total cat) t) as (p & -> & _).
  eexists. reflexivity.
Qed.

Lemma traverse_total {A B} (f : A -> Checked B) (l : list A) :
  (forall x, exists y, f x = Some y) -> exists ys, traverse f l = Some ys.
Proof.
  intros Hf. induction l as [|x rest (ys & IH)]; cbn.
  - eexists. reflexivity.
  - destruct (Hf x) as (y & ->). rewrite IH. eexists. reflexivity.
Qed.

(** ** Sample runs *)

Example startOfMonth_janvier_2025 :
  startOfMonth 2025 1 = 1735689600000%Z /\ endOfMonth 2025 1 = 1738367999999%Z.
Proof. split; reflexivity. Qed.

Example endOfMonth_fevrier_bissextile :
  (endOfMonth 2024 2 + 1 - startOfMonth 2024 2 = 29 * MS_PER_DAY)%Z.
Proof. reflexivity. Qed.

(** February against a January without expenses: the variation of the
    expenses is 0; food is rising and transport is falling. *)
Example comparer_fevrier_janvier :
  option_map (fun c => (variation_depenses c,
                        map nom (categories_en_hausse c),
                        map nom (categories_en_baisse c)))
    (comparer cycle_fevrier cycle_janvier_vide (Some stats_fevrier) (Some stats_janvier))
  = Some (0, ["Alimentation"], ["Transport"]).
Proof. vm_compute. reflexivity. Qed.

(** A new cycle starts active, without expenses, with
    [reste = salaire - totalCharges]. *)
Example createCycle_fevrier :
  fst (createCycle "u1" 2800 2025 2 (Some 800) (Some MAD) (sample_world []))
  = ok (CycleMensuel.mk "id-1" "u1" 2025 2 2800 800 0 (2800 - 800) actif (Some MAD)
          (startOfMonth 2025 2) (endOfMonth 2025 2) None
          1736000000000%Z 1736000000000%Z).
Proof. reflexivity. Qed.

(** Raising the expense of 50 to 80 refreshes the totals to 80 / 2220. *)
Example updateDepense_refreshes :
  cycles_mensuels (db (snd (updateDepense "d1" montant_80 (world_tenu []))))
  = [ CycleMensuel.mk "c1" "u1" 2025 1 3000 700 80 2220 actif (Some EUR)
        (startOfMonth 2025 1) (endOfMonth 2025 1) None 0%Z 1736100000000%Z ].
Proof. vm_compute. reflexivity. Qed.

(** Deleting the only expense refreshes the totals to 0 / 2300. *)
Example deleteDepense_refreshes :
  cycles_mensuels (db (snd (deleteDepense "d1" (world_tenu []))))
  = [ CycleMensuel.mk "c1" "u1" 2025 1 3000 700 0 2300 actif (Some EUR)
        (startOfMonth 2025 1) (endOfMonth 2025 1) None 0%Z 1736100000000%Z ]
  /\ depenses (db (snd (deleteDepense "d1" (world_tenu [])))) = [].
Proof. split; vm_compute; reflexivity. Qed.

(** When the read before the deletion fails, the deletion still goes
    through and no refresh is started: the totals stay at 50 / 2250. *)
Example deleteDepense_without_refresh :
  error (fst (deleteDepense "d1" (world_tenu [true]))) = None
  /\ cycles_mensuels (db (snd (deleteDepense "d1" (world_tenu [true])))) = [cycle_tenu]
  /\ depenses (db (snd (deleteDepense "d1" (world_tenu [true])))) = [].
Proof. repeat split; vm_compute; reflexivity. Qed.

(** The breakdown of A:30, A:20, B:50: two groups of 50, 50 percent each,
    with 2 and 1 expenses, A first. *)
Example par_categorie_trois_depenses :
  option_map
    (map (fun g => (categorie_id g, Qred (total g), Qred (pourcentage g), nombre_depenses g)))
    (par_categorie trois_depenses)
  = Some [ ("A", 50, 50, 2%Z); ("B", 50, 50, 1%Z) ].
Proof. vm_compute. reflexivity. Qed.

(** * Properties of the other services *)

(** ** Lists, sums and orders *)

Lemma somme_cons (x : Q) (l : list Q) : somme (x :: l) = x + somme l.
Proof. reflexivity. Qed.

Lemma somme_app (l1 l2 : list Q) : somme (l1 ++ l2) == somme l1 + somme l2.
Proof.
  induction l1 as [|x rest IH]; cbn [app].
  - change (somme []) with 0. ring.
  - rewrite !somme_cons, IH. ring.
Qed.

Lemma somme_perm (l1 l2 : list Q) : Permutation l1 l2 -> somme l1 == somme l2.
Proof.
  induction 1; rewrite ?somme_cons.
  - reflexivity.
  - rewrite IHPermutation. reflexivity.
  - ring.
  - rewrite IHPermutation1. exact IHPermutation2.
Qed.

Lemma insert_ordered_perm {A} (before : A -> A -> bool) (x : A) (l : list A) :
  Permutation (insert_ordered before x l) (x :: l).
Proof.
  induction l as [|y rest IH]; cbn; [reflexivity|].
  destruct (before x y); [reflexivity|].
  rewrite IH. apply perm_swap.
Qed.

Lemma order_by_perm {A} (before : A -> A -> bool) (l : list A) :
  Permutation (order_by before l) l.
Proof.
  induction l as [|x rest IH]; cbn; [reflexivity|].
  rewrite insert_ordered_perm. apply perm_skip. exact IH.
Qed.

(** An order that is total and transitive sorts. *)
Lemma insert_ordered_sorted {A} (before : A -> A -> bool) (x : A) (l : list A) :
  (forall a b, before a b = false -> before b a = true) ->
  (forall a b c, before a b = true -> before b c = true -> before a c = true) ->
  StronglySorted (fun a b => before a b = true) l ->
  StronglySorted (fun a b => before a b = true) (insert_ordered before x l).
Proof.
  intros Htot Htrans. induction l as [|y rest IH]; intros H; cbn.
  - constructor; constructor.
  - inversion H as [|? ? Hrest Hall]; subst.
    destruct (before x y) eqn:E.
    + constructor; [exact H|]. constructor; [exact E|].
      apply (Forall_impl _ (P := fun b => before y b = true)); [|exact Hall].
      intros b Hb. apply (Htrans x y b E Hb).
    + constructor; [apply IH; exact Hrest|].
      apply (Permutation_Forall (Permutation_sym (insert_ordered_perm before x rest))).
      constructor; [apply Htot; exact E | exact Hall].
Qed.

Lemma order_by_sorted {A} (before : A -> A -> bool) (l : list A) :
  (forall a b, before a b = false -> before b a = true) ->
  (forall a b c, before a b = true -> before b c = true -> before a c = true) ->
  StronglySorted (fun a b => before a b = true) (order_by before l).
Proof.
  intros Htot Htrans. induction l as [|x rest IH]; cbn.
  - constructor.
  - apply insert_ordered_sorted; assumption.
Qed.

Lemma somme_filter {A} (p : A -> bool) (h : A -> Q) (l : list A) :
  somme (map h (filter p l)) == somme (map (poids p h) l).
Proof.
  unfold poids. induction l as [|x rest IH]; cbn [map filter]; [reflexivity|].
  destruct (p x); cbn [map]; rewrite !somme_cons, IH; ring.
Qed.

(** A list in which exactly one row passes a test splits around it. *)
Lemma single_split {A} (f : A -> bool) (l : list A) (x : A) :
  filter f l = [x] ->
  exists l1 l2 : list A,
    l = l1 ++ x :: l2 /\ filter f l1 = [] /\ filter f l2 = [] /\ f x = true.
Proof.
  induction l as [|y rest IH]; cbn; [discriminate|].
  destruct (f y) eqn:E.
  - intros H. injection H as -> Hrest.
    exists [], rest. repeat split; [exact Hrest | exact E].
  - intros H. destruct (IH H) as (l1 & l2 & -> & H1 & H2 & Hx).
    exists (y :: l1), l2. cbn. rewrite E. repeat split; assumption.
Qed.

Lemma filter_nil_map {A} (f : A -> bool) (g : A -> A) (l : list A) :
  filter f l = [] -> map (fun e => if f e then g e else e) l = l.
Proof.
  induction l as [|y rest IH]; cbn; [reflexivity|].
  destruct (f y); [discriminate|]. intros H. rewrite (IH H). reflexivity.
Qed.

Lemma filter_nil_negb {A} (f : A -> bool) (l : list A) :
  filter f l = [] -> filter (fun e => negb (f e)) l = l.
Proof.
  induction l as [|y rest IH]; cbn; [reflexivity|].
  destruct (f y); [discriminate|]. cbn. intros H. rewrite (IH H). reflexivity.
Qed.

(** Rewriting the one row that passes the test. *)
Lemma map_single {A} (f : A -> bool) (g : A -> A) (l l1 l2 : list A) (x : A) :
  l = l1 ++ x :: l2 -> filter f l1 = [] -> filter f l2 = [] -> f x = true ->
  map (fun e => if f e then g e else e) l = l1 ++ g x :: l2.
Proof.
  intros -> H1 H2 Hx. rewrite map_app. cbn. rewrite Hx.
  rewrite (filter_nil_map f g l1 H1), (filter_nil_map f g l2 H2). reflexivity.
Qed.

(** Removing the one row that passes the test. *)
Lemma remove_single {A} (f : A -> bool) (l l1 l2 : list A) (x : A) :
  l = l1 ++ x :: l2 -> filter f l1 = [] -> filter f l2 = [] -> f x = true ->
  filter (fun e => negb (f e)) l = l1 ++ l2.
Proof.
  intros -> H1 H2 Hx. rewrite filter_app. cbn. rewrite Hx. cbn.
  rewrite (filter_nil_negb f l1 H1), (filter_nil_negb f l2 H2). reflexivity.
Qed.

(** A filtered sum over a list split around one row. *)
Lemma somme_filter_split {A} (p : A -> bool) (h : A -> Q) (l1 l2 : list A) (x : A) :
  somme (map h (filter p (l1 ++ x :: l2)))
  == somme (map h (filter p (l1 ++ l2))) + poids p h x.
Proof.
  rewrite !somme_filter, !map_app. cbn [map].
  rewrite !somme_app, somme_cons. ring.
Qed.

Lemma sorted_weaken {A} (R R' : A -> A -> Prop) (l : list A) :
  (forall a b, R a b -> R' a b) -> StronglySorted R l -> StronglySorted R' l.
Proof.
  intros H. induction 1 as [|x rest Hs IH Hall]; constructor; [exact IH|].
  apply (Forall_impl _ (H x) Hall).
Qed.

(** ** Cycles service *)

Lemma same_cycle_key_sym (a b : CycleMensuel.t) :
  same_cycle_key a b = same_cycle_key b a.
Proof.
  unfold same_cycle_key, same_period.
  rewrite (String.eqb_sym (CycleMensuel.id a)), (String.eqb_sym (CycleMensuel.user_id a)),
    (Z.eqb_sym (CycleMensuel.annee a)), (Z.eqb_sym (CycleMensuel.mois a)).
  reflexivity.
Qed.

Lemma cycles_ok_snoc (l : list CycleMensuel.t) (c : CycleMensuel.t) :
  cycles_ok l = true ->
  existsb (same_cycle_key c) l = false ->
  cycles_ok (l ++ [c]) = true.
Proof.
  induction l as [|y rest IH]; cbn; [reflexivity|].
  intros Hok Hex. apply andb_true_iff in Hok. destruct Hok as (Hy & Hrest).
  apply orb_false_iff in Hex. destruct Hex as (Hcy & Hcrest).
  rewrite (IH Hrest Hcrest), existsb_app. cbn.
  rewrite (same_cycle_key_sym y c), Hcy.
  apply negb_true_iff in Hy. rewrite Hy. reflexivity.
Qed.

Lemma no_clash (c : CycleMensuel.t) (l : list CycleMensuel.t) :
  (forall d, In d l ->
     CycleMensuel.id d <> CycleMensuel.id c
     /\ ~ (CycleMensuel.user_id d = CycleMensuel.user_id c
           /\ CycleMensuel.annee d = CycleMensuel.annee c
           /\ CycleMensuel.mois d = CycleMensuel.mois c)) ->
  existsb (same_cycle_key c) l = false.
Proof.
  intros H. destruct (existsb (same_cycle_key c) l) eqn:E; [|reflexivity].
  apply existsb_exists in E. destruct E as (d & Hin & Hk).
  destruct (H d Hin) as (Hid & Hper). exfalso.
  unfold same_cycle_key, same_period in Hk.
  apply orb_true_iff in Hk. destruct Hk as [Hk | Hk].
  - apply String.eqb_eq in Hk. congruence.
  - apply andb_true_iff in Hk. destruct Hk as (Hk & Hm).
    apply andb_true_iff in Hk. destruct Hk as (Hu & Ha).
    apply String.eqb_eq in Hu. apply Z.eqb_eq in Ha. apply Z.eqb_eq in Hm.
    apply Hper. repeat split; congruence.
Qed.

(** What [createCycle] does when the row it sends clashes with none. *)
Lemma createCycle_inserts (w : World) (userId : string) (salaire0 : Q) (annee mois : Z)
    (totalCharges : option Q) (devise : option Devise) :
  hd false (faults w) = false ->
  (forall d, In d (cycles_mensuels (db w)) ->
     CycleMensuel.id d <> hd "" (uuids w)
     /\ ~ (CycleMensuel.user_id d = userId /\ CycleMensuel.annee d = annee
           /\ CycleMensuel.mois d = mois)) ->
  let c' := CycleMensuel.mk (hd "" (uuids w)) userId annee mois salaire0
              (opt totalCharges 0) 0 (salaire0 - opt totalCharges 0) actif
              (Some (opt devise EUR)) (startOfMonth annee mois) (endOfMonth annee mois)
              None (now w) (now w) in
  createCycle userId salaire0 annee mois totalCharges devise w
  = (ok c',
     mkWorld (set_cycles (db w) (cycles_mensuels (db w) ++ [c']))
       (tl (faults w)) (tl (uuids w)) (now w)).
Proof.
  intros Hf Hfree c'. unfold createCycle, bind, insert_cycle.
  rewrite (request_reaches _ w Hf). cbn [db uuids now faults].
  change (patch_cycle _ _) with c'.
  rewrite (no_clash c' (cycles_mensuels (db w)) Hfree). reflexivity.
Qed.

(** X1. A creation that clashes with no stored row answers with the new
    cycle and appends it to the table, leaving the other rows as they
    are.  The new cycle is active, has no expenses, carries the charges
    total it was given (0 when none) and satisfies
    [reste = salaire_reel - total_charges - total_depenses]; the
    constraints of the table still hold. *)
Theorem createCycle_opens_consistent_cycle :
  forall (w : World) (userId : string) (salaire0 : Q) (annee mois : Z)
         (totalCharges : option Q) (devise : option Devise),
    hd false (faults w) = false ->
    (forall d, In d (cycles_mensuels (db w)) ->
       CycleMensuel.id d <> hd "" (uuids w)
       /\ ~ (CycleMensuel.user_id d = userId /\ CycleMensuel.annee d = annee
             /\ CycleMensuel.mois d = mois)) ->
    exists c' : CycleMensuel.t,
      fst (createCycle userId salaire0 annee mois totalCharges devise w) = ok c'
      /\ cycles_mensuels (db (snd (createCycle userId salaire0 annee mois totalCharges devise w)))
         = cycles_mensuels (db w) ++ [c']
      /\ CycleMensuel.user_id c' = userId
      /\ CycleMensuel.annee c' = annee /\ CycleMensuel.mois c' = mois
      /\ CycleMensuel.statut c' = actif
      /\ CycleMensuel.salaire_reel c' = salaire0
      /\ CycleMensuel.total_charges c' = opt totalCharges 0
      /\ CycleMensuel.total_depenses c' = 0
      /\ CycleMensuel.reste c'
         == CycleMensuel.salaire_reel c' - CycleMensuel.total_charges c'
            - CycleMensuel.total_depenses c'
      /\ (cycles_ok (cycles_mensuels (db w)) = true ->
          cycles_ok
            (cycles_mensuels
               (db (snd (createCycle userId salaire0 annee mois totalCharges devise w))))
          = true).
Proof.
  intros w userId salaire0 annee mois totalCharges devise Hf Hfree.
  rewrite (createCycle_inserts w userId salaire0 annee mois totalCharges devise Hf Hfree).
  cbn [fst snd db cycles_mensuels set_cycles].
  eexists. split; [reflexivity|]. split; [reflexivity|].
  cbn. repeat split; try reflexivity.
  - ring.
  - intros Hok. apply cycles_ok_snoc; [exact Hok|].
    apply no_clash. exact Hfree.
Qed.

Lemma createCycle_opens_consistent_cycle_witness :
  exists c' : CycleMensuel.t,
    fst (createCycle "u1" 2800 2025 2 (Some 800) None (sample_world [])) = ok c'
    /\ CycleMensuel.reste c' == 2000.
Proof.
  destruct (createCycle_opens_consistent_cycle (sample_world []) "u1" 2800 2025 2
              (Some 800) None)
    as (c' & Hr & _ & _ & _ & _ & _ & Hs & Ht & Hd & Hre & _).
  - reflexivity.
  - intros d [<- | []]. split; [discriminate|]. intros (_ & _ & Hm). discriminate.
  - exists c'. split; [exact Hr|]. rewrite Hre, Hs, Ht, Hd. reflexivity.
Defined.

(** A creation for a period the user already has is rejected. *)
Lemma createCycle_clash (w : World) (userId : string) (salaire0 : Q) (annee mois : Z)
    (totalCharges : option Q) (devise : option Devise) (c : CycleMensuel.t) :
  hd false (faults w) = false ->
  In c (cycles_mensuels (db w)) ->
  CycleMensuel.user_id c = userId ->
  CycleMensuel.annee c = annee ->
  CycleMensuel.mois c = mois ->
  createCycle userId salaire0 annee mois totalCharges devise w
  = (failure unique_violation, mkWorld (db w) (tl (faults w)) (tl (uuids w)) (now w)).
Proof.
  intros Hf Hin Hu Ha Hm. unfold createCycle, bind, insert_cycle.
  rewrite (request_reaches _ w Hf). cbn [db uuids now faults].
  match goal with
  | |- context [existsb (same_cycle_key ?n) _] =>
      rewrite (existsb_same_period n (cycles_mensuels (db w)) c Hin)
  end.
  - reflexivity.
  - unfold same_period, patch_cycle. cbn.
    rewrite Hu, Ha, Hm, String.eqb_refl, !Z.eqb_refl. reflexivity.
Qed.

Lemma createCycle_ok_row (w : World) (userId : string) (salaire0 : Q) (annee mois : Z)
    (totalCharges : option Q) (devise : option Devise) (c' : CycleMensuel.t) :
  fst (createCycle userId salaire0 annee mois totalCharges devise w) = ok c' ->
  cycles_mensuels (db (snd (createCycle userId salaire0 annee mois totalCharges devise w)))
  = cycles_mensuels (db w) ++ [c']
  /\ CycleMensuel.user_id c' = userId
  /\ CycleMensuel.annee c' = annee /\ CycleMensuel.mois c' = mois
  /\ CycleMensuel.statut c' = actif.
Proof.
  unfold createCycle, bind, insert_cycle, request.
  destruct (faults w) as [|[] fs]; cbn [db uuids now faults tl];
    try (cbn; discriminate);
    match goal with |- context [existsb ?f ?l] => destruct (existsb f l) end;
    cbn; try discriminate; intros H; injection H as <-; repeat split; reflexivity.
Qed.

(** X2. After a successful creation, a second creation for the same
    user, year and month is rejected with the unique-violation error,
    whatever income, charges total and currency it carries, and stores
    nothing. *)
Theorem createCycle_twice_rejected :
  forall (w w2 : World) (userId : string) (salaire1 salaire2 : Q) (annee mois : Z)
         (charges1 charges2 : option Q) (devise1 devise2 : option Devise)
         (c' : CycleMensuel.t),
    fst (createCycle userId salaire1 annee mois charges1 devise1 w) = ok c' ->
    db w2 = db (snd (createCycle userId salaire1 annee mois charges1 devise1 w)) ->
    hd false (faults w2) = false ->
    fst (createCycle userId salaire2 annee mois charges2 devise2 w2)
    = failure unique_violation
    /\ db (snd (createCycle userId salaire2 annee mois charges2 devise2 w2)) = db w2.
Proof.
  intros w w2 userId salaire1 salaire2 annee mois charges1 charges2 devise1 devise2 c'
    Hok Hdb Hf.
  destruct (createCycle_ok_row _ _ _ _ _ _ _ _ Hok) as (Hrows & Hu & Ha & Hm & _).
  rewrite (createCycle_clash w2 userId salaire2 annee mois charges2 devise2 c' Hf);
    try assumption.
  - split; reflexivity.
  - rewrite Hdb, Hrows. apply in_or_app. right. left. reflexivity.
Qed.

Lemma createCycle_twice_rejected_witness :
  fst (createCycle "u1" 1 2025 2 None (Some USD)
         (snd (createCycle "u1" 2800 2025 2 (Some 800) None (sample_world []))))
  = failure unique_violation.
Proof.
  apply (createCycle_twice_rejected (sample_world [])
           (snd (createCycle "u1" 2800 2025 2 (Some 800) None (sample_world [])))
           "u1" 2800 1 2025 2 (Some 800) None None (Some USD)
           (CycleMensuel.mk "id-1" "u1" 2025 2 2800 800 0 (2800 - 800) actif (Some EUR)
              (startOfMonth 2025 2) (endOfMonth 2025 2) None
              1736000000000%Z 1736000000000%Z));
    reflexivity.
Defined.

(** X3. [createCycle] does not close the cycle the user has open: when
    the user already has an active cycle and a creation for another
    period succeeds, both rows are active and [getCycleActif] answers
    with the row-count error and no data. *)
Theorem createCycle_second_active_cycle :
  forall (w w2 : World) (userId : string) (salaire0 : Q) (annee mois : Z)
         (totalCharges : option Q) (devise : option Devise) (c c' : CycleMensuel.t),
    In c (cycles_mensuels (db w)) ->
    CycleMensuel.user_id c = userId ->
    CycleMensuel.statut c = actif ->
    fst (createCycle userId salaire0 annee mois totalCharges devise w) = ok c' ->
    db w2 = db (snd (createCycle userId salaire0 annee mois totalCharges devise w)) ->
    hd false (faults w2) = false ->
    In c (cycles_mensuels (db w2))
    /\ In c' (cycles_mensuels (db w2))
    /\ CycleMensuel.statut c' = actif
    /\ fst (getCycleActif userId w2) = failure not_single.
Proof.
  intros w w2 userId salaire0 annee mois totalCharges devise c c' Hin Hu Hs Hok Hdb Hf.
  destruct (createCycle_ok_row _ _ _ _ _ _ _ _ Hok) as (Hrows & Hu' & _ & _ & Hs').
  rewrite Hdb, Hrows.
  split; [apply in_or_app; left; exact Hin|].
  split; [apply in_or_app; right; left; reflexivity|].
  split; [exact Hs'|].
  unfold getCycleActif, bind. rewrite (request_reaches _ w2 Hf).
  unfold on_store. cbn [db faults uuids now]. rewrite Hdb, Hrows, filter_app.
  cbn [filter]. unfold est_actif at 2. rewrite Hu', Hs', String.eqb_refl. cbn [andb].
  match goal with |- context [filter ?f (cycles_mensuels (db w))] =>
    assert (Hc : In c (filter f (cycles_mensuels (db w))))
      by (apply filter_In; split; [exact Hin|];
          unfold est_actif; rewrite Hu, Hs, String.eqb_refl; reflexivity);
    destruct (filter f (cycles_mensuels (db w))) as [|x [|y rest]]
  end; [destruct Hc | reflexivity | reflexivity].
Qed.

Lemma createCycle_second_active_cycle_witness :
  fst (getCycleActif "u1"
         (snd (createCycle "u1" 2800 2025 2 (Some 800) None (sample_world []))))
  = failure not_single.
Proof.
  apply (createCycle_second_active_cycle (sample_world [])
           (snd (createCycle "u1" 2800 2025 2 (Some 800) None (sample_world [])))
           "u1" 2800 2025 2 (Some 800) None cycle_janvier
           (CycleMensuel.mk "id-1" "u1" 2025 2 2800 800 0 (2800 - 800) actif (Some EUR)
              (startOfMonth 2025 2) (endOfMonth 2025 2) None
              1736000000000%Z 1736000000000%Z));
    try reflexivity.
  left. reflexivity.
Defined.

(** *** closeCycle, beyond the closure itself *)

(** X4. [closeCycle] on an identifier no stored cycle has answers with
    an error and no data after the first read, and changes nothing. *)
Theorem closeCycle_unknown_cycle :
  forall (w : World) (cycleId : string),
    filter (cycle_has_id cycleId) (cycles_mensuels (db w)) = [] ->
    data (fst (closeCycle cycleId w)) = None
    /\ (error (fst (closeCycle cycleId w)) = Some not_single
        \/ error (fst (closeCycle cycleId w)) = Some fetch_failed)
    /\ db (snd (closeCycle cycleId w)) = db w
    /\ faults (snd (closeCycle cycleId w)) = tl (faults w).
Proof.
  intros w cycleId Hrow.
  unfold closeCycle, bind, select_cycle, request, on_store.
  destruct (faults w) as [|[] fs]; cbn [db faults uuids now tl]; rewrite ?Hrow; cbn;
    repeat split; auto.
Qed.

Lemma closeCycle_unknown_cycle_witness :
  fst (closeCycle "c9" (sample_world [])) = failure not_single
  /\ db (snd (closeCycle "c9" (sample_world []))) = sample_store.
Proof.
  destruct (closeCycle_unknown_cycle (sample_world []) "c9") as (_ & _ & Hdb & _);
    [reflexivity|].
  split; [reflexivity | exact Hdb].
Defined.

Lemma request_read_db {A} (f : Store -> Response A) (w : World) :
  db (snd (request (on_store (fun s => (f s, s))) w)) = db w.
Proof.
  unfold request, on_store. destruct (faults w) as [|[] fs]; reflexivity.
Qed.

Lemma update_cycle_returning_effect (i : string) (p : PartialCycle.t) (w : World) :
  db (snd (update_cycle_returning i p w)) = db w
  \/ db (snd (update_cycle_returning i p w))
     = set_cycles (db w) (updated_cycles i p (cycles_mensuels (db w))).
Proof.
  unfold update_cycle_returning, request, on_store.
  destruct (faults w) as [|[] fs]; cbn [db faults uuids now tl];
    try (left; reflexivity);
    (destruct (cycles_ok (updated_cycles i p (cycles_mensuels (db w))));
     [|left; reflexivity];
     destruct (map (patch_cycle p) (filter (cycle_has_id i) (cycles_mensuels (db w))))
       as [|c [|d rest]];
     [left | right | left]; reflexivity).
Qed.

Lemma update_cycles_effect (i : string) (p : PartialCycle.t) (w : World) :
  db (snd (update_cycles i p w)) = db w
  \/ db (snd (update_cycles i p w))
     = set_cycles (db w) (updated_cycles i p (cycles_mensuels (db w))).
Proof.
  unfold update_cycles, request, on_store.
  destruct (faults w) as [|[] fs]; cbn [db faults uuids now tl];
    try (left; reflexivity);
    (destruct (cycles_ok (updated_cycles i p (cycles_mensuels (db w))));
     [right | left]; reflexivity).
Qed.

Lemma select_cycle_db (i : string) (w : World) :
  db (snd (select_cycle i w)) = db w.
Proof. unfold select_cycle. apply request_read_db. Qed.

Lemma select_active_charges_db (u : string) (w : World) :
  db (snd (select_active_charges u w)) = db w.
Proof.
  unfold select_active_charges.
  apply (request_read_db
           (fun s => ok (filter (fun ch => String.eqb (ChargeFix.user_id ch) u
                                           && ChargeFix.actif ch) (charges_fixes s)))).
Qed.

(** Whatever happens, [closeCycle] either leaves the tables as they are
    or writes one closure payload on the rows of that identifier. *)
Lemma closeCycle_effect (w : World) (cycleId : string) :
  db (snd (closeCycle cycleId w)) = db w
  \/ exists (c : CycleMensuel.t) (l : list ChargeFix.t) (t : Z),
       db (snd (closeCycle cycleId w))
       = set_cycles (db w)
           (updated_cycles cycleId (cloture_de c l t) (cycles_mensuels (db w))).
Proof.
  unfold closeCycle, bind.
  pose proof (select_cycle_db cycleId w) as H1.
  destruct (select_cycle cycleId w) as [cur w1]. cbn [snd] in H1.
  destruct (error cur); [left; exact H1|].
  destruct (data cur) as [c|]; [|left; exact H1].
  pose proof (select_active_charges_db (CycleMensuel.user_id c) w1) as H2.
  destruct (select_active_charges (CycleMensuel.user_id c) w1) as [ch w2]. cbn [snd] in H2.
  destruct (error ch); [left; cbn; congruence|].
  unfold clock.
  match goal with |- context [update_cycle_returning cycleId ?p w2] =>
    pose proof (update_cycle_returning_effect cycleId p w2) as H3;
    destruct (update_cycle_returning cycleId p w2) as [r w3]
  end.
  cbn [snd ret] in *.
  destruct H3 as [H3 | H3]; [left; congruence|].
  right. destruct (data ch) as [l|].
  - exists c, l, (now w2). rewrite H3, H2, H1. reflexivity.
  - exists c, [], (now w2). rewrite H3, H2, H1. reflexivity.
Qed.

Lemma updated_cycles_Forall2 (R : CycleMensuel.t -> CycleMensuel.t -> Prop) (i : string)
    (p : PartialCycle.t) (l : list CycleMensuel.t) :
  (forall c, R c c) ->
  (forall c, cycle_has_id i c = true -> R c (patch_cycle p c)) ->
  Forall2 R l (updated_cycles i p l).
Proof.
  intros Hrefl Hpatch. unfold updated_cycles.
  induction l as [|c rest IH]; cbn; constructor; [|exact IH].
  destruct (cycle_has_id i c) eqn:E; [apply Hpatch; exact E | apply Hrefl].
Qed.

Lemma Forall2_same {A} (R : A -> A -> Prop) (l : list A) :
  (forall x, R x x) -> Forall2 R l l.
Proof. intros H. induction l; constructor; auto. Qed.

(** X5. Whatever the outcome, [closeCycle] leaves the charges, the
    categories and the expenses as they are, keeps every cycle row in
    place, leaves the rows of other identifiers untouched, and on the row
    it closes changes nothing but [total_charges], [reste], [statut] and
    [updated_at]: the income and the expenses total of a cycle are never
    altered by its closure. *)
Theorem closeCycle_touches_one_row :
  forall (w : World) (cycleId : string),
    charges_fixes (db (snd (closeCycle cycleId w))) = charges_fixes (db w)
    /\ categories (db (snd (closeCycle cycleId w))) = categories (db w)
    /\ depenses (db (snd (closeCycle cycleId w))) = depenses (db w)
    /\ Forall2 (fun c c' => hors_cloture c' = hors_cloture c
                            /\ (CycleMensuel.id c <> cycleId -> c' = c))
         (cycles_mensuels (db w)) (cycles_mensuels (db (snd (closeCycle cycleId w)))).
Proof.
  intros w cycleId.
  destruct (closeCycle_effect w cycleId) as [-> | (c & l & t & ->)].
  - repeat split. apply Forall2_same. intros x. split; reflexivity.
  - cbn [set_cycles charges_fixes categories depenses cycles_mensuels].
    repeat split. apply updated_cycles_Forall2.
    + intros x. split; reflexivity.
    + intros x Hid. split; [reflexivity|].
      intros Hne. apply cycle_has_id_eq in Hid. contradiction.
Qed.

(** X6. Closing a cycle a second time while the charges have not
    changed writes the same [total_charges] and [reste] again: the
    recomputation of a closed cycle moves its totals only when a charge
    was added, changed, removed or toggled in between. *)
Theorem closeCycle_again_same_totals :
  forall (w w2 : World) (cycleId : string) (c : CycleMensuel.t),
    calm 3 w ->
    cycles_ok (cycles_mensuels (db w)) = true ->
    filter (cycle_has_id cycleId) (cycles_mensuels (db w)) = [c] ->
    db w2 = db (snd (closeCycle cycleId w)) ->
    calm 3 w2 ->
    exists c1 c2 : CycleMensuel.t,
      fst (closeCycle cycleId w) = ok c1
      /\ fst (closeCycle cycleId w2) = ok c2
      /\ CycleMensuel.total_charges c2 = CycleMensuel.total_charges c1
      /\ CycleMensuel.reste c2 = CycleMensuel.reste c1
      /\ CycleMensuel.statut c2 = cloture
      /\ hors_cloture c2 = hors_cloture c.
Proof.
  intros w w2 cycleId c Hc Hok Hrow Hdb Hc2.
  rewrite (closeCycle_runs w cycleId c Hc Hok Hrow) in Hdb |- *.
  cbn [fst snd db] in Hdb |- *.
  set (p := cloture_de c (charges_actives (CycleMensuel.user_id c) (db w)) (now w)) in *.
  assert (Hok2 : cycles_ok (cycles_mensuels (db w2)) = true).
  { rewrite Hdb. cbn [cycles_mensuels set_cycles].
    rewrite (cycles_ok_updated cycleId p _ (keeps_keys_cloture _ _ _)). exact Hok. }
  assert (Hrow2 : filter (cycle_has_id cycleId) (cycles_mensuels (db w2)) = [patch_cycle p c]).
  { rewrite Hdb. cbn [cycles_mensuels set_cycles].
    rewrite filter_updated_cycles by reflexivity. rewrite Hrow. reflexivity. }
  rewrite (closeCycle_runs w2 cycleId (patch_cycle p c) Hc2 Hok2 Hrow2).
  cbn [fst].
  exists (patch_cycle p c). eexists. split; [reflexivity|]. split; [reflexivity|].
  assert (Hch : charges_actives (CycleMensuel.user_id (patch_cycle p c)) (db w2)
                = charges_actives (CycleMensuel.user_id c) (db w)).
  { rewrite Hdb. reflexivity. }
  rewrite Hch. cbn. repeat split; reflexivity.
Qed.

Lemma closeCycle_again_same_totals_witness :
  exists c2 : CycleMensuel.t,
    fst (closeCycle "c1" (snd (closeCycle "c1" (sample_world [])))) = ok c2
    /\ CycleMensuel.total_charges c2 = 800
    /\ CycleMensuel.reste c2 = 1750.
Proof.
  destruct (closeCycle_again_same_totals (sample_world [])
              (snd (closeCycle "c1" (sample_world []))) "c1" cycle_janvier)
    as (c1 & c2 & H1 & H2 & Ht & Hr & _);
    [reflexivity | reflexivity | reflexivity | reflexivity | reflexivity |].
  exists c2. split; [exact H2|].
  injection H1 as <-. split; [rewrite Ht | rewrite Hr]; vm_compute; reflexivity.
Defined.

(** ** Charges service *)

Lemma getTotalCharges_runs (w : World) (userId : string) :
  hd false (faults w) = false ->
  exists t : Q,
    getTotalCharges userId w
    = (ok t, mkWorld (db w) (tl (faults w)) (uuids w) (now w))
    /\ t == total_actives userId (db w).
Proof.
  intros Hf. unfold getTotalCharges, getChargesActives, bind.
  rewrite (request_reaches _ w Hf). unfold on_store. cbn [db faults uuids now].
  cbn [ret settle ok error data].
  eexists. split; [reflexivity|].
  rewrite fold_left_somme. unfold total_actives, charges_actives.
  rewrite (somme_perm _ _ (Permutation_map ChargeFix.montant (order_by_perm _ _))).
  ring.
Qed.

Lemma jour_total (a b : ChargeFix.t) :
  (ChargeFix.jour_prelevement a <=? ChargeFix.jour_prelevement b)%Z = false ->
  (ChargeFix.jour_prelevement b <=? ChargeFix.jour_prelevement a)%Z = true.
Proof. intros H. apply Z.leb_gt in H. apply Z.leb_le. lia. Qed.

Lemma jour_trans (a b c : ChargeFix.t) :
  (ChargeFix.jour_prelevement a <=? ChargeFix.jour_prelevement b)%Z = true ->
  (ChargeFix.jour_prelevement b <=? ChargeFix.jour_prelevement c)%Z = true ->
  (ChargeFix.jour_prelevement a <=? ChargeFix.jour_prelevement c)%Z = true.
Proof. rewrite !Z.leb_le. lia. Qed.

(** X7. [getTotalCharges] and [closeCycle] sum the same charges.  With
    its request reaching the store, [getTotalCharges] writes nothing and
    answers with the amounts of the user's active charges added left to
    right from 0, the charges taken by day of debit; the charges are
    those, each once, that [closeCycle] adds in the order of the table
    for the [total_charges] it stores on a cycle of that user when run on
    the same tables. *)
Theorem getTotalCharges_sums_the_closure_rows :
  forall (w w0 : World) (cycleId : string) (c : CycleMensuel.t),
    calm 3 w ->
    cycles_ok (cycles_mensuels (db w)) = true ->
    filter (cycle_has_id cycleId) (cycles_mensuels (db w)) = [c] ->
    db w0 = db w ->
    hd false (faults w0) = false ->
    exists (rows : list ChargeFix.t) (c' : CycleMensuel.t),
      fst (getTotalCharges (CycleMensuel.user_id c) w0)
      = ok (fold_left (fun sum ch => sum + ChargeFix.montant ch) rows 0)
      /\ db (snd (getTotalCharges (CycleMensuel.user_id c) w0)) = db w0
      /\ Permutation rows (charges_actives (CycleMensuel.user_id c) (db w))
      /\ StronglySorted
           (fun a b => (ChargeFix.jour_prelevement a <= ChargeFix.jour_prelevement b)%Z)
           rows
      /\ fst (closeCycle cycleId w) = ok c'
      /\ CycleMensuel.total_charges c'
         = sum_charges (Some (charges_actives (CycleMensuel.user_id c) (db w))).
Proof.
  intros w w0 cycleId c Hc Hok Hrow Hdb Hf.
  rewrite (closeCycle_runs w cycleId c Hc Hok Hrow). cbn [fst snd db].
  unfold getTotalCharges, getChargesActives, bind.
  rewrite (request_reaches _ w0 Hf). unfold on_store. cbn [db faults uuids now].
  cbn [ret settle ok error data fst snd db].
  rewrite Hdb. fold (charges_actives (CycleMensuel.user_id c) (db w)).
  eexists. eexists. split; [reflexivity|]. split; [reflexivity|].
  split; [apply order_by_perm|]. split; [|split; reflexivity].
  eapply sorted_weaken; [|apply order_by_sorted; [exact jour_total | exact jour_trans]].
  intros a b H. apply Z.leb_le. exact H.
Qed.

Lemma getTotalCharges_sums_the_closure_rows_witness :
  exists (rows : list ChargeFix.t) (c' : CycleMensuel.t),
    fst (getTotalCharges "u1" (sample_world []))
    = ok (fold_left (fun sum ch => sum + ChargeFix.montant ch) rows 0)
    /\ Permutation rows (charges_actives "u1" (db (sample_world [])))
    /\ fst (closeCycle "c1" (sample_world [])) = ok c'
    /\ CycleMensuel.total_charges c' == 800.
Proof.
  destruct (getTotalCharges_sums_the_closure_rows (sample_world []) (sample_world []) "c1"
              cycle_janvier)
    as (rows & c' & Ht & _ & Hp & _ & Hc & Hs);
    [reflexivity | reflexivity | reflexivity | reflexivity | reflexivity |].
  exists rows, c'. split; [exact Ht|]. split; [exact Hp|]. split; [exact Hc|].
  rewrite Hs. vm_compute. reflexivity.
Defined.

(** What a successful write of a charge has done. *)
Lemma createCharge_ok (userId : string) (form : ChargeFormData.t) (w : World)
    (ch : ChargeFix.t) :
  fst (createCharge userId form w) = ok ch ->
  ChargeFix.user_id ch = userId
  /\ ChargeFix.montant ch = ChargeFormData.montant form
  /\ ChargeFix.actif ch = ChargeFormData.actif form
  /\ db (snd (createCharge userId form w))
     = set_charges (db w) (charges_fixes (db w) ++ [ch]).
Proof.
  unfold createCharge, bind, insert_charge, request.
  destruct (faults w) as [|[] fs]; cbn [db faults uuids now tl];
    try (cbn; discriminate);
    match goal with |- context [existsb ?f ?l] => destruct (existsb f l) end;
    cbn; try discriminate; intros H; injection H as <-; repeat split; reflexivity.
Qed.

Lemma update_charge_ok (i : string) (p : PartialCharge.t) (t : Z) (w : World)
    (ch : ChargeFix.t) :
  fst (update_charge_returning i p t w) = ok ch ->
  exists (ch0 : ChargeFix.t) (l1 l2 : list ChargeFix.t),
    charges_fixes (db w) = l1 ++ ch0 :: l2
    /\ ch = patch_charge p t ch0
    /\ db (snd (update_charge_returning i p t w)) = set_charges (db w) (l1 ++ ch :: l2).
Proof.
  unfold update_charge_returning, request, on_store.
  destruct (faults w) as [|[] fs]; cbn [db faults uuids now tl];
    try (cbn; discriminate);
    (destruct (filter (charge_has_id i) (charges_fixes (db w))) as [|ch0 [|ch1 rest]] eqn:Hrow;
     cbn; try discriminate; intros H; injection H as <-;
     destruct (single_split _ _ _ Hrow) as (l1 & l2 & Hl & H1 & H2 & Hx);
     exists ch0, l1, l2; split; [exact Hl|]; split; [reflexivity|];
     rewrite (map_single _ (patch_charge p t) _ l1 l2 ch0 Hl H1 H2 Hx); reflexivity).
Qed.

Lemma deleteCharge_ok (i : string) (w : World) (ch : ChargeFix.t) :
  fst (deleteCharge i w) = ok ch ->
  exists l1 l2 : list ChargeFix.t,
    charges_fixes (db w) = l1 ++ ch :: l2
    /\ db (snd (deleteCharge i w)) = set_charges (db w) (l1 ++ l2).
Proof.
  unfold deleteCharge, bind, request, on_store.
  destruct (faults w) as [|[] fs]; cbn [db faults uuids now tl];
    try (cbn; discriminate);
    (destruct (filter (charge_has_id i) (charges_fixes (db w))) as [|ch0 [|ch1 rest]] eqn:Hrow;
     cbn; try discriminate; intros H; injection H as <-;
     destruct (single_split _ _ _ Hrow) as (l1 & l2 & Hl & H1 & H2 & Hx);
     exists l1, l2; split; [exact Hl|];
     rewrite (remove_single _ _ l1 l2 ch0 Hl H1 H2 Hx); reflexivity).
Qed.

Lemma total_actives_split (u : string) (s : Store) (l1 l2 : list ChargeFix.t)
    (ch : ChargeFix.t) :
  total_actives u (set_charges s (l1 ++ ch :: l2))
  == total_actives u (set_charges s (l1 ++ l2)) + poids (active_de u) ChargeFix.montant ch.
Proof.
  unfold total_actives, charges_actives. cbn [charges_fixes set_charges].
  apply (somme_filter_split (active_de u) ChargeFix.montant l1 l2 ch).
Qed.

Lemma total_actives_snoc (u : string) (s : Store) (ch : ChargeFix.t) :
  total_actives u (set_charges s (charges_fixes s ++ [ch]))
  == total_actives u s + poids (active_de u) ChargeFix.montant ch.
Proof.
  rewrite (total_actives_split u s (charges_fixes s) [] ch), app_nil_r.
  reflexivity.
Qed.

(** X8. A successful [createCharge] stores one more charge, owned by
    the caller, and touches no cycle: the total stored on the user's
    cycles stays as it was, while the live total of the user's active
    charges grows by the amount when the charge is active, and not at all
    when it is inactive. *)
Theorem createCharge_raises_live_total :
  forall (w : World) (userId : string) (form : ChargeFormData.t) (ch : ChargeFix.t),
    fst (createCharge userId form w) = ok ch ->
    cycles_mensuels (db (snd (createCharge userId form w))) = cycles_mensuels (db w)
    /\ charges_fixes (db (snd (createCharge userId form w))) = charges_fixes (db w) ++ [ch]
    /\ ChargeFix.user_id ch = userId
    /\ total_actives userId (db (snd (createCharge userId form w)))
       == total_actives userId (db w)
          + (if ChargeFormData.actif form then ChargeFormData.montant form else 0).
Proof.
  intros w userId form ch H.
  destruct (createCharge_ok userId form w ch H) as (Hu & Hm & Ha & ->).
  repeat split; try assumption.
  rewrite total_actives_snoc. unfold poids, active_de.
  rewrite Hu, Hm, Ha, String.eqb_refl. reflexivity.
Qed.

Lemma createCharge_raises_live_total_witness :
  total_actives "u1" (db (snd (createCharge "u1" abonnement (sample_world []))))
  == total_actives "u1" sample_store + 25.
Proof.
  apply (createCharge_raises_live_total (sample_world []) "u1" abonnement
           (ChargeFix.mk "id-1" "u1" "Abonnement" 25 "k2" 12 true
              1736000000000%Z 1736000000000%Z)).
  reflexivity.
Defined.

(** X9. A successful [toggleChargeActive] changes the flag of that one
    charge and nothing else; for the owner of the charge the live total
    moves by its amount: down when an active charge is switched off, up
    when an inactive one is switched on, not at all when the flag is
    already the one asked for.  No cycle is touched. *)
Theorem toggleChargeActive_moves_live_total :
  forall (w : World) (chargeId : string) (flag : bool) (ch : ChargeFix.t),
    fst (toggleChargeActive chargeId flag w) = ok ch ->
    cycles_mensuels (db (snd (toggleChargeActive chargeId flag w))) = cycles_mensuels (db w)
    /\ ChargeFix.actif ch = flag
    /\ exists ch0 : ChargeFix.t,
         In ch0 (charges_fixes (db w))
         /\ ChargeFix.id ch0 = ChargeFix.id ch
         /\ ChargeFix.user_id ch0 = ChargeFix.user_id ch
         /\ ChargeFix.montant ch0 = ChargeFix.montant ch
         /\ total_actives (ChargeFix.user_id ch) (db (snd (toggleChargeActive chargeId flag w)))
            == total_actives (ChargeFix.user_id ch) (db w)
               - (if ChargeFix.actif ch0 then ChargeFix.montant ch else 0)
               + (if flag then ChargeFix.montant ch else 0).
Proof.
  intros w chargeId flag ch H.
  assert (Hr : fst (update_charge_returning chargeId
                      (PartialCharge.mk None None None None (Some flag)) (now w) w) = ok ch
               /\ snd (toggleChargeActive chargeId flag w)
                  = snd (update_charge_returning chargeId
                           (PartialCharge.mk None None None None (Some flag)) (now w) w)).
  { revert H. unfold toggleChargeActive, bind, clock.
    destruct (update_charge_returning _ _ _ w) as [r w1]. cbn [fst snd ret].
    unfold settle. destruct (error r) eqn:E; [discriminate|].
    intros H. injection H as H. split; [apply response_eta; assumption | reflexivity]. }
  destruct Hr as (Hr & ->).
  destruct (update_charge_ok _ _ _ _ _ Hr) as (ch0 & l1 & l2 & Hl & Hch & ->).
  split; [reflexivity|]. split; [subst ch; reflexivity|].
  exists ch0. split; [rewrite Hl; apply in_or_app; right; left; reflexivity|].
  split; [subst ch; reflexivity|]. split; [subst ch; reflexivity|].
  split; [subst ch; reflexivity|].
  rewrite total_actives_split.
  assert (E0 : total_actives (ChargeFix.user_id ch) (db w)
               == total_actives (ChargeFix.user_id ch) (set_charges (db w) (l1 ++ l2))
                  + poids (active_de (ChargeFix.user_id ch)) ChargeFix.montant ch0).
  { rewrite <- total_actives_split, <- Hl. reflexivity. }
  rewrite E0. unfold poids, active_de. subst ch. cbn.
  rewrite String.eqb_refl. cbn. destruct (ChargeFix.actif ch0), flag; ring.
Qed.

Lemma toggleChargeActive_moves_live_total_witness :
  total_actives "u1" (db (snd (toggleChargeActive "f2" false (sample_world []))))
  == total_actives "u1" sample_store - 300.
Proof.
  destruct (toggleChargeActive_moves_live_total (sample_world []) "f2" false
              (ChargeFix.mk "f2" "u1" "Assurance" 300 "k2" 5 false 0%Z 1736000000000%Z))
    as (_ & _ & ch0 & Hin & Hid & _ & _ & Ht); [reflexivity|].
  cbn [ChargeFix.user_id ChargeFix.montant] in Ht. rewrite Ht.
  destruct Hin as [<- | [<- | [<- | [<- | []]]]]; try discriminate.
  cbn. ring.
Defined.

Lemma settled_ok {A} (r : Response A) (x : A) : settle r = ok x -> r = ok x.
Proof.
  unfold settle. destruct (error r) eqn:E; [discriminate|].
  intros H. injection H as H. apply response_eta; assumption.
Qed.

(** X10. A successful [updateCharge] rewrites that one charge, keeps
    its identifier and owner, and touches no cycle; for every user the
    live total of active charges moves by what the charge weighed for
    that user before and after the update. *)
Theorem updateCharge_moves_live_total :
  forall (w : World) (chargeId : string) (updates : PartialCharge.t) (ch : ChargeFix.t),
    fst (updateCharge chargeId updates w) = ok ch ->
    cycles_mensuels (db (snd (updateCharge chargeId updates w))) = cycles_mensuels (db w)
    /\ exists ch0 : ChargeFix.t,
         In ch0 (charges_fixes (db w))
         /\ ChargeFix.id ch = ChargeFix.id ch0
         /\ ChargeFix.user_id ch = ChargeFix.user_id ch0
         /\ ChargeFix.montant ch = opt (PartialCharge.montant updates) (ChargeFix.montant ch0)
         /\ ChargeFix.actif ch = opt (PartialCharge.actif updates) (ChargeFix.actif ch0)
         /\ forall u : string,
              total_actives u (db (snd (updateCharge chargeId updates w)))
              == total_actives u (db w)
                 - poids (active_de u) ChargeFix.montant ch0
                 + poids (active_de u) ChargeFix.montant ch.
Proof.
  intros w chargeId updates ch H.
  assert (Hr : fst (update_charge_returning chargeId updates (now w) w) = ok ch
               /\ snd (updateCharge chargeId updates w)
                  = snd (update_charge_returning chargeId updates (now w) w)).
  { revert H. unfold updateCharge, bind, clock.
    destruct (update_charge_returning _ _ _ w) as [r w1]. cbn [fst snd ret].
    intros H. split; [apply settled_ok; exact H | reflexivity]. }
  destruct Hr as (Hr & ->).
  destruct (update_charge_ok _ _ _ _ _ Hr) as (ch0 & l1 & l2 & Hl & Hch & ->).
  split; [reflexivity|].
  exists ch0. split; [rewrite Hl; apply in_or_app; right; left; reflexivity|].
  repeat split; try (subst ch; reflexivity).
  intros u. rewrite total_actives_split.
  assert (E0 : total_actives u (db w)
               == total_actives u (set_charges (db w) (l1 ++ l2))
                  + poids (active_de u) ChargeFix.montant ch0).
  { rewrite <- total_actives_split, <- Hl. reflexivity. }
  rewrite E0. ring.
Qed.

Lemma updateCharge_moves_live_total_witness :
  total_actives "u1" (db (snd (updateCharge "f2" montant_350 (sample_world []))))
  == total_actives "u1" sample_store - 300 + 350.
Proof.
  destruct (updateCharge_moves_live_total (sample_world []) "f2" montant_350
              (ChargeFix.mk "f2" "u1" "Assurance" 350 "k2" 5 true 0%Z 1736000000000%Z))
    as (_ & ch0 & Hin & Hid & _ & _ & _ & Ht); [reflexivity|].
  rewrite (Ht "u1").
  destruct Hin as [<- | [<- | [<- | [<- | []]]]]; try discriminate.
  cbn. ring.
Defined.

(** X11. A successful [deleteCharge] removes that one charge and
    touches no cycle; for every user the live total of active charges
    drops by what the charge weighed for that user. *)
Theorem deleteCharge_lowers_live_total :
  forall (w : World) (chargeId : string) (ch : ChargeFix.t),
    fst (deleteCharge chargeId w) = ok ch ->
    cycles_mensuels (db (snd (deleteCharge chargeId w))) = cycles_mensuels (db w)
    /\ In ch (charges_fixes (db w))
    /\ Permutation (charges_fixes (db w))
         (ch :: charges_fixes (db (snd (deleteCharge chargeId w))))
    /\ forall u : string,
         total_actives u (db (snd (deleteCharge chargeId w)))
         == total_actives u (db w) - poids (active_de u) ChargeFix.montant ch.
Proof.
  intros w chargeId ch H.
  destruct (deleteCharge_ok _ _ _ H) as (l1 & l2 & Hl & ->).
  split; [reflexivity|].
  split; [rewrite Hl; apply in_or_app; right; left; reflexivity|].
  split; [cbn [db charges_fixes set_charges]; rewrite Hl;
          symmetry; apply Permutation_middle|].
  intros u.
  assert (E0 : total_actives u (db w)
               == total_actives u (set_charges (db w) (l1 ++ l2))
                  + poids (active_de u) ChargeFix.montant ch).
  { rewrite <- total_actives_split, <- Hl. reflexivity. }
  rewrite E0. ring.
Qed.

Lemma deleteCharge_lowers_live_total_witness :
  total_actives "u1" (db (snd (deleteCharge "f1" (sample_world []))))
  == total_actives "u1" sample_store - 500.
Proof.
  destruct (deleteCharge_lowers_live_total (sample_world []) "f1"
              (ChargeFix.mk "f1" "u1" "Loyer" 500 "k1" 1 true 0%Z 0%Z))
    as (_ & _ & _ & Ht); [reflexivity|].
  rewrite (Ht "u1"). reflexivity.
Defined.

(** ** Depenses service, beyond the refresh *)

Lemma getTotalDepenses_shape (cycleId : string) (w : World) :
  db (snd (getTotalDepenses cycleId w)) = db w
  /\ (data (fst (getTotalDepenses cycleId w)) = None
      \/ exists rows : list Depense.t,
           data (fst (getTotalDepenses cycleId w)) = Some (sum_montants (Some rows))).
Proof.
  unfold getTotalDepenses, bind, select_depenses_of_cycle, request, on_store.
  destruct (faults w) as [|[] fs]; cbn; split; try reflexivity;
    try (left; reflexivity); right; eexists; reflexivity.
Qed.

(** Whatever happens, the refresh either leaves the tables as they are
    or writes one totals payload on the rows of that identifier. *)
Lemma refresh_effect (w : World) (cycleId : string) :
  db (snd (updateCycleTotalDepenses cycleId w)) = db w
  \/ exists (c : CycleMensuel.t) (rows : list Depense.t) (t : Z),
       db (snd (updateCycleTotalDepenses cycleId w))
       = set_cycles (db w)
           (updated_cycles cycleId (totaux_de c rows t) (cycles_mensuels (db w))).
Proof.
  unfold updateCycleTotalDepenses, bind.
  destruct (getTotalDepenses_shape cycleId w) as (H1 & Hshape).
  destruct (getTotalDepenses cycleId w) as [tot w1]. cbn [fst snd] in H1, Hshape.
  destruct Hshape as [-> | (rows & ->)]; [left; exact H1|].
  pose proof (select_cycle_db cycleId w1) as H2.
  destruct (select_cycle cycleId w1) as [cur w2]. cbn [snd] in H2.
  destruct (data cur) as [c|]; [|left; cbn; congruence].
  unfold clock.
  match goal with |- context [update_cycles cycleId ?p w2] =>
    pose proof (update_cycles_effect cycleId p w2) as H3;
    destruct (update_cycles cycleId p w2) as [r w3]
  end.
  cbn [snd ret] in *.
  destruct H3 as [H3 | H3]; [left; congruence|].
  right. exists c, rows, (now w2). rewrite H3, H2, H1. reflexivity.
Qed.

(** The writes of an expense change the expenses table only, and
    nothing when they fail. *)
Lemma insert_depense_effect (row : Depense.t) (w : World) :
  (error (fst (insert_depense row w)) <> None /\ db (snd (insert_depense row w)) = db w)
  \/ exists d : Depense.t,
       fst (insert_depense row w) = ok d
       /\ filter (depense_has_id (Depense.id d)) (depenses (db w)) = []
       /\ db (snd (insert_depense row w))
          = set_depenses (db w) (depenses (db w) ++ [d]).
Proof.
  unfold insert_depense, request.
  destruct (faults w) as [|[] fs]; cbn [db faults uuids now tl];
    try (left; split; [cbn; discriminate | reflexivity]);
    match goal with |- context [existsb ?f ?l] => destruct (existsb f l) eqn:E end;
    try (left; split; [cbn; discriminate | reflexivity]);
    right; eexists; split; try reflexivity; split; try reflexivity;
    cbn [Depense.id] in E |- *;
    match goal with |- filter ?f ?l = [] =>
      destruct (filter f l) as [|x rest] eqn:F; [reflexivity|];
      assert (Hx : In x (filter f l)) by (rewrite F; left; reflexivity);
      apply filter_In in Hx; destruct Hx as (Hin & Hid);
      assert (Hex : existsb f l = true) by (apply existsb_exists; exists x; split; assumption);
      congruence
    end.
Qed.

Lemma update_depense_effect (i : string) (p : PartialDepense.t) (t : Z) (w : World) :
  (error (fst (update_depense_returning i p t w)) <> None
   /\ db (snd (update_depense_returning i p t w)) = db w)
  \/ exists (d0 : Depense.t) (l1 l2 : list Depense.t),
       fst (update_depense_returning i p t w) = ok (patch_depense p t d0)
       /\ depenses (db w) = l1 ++ d0 :: l2
       /\ filter (depense_has_id i) (depenses (db w)) = [d0]
       /\ db (snd (update_depense_returning i p t w))
          = set_depenses (db w) (l1 ++ patch_depense p t d0 :: l2).
Proof.
  unfold update_depense_returning, request, on_store.
  destruct (faults w) as [|[] fs]; cbn [db faults uuids now tl];
    try (left; split; [cbn; discriminate | reflexivity]);
    (destruct (filter (depense_has_id i) (depenses (db w))) as [|d0 [|d1 rest]] eqn:Hrow;
     cbn [map]; try (left; split; [cbn; discriminate | reflexivity]);
     right; destruct (single_split _ _ _ Hrow) as (l1 & l2 & Hl & H1 & H2 & Hx);
     exists d0, l1, l2; split; [reflexivity|]; split; [exact Hl|]; split; [reflexivity|];
     cbn [snd db];
     rewrite (map_single _ (patch_depense p t) _ l1 l2 d0 Hl H1 H2 Hx); reflexivity).
Qed.

Lemma delete_depense_effect (i : string) (w : World) :
  (error (fst (delete_depense_returning i w)) <> None
   /\ db (snd (delete_depense_returning i w)) = db w)
  \/ exists (d : Depense.t) (l1 l2 : list Depense.t),
       fst (delete_depense_returning i w) = ok d
       /\ depenses (db w) = l1 ++ d :: l2
       /\ filter (depense_has_id i) (depenses (db w)) = [d]
       /\ db (snd (delete_depense_returning i w)) = set_depenses (db w) (l1 ++ l2).
Proof.
  unfold delete_depense_returning, request, on_store.
  destruct (faults w) as [|[] fs]; cbn [db faults uuids now tl];
    try (left; split; [cbn; discriminate | reflexivity]);
    (destruct (filter (depense_has_id i) (depenses (db w))) as [|d0 [|d1 rest]] eqn:Hrow;
     try (left; split; [cbn; discriminate | reflexivity]);
     right; destruct (single_split _ _ _ Hrow) as (l1 & l2 & Hl & H1 & H2 & Hx);
     exists d0, l1, l2; split; [reflexivity|]; split; [exact Hl|]; split; [reflexivity|];
     cbn [snd db];
     rewrite (remove_single _ _ l1 l2 d0 Hl H1 H2 Hx); reflexivity).
Qed.

Lemma primary_write_effect (m : Mutation) (w : World) :
  (error (fst (primary_write m w)) <> None /\ db (snd (primary_write m w)) = db w)
  \/ exists (d : Depense.t) (l' : list Depense.t),
       fst (primary_write m w) = ok d
       /\ ecrit (db w) m d l'
       /\ db (snd (primary_write m w)) = set_depenses (db w) l'.
Proof.
  destruct m as [userId cycleId form | depenseId updates | depenseId]; cbn [primary_write].
  - destruct (insert_depense_effect (newDepense userId cycleId form) w)
      as [H | (d & Hd & Hfresh & Hdb)]; [left; exact H|].
    right. exists d, (depenses (db w) ++ [d]). split; [exact Hd|]. split; [|exact Hdb].
    destruct (insert_depense_ok _ _ _ Hd) as (Hc & _).
    constructor; [exact Hc | | exact Hfresh].
    revert Hd. unfold insert_depense, request.
    destruct (faults w) as [|[] fs]; cbn [db faults uuids now tl];
      try (cbn; discriminate);
      match goal with |- context [existsb ?f ?l] => destruct (existsb f l) end;
      cbn; try discriminate; intros H; injection H as <-; reflexivity.
  - unfold bind, clock.
    destruct (update_depense_effect depenseId updates (now w) w)
      as [H | (d0 & l1 & l2 & Hd & Hl & Hrow & Hdb)]; [left; exact H|].
    right. exists (patch_depense updates (now w) d0), (l1 ++ patch_depense updates (now w) d0 :: l2).
    split; [exact Hd|]. split; [|exact Hdb].
    constructor; assumption.
  - unfold bind.
    destruct (select_depense_cycle_id_run depenseId w) as (Hw0 & _).
    destruct (select_depense_cycle_id depenseId w) as [pre w0]. cbn [snd] in Hw0. subst w0.
    destruct (delete_depense_effect depenseId
                (mkWorld (db w) (tl (faults w)) (uuids w) (now w)))
      as [H | (d & l1 & l2 & Hd & Hl & Hrow & Hdb)]; [left; exact H|].
    right. exists d, (l1 ++ l2). split; [exact Hd|]. split; [|exact Hdb].
    constructor; assumption.
Qed.

(** A mutation whose write fails stops there. *)
Lemma run_write_fails (m : Mutation) (w : World) (e : PostgrestError) :
  error (fst (primary_write m w)) = Some e ->
  run m w = (mkResponse None (Some e), snd (primary_write m w)).
Proof.
  destruct m as [userId cycleId form | depenseId updates | depenseId];
    cbn [run primary_write].
  - unfold createDepense, bind.
    destruct (insert_depense _ w) as [r w1]. cbn [fst snd]. intros ->. reflexivity.
  - unfold updateDepense, bind, clock.
    destruct (update_depense_returning _ _ _ w) as [r w1]. cbn [fst snd]. intros ->. reflexivity.
  - unfold deleteDepense, bind.
    destruct (select_depense_cycle_id depenseId w) as [pre w0].
    destruct (delete_depense_returning depenseId w0) as [r w1]. cbn [fst snd]. intros ->.
    reflexivity.
Qed.

(** After the write, only the refresh of the cycle of the expense may run. *)
Lemma run_after_write_cycle (m : Mutation) (w : World) (d : Depense.t) :
  fst (primary_write m w) = ok d ->
  snd (run m w) = snd (primary_write m w)
  \/ snd (run m w)
     = snd (updateCycleTotalDepenses (Depense.cycle_id d) (snd (primary_write m w))).
Proof.
  intros Hpw.
  destruct m as [userId cycleId form | depenseId updates | depenseId];
    cbn [run primary_write] in *.
  - destruct (insert_depense_ok _ _ _ Hpw) as (Hcid & _). cbn in Hcid.
    unfold createDepense, bind.
    destruct (insert_depense _ w) as [r w1]. cbn [fst snd] in *. subst r. cbn.
    rewrite Hcid. right. destruct (updateCycleTotalDepenses cycleId w1). reflexivity.
  - unfold updateDepense, bind, clock in *.
    destruct (update_depense_returning _ _ _ w) as [r w1]. cbn [fst snd] in *. subst r. cbn.
    destruct (PartialDepense.montant updates); [|left; reflexivity].
    right. destruct (updateCycleTotalDepenses (Depense.cycle_id d) w1). reflexivity.
  - unfold deleteDepense, bind in *.
    assert (Hpre : data (fst (select_depense_cycle_id depenseId w)) = None
                   \/ fst (select_depense_cycle_id depenseId w)
                      = single (map Depense.cycle_id
                                  (filter (depense_has_id depenseId) (depenses (db w))))).
    { unfold select_depense_cycle_id, request, on_store.
      destruct (faults w) as [|[] fs]; cbn; auto. }
    destruct (select_depense_cycle_id_run depenseId w) as (Hw0 & _).
    destruct (select_depense_cycle_id depenseId w) as [pre w0]. cbn [fst snd] in *.
    subst w0.
    destruct (delete_depense_ok _ _ _ Hpw) as (Hrow & _). cbn [db] in Hrow.
    destruct (delete_depense_returning depenseId _) as [r w1]. cbn [fst snd] in *. subst r. cbn.
    destruct Hpre as [-> | ->]; [left; reflexivity|].
    rewrite Hrow. cbn [map single ok data]. right.
    destruct (updateCycleTotalDepenses (Depense.cycle_id d) w1). reflexivity.
Qed.

(** X12. When the write of the expense fails (the request does not
    reach the store, the identifier is taken, or no row has the identifier),
    the mutation answers with that error and no data, leaves every table
    as it was and starts no refresh. *)
Theorem expense_write_failure_changes_nothing :
  forall (w : World) (m : Mutation) (e : PostgrestError),
    error (fst (primary_write m w)) = Some e ->
    fst (run m w) = failure e
    /\ db (snd (run m w)) = db w
    /\ faults (snd (run m w)) = faults (snd (primary_write m w)).
Proof.
  intros w m e He. rewrite (run_write_fails m w e He). cbn [fst snd].
  split; [reflexivity|]. split; [|reflexivity].
  destruct (primary_write_effect m w) as [(_ & Hdb) | (d & l' & Hd & _)]; [exact Hdb|].
  rewrite Hd in He. discriminate.
Qed.

Lemma expense_write_failure_changes_nothing_witness :
  fst (run (Modifier "d9" montant_80) (world_tenu [])) = failure not_single
  /\ db (snd (run (Modifier "d9" montant_80) (world_tenu []))) = db (world_tenu []).
Proof.
  destruct (expense_write_failure_changes_nothing (world_tenu []) (Modifier "d9" montant_80)
              not_single) as (Hr & Hdb & _); [reflexivity|].
  split; [exact Hr | exact Hdb].
Defined.

Lemma Forall2_weaken {A} (R R' : A -> A -> Prop) (l l' : list A) :
  (forall x y, R x y -> R' x y) -> Forall2 R l l' -> Forall2 R' l l'.
Proof. intros H F. induction F; constructor; auto. Qed.

(** The rows of [cycles_mensuels] after a mutation, against the rows
    before. *)
Lemma run_cycles (m : Mutation) (w : World) :
  charges_fixes (db (snd (run m w))) = charges_fixes (db w)
  /\ categories (db (snd (run m w))) = categories (db w)
  /\ forall cycleId : string,
       (forall d, fst (primary_write m w) = ok d -> Depense.cycle_id d = cycleId) ->
       Forall2 (fun c c' => hors_totaux c' = hors_totaux c
                            /\ (CycleMensuel.id c <> cycleId -> c' = c))
         (cycles_mensuels (db w)) (cycles_mensuels (db (snd (run m w)))).
Proof.
  assert (Hsame : forall cycleId s,
             cycles_mensuels s = cycles_mensuels (db w) ->
             Forall2 (fun c c' => hors_totaux c' = hors_totaux c
                                  /\ (CycleMensuel.id c <> cycleId -> c' = c))
               (cycles_mensuels (db w)) (cycles_mensuels s)).
  { intros cycleId s ->. apply Forall2_same. intros x. split; reflexivity. }
  destruct (primary_write_effect m w) as [(He & Hdb) | (d & l' & Hd & _ & Hdb)].
  - destruct (error (fst (primary_write m w))) as [e|] eqn:E; [|contradiction].
    rewrite (run_write_fails m w e E). cbn [snd]. rewrite Hdb.
    repeat split. intros cycleId _. apply Hsame. reflexivity.
  - destruct (run_after_write_cycle m w d Hd) as [-> | ->].
    + rewrite Hdb. repeat split. intros cycleId _. apply Hsame. reflexivity.
    + destruct (refresh_effect (snd (primary_write m w)) (Depense.cycle_id d))
        as [-> | (c & rows & t & ->)]; rewrite Hdb.
      * repeat split. intros cycleId _. apply Hsame. reflexivity.
      * cbn [set_cycles set_depenses charges_fixes categories cycles_mensuels].
        repeat split. intros cycleId Hcid. rewrite <- (Hcid d Hd).
        apply updated_cycles_Forall2.
        -- intros x. split; reflexivity.
        -- intros x Hid. split; [reflexivity|].
           intros Hne. apply cycle_has_id_eq in Hid. contradiction.
Qed.

(** X13. Whatever the outcome, a creation, an update or a deletion of
    an expense leaves the charges and the categories as they are, keeps
    every cycle row in place and changes on a cycle nothing but
    [total_depenses], [reste] and [updated_at]: income, charges total and
    status stay, so a closed cycle stays closed while its totals follow
    its expenses.  When the mutation answers with an expense, the cycles
    other than the cycle of that expense are untouched. *)
Theorem expense_mutation_touches_totals_only :
  forall (w : World) (m : Mutation),
    charges_fixes (db (snd (run m w))) = charges_fixes (db w)
    /\ categories (db (snd (run m w))) = categories (db w)
    /\ Forall2 (fun c c' => hors_totaux c' = hors_totaux c)
         (cycles_mensuels (db w)) (cycles_mensuels (db (snd (run m w))))
    /\ (forall d : Depense.t,
          fst (run m w) = ok d ->
          Forall2 (fun c c' => CycleMensuel.id c <> Depense.cycle_id d -> c' = c)
            (cycles_mensuels (db w)) (cycles_mensuels (db (snd (run m w))))).
Proof.
  intros w m. destruct (run_cycles m w) as (Hch & Hcat & Hcy).
  split; [exact Hch|]. split; [exact Hcat|]. split.
  - destruct (fst (primary_write m w)) as [[d|] er] eqn:E.
    + eapply Forall2_weaken; [|apply (Hcy (Depense.cycle_id d))].
      * intros x y H. exact (proj1 H).
      * intros d' Hd'. unfold ok in Hd'. injection Hd' as -> _. reflexivity.
    + eapply Forall2_weaken; [|apply (Hcy "")].
      * intros x y H. exact (proj1 H).
      * intros d' Hd'. discriminate.
  - intros d Hr. pose proof (run_write_answer m w d Hr) as Hpw.
    eapply Forall2_weaken; [|apply (Hcy (Depense.cycle_id d))].
    + intros x y H. exact (proj2 H).
    + intros d' Hd'. rewrite Hpw in Hd'. injection Hd' as ->. reflexivity.
Qed.

Lemma run_depenses (m : Mutation) (w : World) (d : Depense.t) :
  fst (primary_write m w) = ok d ->
  depenses (db (snd (run m w))) = depenses (db (snd (primary_write m w))).
Proof.
  intros Hpw. destruct (run_after_write_cycle m w d Hpw) as [-> | ->]; [reflexivity|].
  destruct (refresh_effect (snd (primary_write m w)) (Depense.cycle_id d))
    as [-> | (c & rows & t & ->)]; reflexivity.
Qed.

(** X14. A creation, a deletion or an update giving [montant] that
    answers with the expense written, all requests reaching the store and
    the cycle of the expense stored: the expenses table is the table
    before with that one row appended, replaced in place or removed, and
    the cycle holds as [total_depenses] the sum the refresh forms from the
    rows of the cycle in that table, left to right from 0, and as [reste]
    its income less its charges total less that sum; the other columns
    but [updated_at] are as before. *)
Theorem expense_mutation_rewrites_cycle_rows :
  forall (w : World) (m : Mutation) (d : Depense.t) (c : CycleMensuel.t),
    calm (requests m) w ->
    cycles_ok (cycles_mensuels (db w)) = true ->
    triggers_refresh m = true ->
    fst (run m w) = ok d ->
    filter (cycle_has_id (Depense.cycle_id d)) (cycles_mensuels (db w)) = [c] ->
    ecrit (db w) m d (depenses (db (snd (run m w))))
    /\ exists c' : CycleMensuel.t,
         filter (cycle_has_id (Depense.cycle_id d)) (cycles_mensuels (db (snd (run m w))))
         = [c']
         /\ CycleMensuel.total_depenses c'
            = sum_montants
                (Some (filter (in_cycle (Depense.cycle_id d))
                         (depenses (db (snd (run m w))))))
         /\ CycleMensuel.reste c'
            = CycleMensuel.salaire_reel c - CycleMensuel.total_charges c
              - sum_montants
                  (Some (filter (in_cycle (Depense.cycle_id d))
                           (depenses (db (snd (run m w))))))
         /\ hors_totaux c' = hors_totaux c.
Proof.
  intros w m d c Hc Hok Ht Hr Hrow.
  pose proof (run_write_answer m w d Hr) as Hpw.
  destruct (primary_write_world m w d Hpw) as (Hcy & Hcalm).
  destruct (primary_write_effect m w) as [(He & _) | (d' & l' & Hd' & Hecrit & Hdb)];
    [rewrite Hpw in He; cbn in He; contradiction|].
  rewrite Hpw in Hd'. injection Hd' as <-.
  rewrite (run_depenses m w d Hpw), Hdb. cbn [depenses set_depenses].
  split; [exact Hecrit|].
  rewrite (run_refreshes m w d Hc Ht Hr).
  rewrite (refresh_runs (snd (primary_write m w)) (Depense.cycle_id d) c
             (Hcalm Hc)) by (rewrite Hcy; assumption).
  cbn [snd db cycles_mensuels set_cycles].
  rewrite filter_updated_cycles by reflexivity. rewrite Hcy, Hrow. cbn [map].
  eexists. split; [reflexivity|].
  rewrite Hdb. cbn [depenses set_depenses].
  repeat split; reflexivity.
Qed.

Lemma expense_mutation_rewrites_cycle_rows_witness :
  exists c' : CycleMensuel.t,
    cycles_mensuels (db (snd (run (Modifier "d1" montant_80) (world_tenu [])))) = [c']
    /\ CycleMensuel.total_depenses c' == 80
    /\ map Depense.montant (depenses (db (snd (run (Modifier "d1" montant_80) (world_tenu [])))))
       = [80].
Proof.
  destruct (expense_mutation_rewrites_cycle_rows (world_tenu []) (Modifier "d1" montant_80)
              (Depense.mk "d1" "u1" "c1" 80 "k3" 1736000000000%Z (Some "Courses") None
                 0%Z 1736100000000%Z)
              cycle_tenu)
    as (_ & c' & Hrow & Ht & _);
    [reflexivity | reflexivity | reflexivity | reflexivity | reflexivity |].
  exists c'. split; [|split].
  - rewrite <- Hrow. vm_compute. reflexivity.
  - rewrite Ht. vm_compute. reflexivity.
  - vm_compute. reflexivity.
Defined.


Lemma calm_two (w : World) :
  calm 2 w -> hd false (faults w) = false /\ hd false (tl (faults w)) = false.
Proof.
  unfold calm. destruct (faults w) as [|[] [|[] fs]]; simpl; intros H;
    try discriminate; split; reflexivity.
Qed.

(** The write of a deletion when the row is there and the two requests
    reach the store. *)
Lemma delete_write_runs (w : World) (i : string) (d : Depense.t) (l1 l2 : list Depense.t) :
  calm 2 w ->
  depenses (db w) = l1 ++ d :: l2 ->
  filter (depense_has_id i) l1 = [] ->
  filter (depense_has_id i) l2 = [] ->
  depense_has_id i d = true ->
  fst (primary_write (Supprimer i) w) = ok d
  /\ db (snd (primary_write (Supprimer i) w)) = set_depenses (db w) (l1 ++ l2).
Proof.
  intros Hc Hl H1 H2 Hd. destruct (calm_two w Hc) as (Hf1 & Hf2).
  cbn [primary_write]. unfold bind.
  destruct (select_depense_cycle_id_run i w) as (Hw0 & _).
  destruct (select_depense_cycle_id i w) as [pre w0]. cbn [snd] in Hw0. subst w0.
  unfold delete_depense_returning. rewrite request_reaches by exact Hf2.
  unfold on_store. cbn [db faults uuids now].
  assert (Hrow : filter (depense_has_id i) (depenses (db w)) = [d]).
  { rewrite Hl, filter_app. cbn [filter]. rewrite Hd, H1, H2. reflexivity. }
  rewrite Hrow, (remove_single _ _ l1 l2 d Hl H1 H2 Hd). split; reflexivity.
Qed.

(** X15. Deleting the expense a creation has just stored gives the
    expenses table back as it was before the creation, row for row; and
    when the requests of the deletion all reach the store, the totals of
    the cycle agree again with those expenses. *)
Theorem create_then_delete_restores_expenses :
  forall (w w2 : World) (userId cycleId : string) (form : DepenseFormData.t)
         (d : Depense.t),
    fst (createDepense userId cycleId form w) = ok d ->
    db w2 = db (snd (createDepense userId cycleId form w)) ->
    calm 2 w2 ->
    fst (deleteDepense (Depense.id d) w2) = ok d
    /\ depenses (db (snd (deleteDepense (Depense.id d) w2))) = depenses (db w)
    /\ (forall c : CycleMensuel.t,
          calm 5 w2 ->
          cycles_ok (cycles_mensuels (db w2)) = true ->
          filter (cycle_has_id cycleId) (cycles_mensuels (db w2)) = [c] ->
          exists c' : CycleMensuel.t,
            filter (cycle_has_id cycleId)
              (cycles_mensuels (db (snd (deleteDepense (Depense.id d) w2)))) = [c']
            /\ totals_fresh (db (snd (deleteDepense (Depense.id d) w2))) c').
Proof.
  intros w w2 userId cycleId form d Hcreate Hdb Hc2.
  pose proof (run_write_answer (Creer userId cycleId form) w d Hcreate) as Hpw.
  destruct (primary_write_effect (Creer userId cycleId form) w)
    as [(He & _) | (d' & l' & Hd' & Hecrit & Hdb1)];
    [rewrite Hpw in He; cbn in He; contradiction|].
  rewrite Hpw in Hd'. injection Hd' as <-.
  inversion Hecrit as [u0 c0 f0 d0 Hcid Hm Hfresh | |]; subst.
  assert (Hdeps : depenses (db w2) = depenses (db w) ++ [d] ++ []).
  { rewrite Hdb. change (createDepense userId (Depense.cycle_id d) form)
      with (run (Creer userId (Depense.cycle_id d) form)).
    rewrite (run_depenses _ w d Hpw), Hdb1. reflexivity. }
  assert (Hself : depense_has_id (Depense.id d) d = true)
    by (unfold depense_has_id; apply String.eqb_refl).
  destruct (delete_write_runs w2 (Depense.id d) d (depenses (db w)) [] Hc2 Hdeps Hfresh
              eq_refl Hself) as (Hdel & Hdb2).
  change (deleteDepense (Depense.id d)) with (run (Supprimer (Depense.id d))).
  destruct (run_after_write (Supprimer (Depense.id d)) w2 d Hdel) as (Hr & _).
  split; [exact Hr|].
  split; [rewrite (run_depenses _ w2 d Hdel), Hdb2, app_nil_r; reflexivity|].
  intros c Hc5 Hok Hrow.
  destruct (primary_write_world (Supprimer (Depense.id d)) w2 d Hdel) as (Hcy & Hcalm).
  rewrite (run_refreshes (Supprimer (Depense.id d)) w2 d Hc5 eq_refl Hr).
  apply (refresh_makes_fresh _ _ c); [apply Hcalm; exact Hc5 | | ]; rewrite Hcy; assumption.
Qed.

Lemma create_then_delete_restores_expenses_witness :
  depenses (db (snd (deleteDepense "id-9"
                       (snd (createDepense "u1" "c1" courses (world_tenu []))))))
  = [tenue].
Proof.
  destruct (create_then_delete_restores_expenses (world_tenu [])
              (snd (createDepense "u1" "c1" courses (world_tenu []))) "u1" "c1" courses
              (Depense.mk "id-9" "u1" "c1" 50 "k3" 1736000000000%Z (Some "Courses") None
                 1736100000000%Z 1736100000000%Z))
    as (_ & Hdeps & _); [reflexivity | reflexivity | reflexivity |].
  exact Hdeps.
Defined.

(** X16. The refresh is idempotent: run a second time on the tables
    the first one left, it writes the same [total_depenses] and [reste]
    again. *)
Theorem refresh_twice_same_totals :
  forall (w w2 : World) (cycleId : string) (c : CycleMensuel.t),
    calm 3 w ->
    cycles_ok (cycles_mensuels (db w)) = true ->
    filter (cycle_has_id cycleId) (cycles_mensuels (db w)) = [c] ->
    db w2 = db (snd (updateCycleTotalDepenses cycleId w)) ->
    calm 3 w2 ->
    exists c1 c2 : CycleMensuel.t,
      filter (cycle_has_id cycleId) (cycles_mensuels (db w2)) = [c1]
      /\ filter (cycle_has_id cycleId)
           (cycles_mensuels (db (snd (updateCycleTotalDepenses cycleId w2)))) = [c2]
      /\ CycleMensuel.total_depenses c2 = CycleMensuel.total_depenses c1
      /\ CycleMensuel.reste c2 = CycleMensuel.reste c1
      /\ hors_totaux c2 = hors_totaux c.
Proof.
  intros w w2 cycleId c Hc Hok Hrow Hdb Hc2.
  rewrite (refresh_runs w cycleId c Hc Hok Hrow) in Hdb. cbn [snd db] in Hdb.
  set (p := totaux_de c (filter (in_cycle cycleId) (depenses (db w))) (now w)) in *.
  assert (Hok2 : cycles_ok (cycles_mensuels (db w2)) = true).
  { rewrite Hdb. cbn [cycles_mensuels set_cycles].
    rewrite (cycles_ok_updated cycleId p _ (keeps_keys_totaux _ _ _)). exact Hok. }
  assert (Hrow2 : filter (cycle_has_id cycleId) (cycles_mensuels (db w2)) = [patch_cycle p c]).
  { rewrite Hdb. cbn [cycles_mensuels set_cycles].
    rewrite filter_updated_cycles by reflexivity. rewrite Hrow. reflexivity. }
  rewrite (refresh_runs w2 cycleId (patch_cycle p c) Hc2 Hok2 Hrow2).
  cbn [snd db cycles_mensuels set_cycles].
  rewrite filter_updated_cycles by reflexivity. rewrite Hrow2. cbn [map].
  exists (patch_cycle p c). eexists. split; [reflexivity|]. split; [reflexivity|].
  assert (Hdeps : depenses (db w2) = depenses (db w)) by (rewrite Hdb; reflexivity).
  rewrite Hdeps. cbn. repeat split; reflexivity.
Qed.

Lemma refresh_twice_same_totals_witness :
  exists c2 : CycleMensuel.t,
    cycles_mensuels
      (db (snd (updateCycleTotalDepenses "c1"
                  (snd (updateCycleTotalDepenses "c1" (sample_world []))))))
    = [c2]
    /\ CycleMensuel.total_depenses c2 = 0.
Proof.
  destruct (refresh_twice_same_totals (sample_world [])
              (snd (updateCycleTotalDepenses "c1" (sample_world []))) "c1" cycle_janvier)
    as (c1 & c2 & H1 & H2 & Ht & _);
    [reflexivity | reflexivity | reflexivity | reflexivity | reflexivity |].
  exists c2. split.
  - rewrite <- H2. vm_compute. reflexivity.
  - rewrite Ht. injection H1 as <-. reflexivity.
Defined.

(** ** The breakdown by category *)

Lemma incrementer_id (catId : string) (m : Q) (l : list DepenseParCategorie) :
  map categorie_id (map (incrementer catId m) l) = map categorie_id l.
Proof.
  induction l as [|g rest IH]; cbn [map]; [reflexivity|].
  rewrite IH. unfold incrementer. destruct (String.eqb (categorie_id g) catId); reflexivity.
Qed.

Lemma existsb_categorie (catId : string) (acc : list DepenseParCategorie) :
  existsb (fun g => String.eqb (categorie_id g) catId) acc = true
  <-> In catId (map categorie_id acc).
Proof.
  rewrite existsb_exists, in_map_iff. split.
  - intros (g & Hin & E). apply String.eqb_eq in E. exists g. split; assumption.
  - intros (g & E & Hin). exists g. split; [exact Hin|]. apply String.eqb_eq. exact E.
Qed.

Lemma filter_snoc (i : string) (ds : list Depense.t) (dep : Depense.t) :
  filter (de_categorie i) (ds ++ [dep])
  = filter (de_categorie i) ds ++ (if de_categorie i dep then [dep] else []).
Proof. rewrite filter_app. reflexivity. Qed.

Lemma absent_filter (i : string) (ds : list Depense.t) (acc : list DepenseParCategorie) :
  (forall d, In d ds -> In (Depense.categorie_id d) (map categorie_id acc)) ->
  ~ In i (map categorie_id acc) ->
  filter (de_categorie i) ds = [].
Proof.
  intros Hcov Hnot. destruct (filter (de_categorie i) ds) as [|d rest] eqn:F; [reflexivity|].
  assert (Hd : In d (filter (de_categorie i) ds)) by (rewrite F; left; reflexivity).
  apply filter_In in Hd. destruct Hd as (Hin & Hc).
  apply String.eqb_eq in Hc. exfalso. apply Hnot. rewrite <- Hc. apply Hcov. exact Hin.
Qed.

Lemma cumul_snoc (l : list Q) (m : Q) : cumul (l ++ [m]) = cumul l + m.
Proof. unfold cumul. rewrite fold_left_app. reflexivity. Qed.

(** One step of the reducer keeps the groups in step with the expenses. *)
Lemma grouper_step (ds : list Depense.t) (acc : list DepenseParCategorie)
    (dep : Depense.t) (categorie : option Categorie.t) :
  groupes_de ds acc -> groupes_de (ds ++ [dep]) (grouper acc (dep, categorie)).
Proof.
  intros (Hnd & Hg & Hcov).
  set (catId := Depense.categorie_id dep).
  set (m := Depense.montant dep).
  set (nouveau := mkParCategorie catId
                    (or_default (option_map Categorie.nom categorie) "Unknown")
                    (or_default (option_map Categorie.couleur categorie) "#64748B")
                    (or_default (option_map Categorie.icon categorie) "MoreHorizontal")
                    0 0 0%Z
                    (match categorie with Some k => Categorie.budget_max k | None => None end)
                    false).
  set (acc1 := if existsb (fun g => String.eqb (categorie_id g) catId) acc
               then acc else acc ++ [nouveau]).
  change (grouper acc (dep, categorie)) with (map (incrementer catId m) acc1).
  (* the groups before the increment *)
  assert (H1 : NoDup (map categorie_id acc1)
               /\ In catId (map categorie_id acc1)
               /\ (forall d, In d ds -> In (Depense.categorie_id d) (map categorie_id acc1))
               /\ forall g, In g acc1 ->
                    total g
                    = cumul (map Depense.montant (filter (de_categorie (categorie_id g)) ds))
                    /\ nombre_depenses g
                       = Z.of_nat (List.length (filter (de_categorie (categorie_id g)) ds))
                    /\ (categorie_id g <> catId -> (1 <= nombre_depenses g)%Z)).
  { subst acc1.
    destruct (existsb (fun g => String.eqb (categorie_id g) catId) acc) eqn:E.
    - apply existsb_categorie in E.
      split; [exact Hnd|]. split; [exact E|]. split; [exact Hcov|].
      intros g Hin. destruct (Hg g Hin) as (? & ? & ?). repeat split; auto.
    - assert (Hnot : ~ In catId (map categorie_id acc)).
      { intros Hin. apply existsb_categorie in Hin. congruence. }
      rewrite !map_app. cbn [map].
      split; [|split; [|split]].
      + apply NoDup_app; [exact Hnd | constructor; [intros [] | constructor] |].
        intros x Hx [<- | []]. contradiction.
      + apply in_or_app. right. left. reflexivity.
      + intros d Hd. apply in_or_app. left. apply Hcov. exact Hd.
      + intros g Hin. apply in_app_or in Hin. destruct Hin as [Hin | [<- | []]].
        * destruct (Hg g Hin) as (? & ? & ?). repeat split; auto.
        * unfold nouveau. cbn [categorie_id total nombre_depenses].
          rewrite (absent_filter catId ds acc Hcov Hnot). cbn [map List.length].
          split; [reflexivity|]. split; [reflexivity|]. intros Hne. contradiction. }
  destruct H1 as (Hnd1 & Hin1 & Hcov1 & Hg1).
  split; [rewrite incrementer_id; exact Hnd1|].
  split.
  - intros g' Hin'. apply in_map_iff in Hin'. destruct Hin' as (g & <- & Hin).
    destruct (Hg1 g Hin) as (Ht & Hn & Hpos).
    unfold incrementer. destruct (String.eqb (categorie_id g) catId) eqn:E.
    + apply String.eqb_eq in E. cbn [categorie_id total nombre_depenses].
      rewrite E in Ht, Hn |- *.
      rewrite filter_snoc. unfold de_categorie at 2 4. fold catId.
      rewrite String.eqb_refl, map_app, length_app. cbn [map List.length].
      rewrite cumul_snoc, Ht, Hn.
      split; [reflexivity|]. split; lia.
    + rewrite filter_snoc. unfold de_categorie at 2 4. fold catId.
      rewrite String.eqb_sym, E, app_nil_r.
      split; [exact Ht|]. split; [exact Hn|]. apply Hpos.
      intros Heq. rewrite Heq, String.eqb_refl in E. discriminate.
  - rewrite incrementer_id. intros d Hd. apply in_app_or in Hd.
    destruct Hd as [Hd | [<- | []]]; [apply Hcov1; exact Hd | exact Hin1].
Qed.

Lemma grouper_fold (rows : list DepenseJointe) (ds : list Depense.t)
    (acc : list DepenseParCategorie) :
  groupes_de ds acc -> groupes_de (ds ++ map fst rows) (fold_left grouper rows acc).
Proof.
  revert ds acc. induction rows as [|[dep categorie] rest IH]; intros ds acc H; cbn [fold_left map].
  - rewrite app_nil_r. exact H.
  - replace (ds ++ fst (dep, categorie) :: map fst rest)
      with ((ds ++ [dep]) ++ map fst rest) by (rewrite <- app_assoc; reflexivity).
    apply IH. apply grouper_step. exact H.
Qed.

Lemma groupes_de_nil : groupes_de [] [].
Proof.
  split; [constructor|]. split; [intros g []|]. intros d [].
Qed.

Lemma traverse_Forall2 {A B} (f : A -> Checked B) (l : list A) (ys : list B) :
  traverse f l = Some ys -> Forall2 (fun x y => f x = Some y) l ys.
Proof.
  revert ys. induction l as [|x rest IH]; cbn; intros ys H.
  - injection H as <-. constructor.
  - destruct (f x) as [y|] eqn:E; [|discriminate].
    destruct (traverse f rest) as [ys'|]; [|discriminate].
    injection H as <-. constructor; [exact E | apply IH; reflexivity].
Qed.

Lemma completer_fields (T : Q) (g y : DepenseParCategorie) :
  completer T g = Some y ->
  categorie_id y = categorie_id g
  /\ total y = total g
  /\ nombre_depenses y = nombre_depenses g
  /\ budget_max y = budget_max g
  /\ pourcentage y = (if Qgtb T 0 then total g / T * 100 else 0)
  /\ is_exceeded y = depasse y.
Proof.
  unfold completer, percent, js_div, depasse.
  destruct (Qgtb T 0); [destruct (Qeq_bool T 0); [discriminate|]|];
    intros H; injection H as <-; cbn; repeat split; reflexivity.
Qed.

Lemma completes_columns (T : Q) (l ys : list DepenseParCategorie) :
  Forall2 (fun g y => completer T g = Some y) l ys ->
  map categorie_id ys = map categorie_id l.
Proof.
  induction 1 as [|g y l0 ys0 Hc F IH]; cbn [map]; [reflexivity|].
  destruct (completer_fields T g y Hc) as (-> & _).
  rewrite IH. reflexivity.
Qed.

Lemma Forall2_in_right {A B} (R : A -> B -> Prop) (l : list A) (ys : list B) (y : B) :
  Forall2 R l ys -> In y ys -> exists x, In x l /\ R x y.
Proof.
  induction 1 as [|x y0 l0 ys0 Hr F IH]; intros Hin; [destruct Hin|].
  destruct Hin as [<- | Hin].
  - exists x. split; [left; reflexivity | exact Hr].
  - destruct (IH Hin) as (x' & Hx & Hr'). exists x'. split; [right; exact Hx | exact Hr'].
Qed.

Lemma groupes_de_completes (T : Q) (ds : list Depense.t) (l ys : list DepenseParCategorie) :
  Forall2 (fun g y => completer T g = Some y) l ys ->
  groupes_de ds l -> groupes_de ds ys.
Proof.
  intros F (Hnd & Hg & Hcov).
  pose proof (completes_columns T l ys F) as Hid.
  split; [rewrite Hid; exact Hnd|]. split.
  - intros y Hin. destruct (Forall2_in_right _ _ _ _ F Hin) as (g & Hgin & Hc).
    destruct (completer_fields T g y Hc) as (-> & -> & -> & _). apply Hg. exact Hgin.
  - rewrite Hid. exact Hcov.
Qed.

Lemma groupes_de_perm (ds : list Depense.t) (l l' : list DepenseParCategorie) :
  Permutation l l' -> groupes_de ds l -> groupes_de ds l'.
Proof.
  intros P (Hnd & Hg & Hcov).
  split; [apply (Permutation_NoDup (Permutation_map categorie_id P)); exact Hnd|].
  split.
  - intros g Hin. apply Hg. apply (Permutation_in _ (Permutation_sym P)). exact Hin.
  - intros d Hd. apply (Permutation_in _ (Permutation_map categorie_id P)). apply Hcov. exact Hd.
Qed.

(** [sort((a, b) => key(b) - key(a))] puts the largest key first. *)
Lemma insert_by_key_sorted {A} (key : A -> Q) (x : A) (l : list A) :
  StronglySorted (fun a b => key b <= key a) l ->
  StronglySorted (fun a b => key b <= key a) (insert_by (fun a b => key b - key a) x l).
Proof.
  induction l as [|y rest IH]; intros H; cbn.
  - constructor; constructor.
  - inversion H as [|? ? Hrest Hall]; subst.
    destruct (Qgtb (key y - key x) 0) eqn:E.
    + apply Qgtb_gt in E.
      constructor; [apply IH; exact Hrest|].
      apply (Permutation_Forall
               (Permutation_sym (insert_by_perm (fun a b => key b - key a) x rest))).
      constructor; [lra | exact Hall].
    + apply Qgtb_le in E.
      constructor; [exact H|].
      constructor; [lra|].
      apply (Forall_impl _ (P := fun b => key b <= key y)); [|exact Hall].
      intros b Hb. lra.
Qed.

Lemma js_sort_key_sorted {A} (key : A -> Q) (l : list A) :
  StronglySorted (fun a b => key b <= key a) (js_sort (fun a b => key b - key a) l).
Proof.
  induction l as [|x rest IH]; cbn.
  - constructor.
  - apply insert_by_key_sorted. exact IH.
Qed.

Lemma map_fst_jointes (s : Store) (ds : list Depense.t) :
  map fst
    (map (fun d =>
            (d, find (fun k => String.eqb (Categorie.id k) (Depense.categorie_id d))
                  (categories s))) ds)
  = ds.
Proof.
  rewrite map_map. cbn [fst]. apply map_id.
Qed.

Lemma cumul_rows {A} (f : A -> Q) (rows : list A) (a : Q) :
  fold_left (fun sum row => sum + f row) rows a = fold_left Qplus (map f rows) a.
Proof.
  revert a. induction rows as [|row rest IH]; intros a; cbn [fold_left map]; [reflexivity|].
  apply IH.
Qed.

Lemma fold_left_Qplus_somme (l : list Q) (a : Q) : fold_left Qplus l a == a + somme l.
Proof.
  revert a. induction l as [|x rest IH]; intros a; cbn [fold_left].
  - change (somme []) with 0. ring.
  - rewrite IH, somme_cons. ring.
Qed.

Lemma cumul_somme (l : list Q) : cumul l == somme l.
Proof. unfold cumul. rewrite fold_left_Qplus_somme. ring. Qed.

Lemma somme_filter_le {A} (p : A -> bool) (h : A -> Q) (l : list A) :
  (forall x, In x l -> 0 <= h x) ->
  0 <= somme (map h (filter p l)) <= somme (map h l).
Proof.
  induction l as [|x rest IH]; intros H; cbn [filter map].
  - change (somme []) with 0. split; lra.
  - assert (Hx : 0 <= h x) by (apply H; left; reflexivity).
    assert (Hr : 0 <= somme (map h (filter p rest)) <= somme (map h rest))
      by (apply IH; intros y Hy; apply H; right; exact Hy).
    destruct (p x); cbn [map]; rewrite ?somme_cons; split; lra.
Qed.

(** What [par_categorie] computes from the joined rows of a cycle;
    [cumul] of all the amounts is the [totalDepenses] of the code. *)
Lemma par_categorie_spec (rows : list DepenseJointe) :
  exists r : list DepenseParCategorie,
    par_categorie rows = Some r
    /\ groupes_de (map fst rows) r
    /\ decroissant_total r
    /\ (forall g, In g r -> is_exceeded g = depasse g)
    /\ (0 < cumul (map Depense.montant (map fst rows)) ->
        forall g, In g r ->
          pourcentage g = total g / cumul (map Depense.montant (map fst rows)) * 100)
    /\ (cumul (map Depense.montant (map fst rows)) <= 0 ->
        forall g, In g r -> pourcentage g = 0).
Proof.
  unfold par_categorie.
  assert (HT : fold_left (fun sum row => sum + Depense.montant (fst row)) rows 0
               = cumul (map Depense.montant (map fst rows))).
  { unfold cumul. rewrite map_map. apply (cumul_rows (fun row => Depense.montant (fst row))). }
  rewrite HT.
  set (T := cumul (map Depense.montant (map fst rows))).
  destruct (traverse_total (completer T) (fold_left grouper rows []) (completer_total T))
    as (ys & Hys).
  rewrite Hys.
  pose proof (traverse_Forall2 _ _ _ Hys) as F.
  pose proof (js_sort_perm (fun a b => total b - total a) ys) as P.
  assert (Hback : forall g, In g (js_sort (fun a b => total b - total a) ys) ->
            exists g0, completer T g0 = Some g).
  { intros g Hin. apply (Permutation_in _ P) in Hin.
    destruct (Forall2_in_right _ _ _ _ F Hin) as (g0 & _ & Hc). exists g0. exact Hc. }
  eexists. split; [reflexivity|]. split; [|split; [|split; [|split]]].
  - apply (groupes_de_perm _ ys); [apply Permutation_sym; exact P|].
    apply (groupes_de_completes T _ (fold_left grouper rows [])); [exact F|].
    apply (grouper_fold rows [] []). exact groupes_de_nil.
  - apply js_sort_key_sorted.
  - intros g Hin. destruct (Hback g Hin) as (g0 & Hc).
    exact (proj2 (proj2 (proj2 (proj2 (proj2 (completer_fields T g0 g Hc)))))).
  - intros Hpos g Hin. destruct (Hback g Hin) as (g0 & Hc).
    destruct (completer_fields T g0 g Hc) as (_ & Ht & _ & _ & Hp & _).
    rewrite Hp, Ht. rewrite (proj2 (Qgtb_gt _ _) Hpos). reflexivity.
  - intros Hneg g Hin. destruct (Hback g Hin) as (g0 & Hc).
    destruct (completer_fields T g0 g Hc) as (_ & _ & _ & _ & Hp & _).
    rewrite Hp. rewrite (proj2 (Qgtb_le _ _) Hneg). reflexivity.
Qed.

(** The breakdown when its read reaches the store. *)
Lemma getDepensesParCategorie_runs (cycleId : string) (w : World) :
  hd false (faults w) = false ->
  exists r : list DepenseParCategorie,
    getDepensesParCategorie cycleId w
    = (Some (ok r), mkWorld (db w) (tl (faults w)) (uuids w) (now w))
    /\ groupes_de (filter (in_cycle cycleId) (depenses (db w))) r
    /\ decroissant_total r
    /\ (forall g, In g r -> is_exceeded g = depasse g)
    /\ (0 < cumul (map Depense.montant (filter (in_cycle cycleId) (depenses (db w)))) ->
        forall g, In g r ->
          pourcentage g
          = total g / cumul (map Depense.montant (filter (in_cycle cycleId) (depenses (db w))))
            * 100)
    /\ (cumul (map Depense.montant (filter (in_cycle cycleId) (depenses (db w)))) <= 0 ->
        forall g, In g r -> pourcentage g = 0).
Proof.
  intros Hf.
  destruct (par_categorie_spec
              (map (fun d =>
                      (d, find (fun k =>
                                  String.eqb (Categorie.id k) (Depense.categorie_id d))
                            (categories (db w))))
                 (filter (in_cycle cycleId) (depenses (db w)))))
    as (r & Hr & Hg & Hs & He & Hp & Hz).
  rewrite map_fst_jointes in Hg, Hp, Hz.
  exists r.
  split; [|split; [exact Hg|split; [exact Hs|split; [exact He|split; [exact Hp|exact Hz]]]]].
  unfold getDepensesParCategorie, bind, select_depenses_jointes.
  rewrite (request_reaches _ w Hf).
  unfold on_store. cbn [db fst snd error data ok faults uuids now].
  destruct (map _ (filter (in_cycle cycleId) (depenses (db w)))) as [|row rows] eqn:E.
  - cbn in Hr. injection Hr as <-. reflexivity.
  - unfold ret. rewrite Hr. reflexivity.
Qed.

(** X17. The breakdown of a cycle by category partitions the expenses of
    the cycle: when the read reaches the store, [getDepensesParCategorie]
    answers one group per category that has an expense in the cycle, no
    category twice and none without an expense; the total of a group is
    the sum, left to right from 0, of the amounts of the cycle's expenses
    of that category in the order of the table, its count is their
    number, and the groups come largest total first. *)
Theorem getDepensesParCategorie_partitions_expenses (cycleId : string) (w : World) :
  calm 1 w ->
  exists r : list DepenseParCategorie,
    fst (getDepensesParCategorie cycleId w) = Some (ok r)
    /\ groupes_de (filter (in_cycle cycleId) (depenses (db w))) r
    /\ decroissant_total r.
Proof.
  intros Hc.
  destruct (getDepensesParCategorie_runs cycleId w (calm_head 0 w Hc))
    as (r & -> & Hg & Hs & _).
  exists r. split; [reflexivity|]. split; [exact Hg | exact Hs].
Qed.

Lemma getDepensesParCategorie_partitions_expenses_witness :
  exists r : list DepenseParCategorie,
    fst (getDepensesParCategorie "c1" (world_trois [])) = Some (ok r)
    /\ groupes_de (filter (in_cycle "c1") (depenses (db (world_trois [])))) r
    /\ decroissant_total r.
Proof.
  apply (getDepensesParCategorie_partitions_expenses "c1" (world_trois [])).
  reflexivity.
Defined.

(** X18. The percentages of the breakdown.  Let [T] be the sum, left to
    right from 0, of the amounts of the cycle's expenses in the order of
    the table.  When the read reaches the store: if [T] is positive each
    group's [pourcentage] is its total divided by [T], times 100; if [T]
    is zero or less every [pourcentage] is 0; [is_exceeded] says whether
    the total is above a non-zero [budget_max]; and when no amount of the
    cycle is negative and [T] is positive, every [pourcentage] lies
    between 0 and 100. *)
Theorem getDepensesParCategorie_percentages (cycleId : string) (w : World) :
  calm 1 w ->
  exists r : list DepenseParCategorie,
    fst (getDepensesParCategorie cycleId w) = Some (ok r)
    /\ (forall g, In g r -> is_exceeded g = depasse g)
    /\ (0 < cumul (map Depense.montant (filter (in_cycle cycleId) (depenses (db w)))) ->
        forall g, In g r ->
          pourcentage g
          = total g / cumul (map Depense.montant (filter (in_cycle cycleId) (depenses (db w))))
            * 100)
    /\ (cumul (map Depense.montant (filter (in_cycle cycleId) (depenses (db w)))) <= 0 ->
        forall g, In g r -> pourcentage g = 0)
    /\ ((forall d, In d (filter (in_cycle cycleId) (depenses (db w))) ->
           0 <= Depense.montant d) ->
        0 < cumul (map Depense.montant (filter (in_cycle cycleId) (depenses (db w)))) ->
        forall g, In g r -> 0 <= pourcentage g <= 100).
Proof.
  intros Hc.
  destruct (getDepensesParCategorie_runs cycleId w (calm_head 0 w Hc))
    as (r & -> & Hg & _ & He & Hp & Hz).
  exists r. split; [reflexivity|]. split; [exact He|]. split; [exact Hp|].
  split; [exact Hz|].
  intros Hpos HT g Hin.
  set (ds := filter (in_cycle cycleId) (depenses (db w))) in *.
  rewrite (Hp HT g Hin).
  destruct Hg as (_ & Hg & _). destruct (Hg g Hin) as (Ht & _).
  assert (Hb : 0 <= total g <= cumul (map Depense.montant ds)).
  { rewrite Ht, !cumul_somme.
    apply (somme_filter_le (de_categorie (categorie_id g)) Depense.montant ds Hpos). }
  set (T := cumul (map Depense.montant ds)) in *.
  assert (Hx : total g / T * T == total g) by (field; lra).
  set (x := total g / T) in *.
  split; nra.
Qed.

Lemma getDepensesParCategorie_percentages_witness :
  exists r : list DepenseParCategorie,
    fst (getDepensesParCategorie "c1" (world_trois [])) = Some (ok r)
    /\ forall g, In g r -> 0 <= pourcentage g <= 100.
Proof.
  destruct (getDepensesParCategorie_percentages "c1" (world_trois []))
    as (r & Hr & _ & _ & _ & Hb); [reflexivity|].
  exists r. split; [exact Hr|].
  apply Hb.
  - intros d Hd. vm_compute in Hd.
    destruct Hd as [<- | [<- | [<- | []]]]; vm_compute; discriminate.
  - vm_compute. reflexivity.
Defined.

(** ** The lists of the statistics service *)

Lemma sorted_app_inv {A} (R : A -> A -> Prop) (l1 l2 : list A) :
  StronglySorted R (l1 ++ l2) ->
  StronglySorted R l1 /\ StronglySorted R l2
  /\ (forall a b, In a l1 -> In b l2 -> R a b).
Proof.
  induction l1 as [|x rest IH]; cbn [app]; intros H.
  - split; [constructor|]. split; [exact H|]. intros a b [].
  - inversion H as [|? ? Hs Hall]; subst.
    destruct (IH Hs) as (H1 & H2 & H3).
    rewrite Forall_app in Hall. destruct Hall as (Ha1 & Ha2).
    split; [constructor; assumption|]. split; [exact H2|].
    intros a b [<- | Ha] Hb.
    + rewrite Forall_forall in Ha2. apply Ha2. exact Hb.
    + apply H3; assumption.
Qed.

Lemma sorted_app {A} (R : A -> A -> Prop) (l1 l2 : list A) :
  StronglySorted R l1 -> StronglySorted R l2 ->
  (forall a b, In a l1 -> In b l2 -> R a b) ->
  StronglySorted R (l1 ++ l2).
Proof.
  induction l1 as [|x rest IH]; cbn [app]; intros H1 H2 H3; [exact H2|].
  inversion H1 as [|? ? Hs Hall]; subst.
  constructor.
  - apply IH; [exact Hs | exact H2 |]. intros a b Ha Hb. apply H3; [right; exact Ha | exact Hb].
  - rewrite Forall_app. split; [exact Hall|].
    rewrite Forall_forall. intros b Hb. apply H3; [left; reflexivity | exact Hb].
Qed.

Lemma sorted_rev {A} (R : A -> A -> Prop) (l : list A) :
  StronglySorted R l -> StronglySorted (fun a b => R b a) (rev l).
Proof.
  induction 1 as [|x rest Hs IH Hall]; cbn [rev]; [constructor|].
  apply sorted_app; [exact IH | constructor; constructor |].
  intros a b Ha [<- | []]. rewrite Forall_forall in Hall.
  apply Hall. apply in_rev. exact Ha.
Qed.

Lemma plus_recent_total (a b : CycleMensuel.t) :
  plus_recent a b = false -> plus_recent b a = true.
Proof.
  unfold plus_recent. intros H.
  apply orb_false_iff in H. destruct H as (H1 & H2).
  apply Z.ltb_ge in H1.
  destruct (Z.eq_dec (CycleMensuel.annee a) (CycleMensuel.annee b)) as [E|N].
  - rewrite E, Z.eqb_refl in H2. cbn [andb] in H2. apply Z.leb_gt in H2.
    rewrite E, Z.eqb_refl. apply orb_true_iff. right. cbn [andb]. apply Z.leb_le. lia.
  - apply orb_true_iff. left. apply Z.ltb_lt. lia.
Qed.

Lemma plus_recent_trans (a b c : CycleMensuel.t) :
  plus_recent a b = true -> plus_recent b c = true -> plus_recent a c = true.
Proof.
  unfold plus_recent. intros H1 H2.
  apply orb_true_iff in H1. apply orb_true_iff in H2. apply orb_true_iff.
  destruct H1 as [H1|H1], H2 as [H2|H2];
    rewrite ?Z.ltb_lt, ?andb_true_iff, ?Z.eqb_eq, ?Z.leb_le in *.
  - left. lia.
  - left. lia.
  - left. lia.
  - right. lia.
Qed.

Lemma recent_first (l : list CycleMensuel.t) :
  StronglySorted (fun a b => plus_recent a b = true) (order_by plus_recent l).
Proof.
  apply order_by_sorted; [exact plus_recent_total | exact plus_recent_trans].
Qed.

(** X19. [getTopCategories] keeps the largest groups of the breakdown:
    when the read reaches the store and [limit] is not negative, its
    answer is the first [limit] groups of the answer of
    [getDepensesParCategorie] (all of them when there are fewer), largest
    total first, and no group left out has a larger total than a group
    that is kept. *)
Theorem getTopCategories_keeps_largest (cycleId : string) (limit : Z) (w : World) :
  calm 1 w -> (0 <= limit)%Z ->
  exists r top rest : list DepenseParCategorie,
    fst (getDepensesParCategorie cycleId w) = Some (ok r)
    /\ fst (getTopCategories cycleId limit w) = Some (ok top)
    /\ r = top ++ rest
    /\ List.length top = Nat.min (Z.to_nat limit) (List.length r)
    /\ decroissant_total top
    /\ (forall a b, In a top -> In b rest -> total b <= total a).
Proof.
  intros Hc Hl.
  destruct (getDepensesParCategorie_runs cycleId w (calm_head 0 w Hc))
    as (r & Hr & _ & Hs & _).
  unfold getTopCategories, bind. rewrite Hr.
  unfold ret. cbn [fst error data ok]. unfold slice0.
  destruct (limit <? 0)%Z eqn:E; [apply Z.ltb_lt in E; lia|].
  exists r, (firstn (Z.to_nat limit) r), (skipn (Z.to_nat limit) r).
  split; [reflexivity|]. split; [reflexivity|].
  split; [symmetry; apply firstn_skipn|].
  split; [apply length_firstn|].
  unfold decroissant_total in Hs.
  rewrite <- (firstn_skipn (Z.to_nat limit) r) in Hs.
  destruct (sorted_app_inv _ _ _ Hs) as (H1 & _ & H3).
  split; [exact H1 | exact H3].
Qed.

Lemma getTopCategories_keeps_largest_witness :
  exists r top rest : list DepenseParCategorie,
    fst (getDepensesParCategorie "c1" (world_trois [])) = Some (ok r)
    /\ fst (getTopCategories "c1" 1 (world_trois [])) = Some (ok top)
    /\ r = top ++ rest
    /\ List.length top = Nat.min (Z.to_nat 1) (List.length r)
    /\ decroissant_total top
    /\ (forall a b, In a top -> In b rest -> total b <= total a).
Proof.
  apply (getTopCategories_keeps_largest "c1" 1 (world_trois [])).
  - reflexivity.
  - lia.
Defined.

(** X20. [getAllCycles] answers every cycle of the user and no other,
    most recent first: by year, then by month, both descending. *)
Theorem getAllCycles_most_recent_first (userId : string) (w : World) :
  calm 1 w ->
  exists l : list CycleMensuel.t,
    fst (getAllCycles userId w) = ok l
    /\ Permutation l (cycles_of userId (db w))
    /\ StronglySorted (fun a b => plus_recent a b = true) l.
Proof.
  intros Hc. unfold getAllCycles, bind.
  rewrite (request_reaches _ w (calm_head 0 w Hc)).
  unfold on_store, ret. cbn [db fst snd].
  exists (order_by plus_recent (cycles_of userId (db w))).
  split; [reflexivity|]. split; [apply order_by_perm | apply recent_first].
Qed.

Lemma getAllCycles_most_recent_first_witness :
  exists l : list CycleMensuel.t,
    fst (getAllCycles "u1" deux_cycles_world) = ok l
    /\ Permutation l (cycles_of "u1" (db deux_cycles_world))
    /\ StronglySorted (fun a b => plus_recent a b = true) l.
Proof.
  apply (getAllCycles_most_recent_first "u1" deux_cycles_world).
  reflexivity.
Defined.

(** X21. The evolution series is chronological and made of the most
    recent cycles: when the read reaches the store,
    [getEvolutionDepenses] answers one point per cycle kept, with the
    totals of that cycle; the cycles kept are [nbMois] of the user's
    cycles (all of them when there are fewer), oldest first, and no
    cycle left out is more recent than a cycle that is kept. *)
Theorem getEvolutionDepenses_chronological (userId : string) (nbMois : nat) (w : World) :
  calm 1 w ->
  exists kept left : list CycleMensuel.t,
    fst (getEvolutionDepenses userId nbMois w) = ok (map point_evolution kept)
    /\ Permutation (cycles_of userId (db w)) (kept ++ left)
    /\ List.length kept = Nat.min nbMois (List.length (cycles_of userId (db w)))
    /\ StronglySorted (fun a b => plus_recent b a = true) kept
    /\ (forall a b, In a kept -> In b left -> plus_recent a b = true).
Proof.
  intros Hc. unfold getEvolutionDepenses, bind.
  rewrite (request_reaches _ w (calm_head 0 w Hc)).
  unfold on_store. cbn [db fst snd error data ok].
  set (sorted := order_by plus_recent (cycles_of userId (db w))).
  pose proof (recent_first (cycles_of userId (db w))) as Hs. fold sorted in Hs.
  rewrite <- (firstn_skipn nbMois sorted) in Hs.
  destruct (sorted_app_inv _ _ _ Hs) as (H1 & _ & H3).
  exists (rev (firstn nbMois sorted)), (skipn nbMois sorted).
  split; [|split; [|split; [|split]]].
  - destruct (firstn nbMois sorted) as [|c rest]; [reflexivity|].
    unfold ret. cbn [fst]. rewrite map_rev. reflexivity.
  - rewrite <- (order_by_perm plus_recent (cycles_of userId (db w))). fold sorted.
    rewrite <- (firstn_skipn nbMois sorted) at 1.
    apply Permutation_app_tail. apply Permutation_rev.
  - rewrite length_rev, length_firstn. unfold sorted.
    rewrite (Permutation_length (order_by_perm plus_recent (cycles_of userId (db w)))).
    reflexivity.
  - apply (sorted_rev _ _ H1).
  - intros a b Ha Hb. apply H3; [apply in_rev; exact Ha | exact Hb].
Qed.

Lemma getEvolutionDepenses_chronological_witness :
  exists kept left : list CycleMensuel.t,
    fst (getEvolutionDepenses "u1" 6 deux_cycles_world) = ok (map point_evolution kept)
    /\ Permutation (cycles_of "u1" (db deux_cycles_world)) (kept ++ left)
    /\ List.length kept = Nat.min 6 (List.length (cycles_of "u1" (db deux_cycles_world)))
    /\ StronglySorted (fun a b => plus_recent b a = true) kept
    /\ (forall a b, In a kept -> In b left -> plus_recent a b = true).
Proof.
  apply (getEvolutionDepenses_chronological "u1" 6 deux_cycles_world).
  reflexivity.
Defined.

(** ** The monthly summary of a consistent cycle *)

Lemma positive_not_zero (s : Q) : 0 < s -> ~ s == 0.
Proof. intros H E. rewrite E in H. exact (Qlt_irrefl 0 H). Qed.

Lemma getStatsMensuel_reads (cycleId : string) (c : CycleMensuel.t) (w : World) :
  calm 1 w ->
  filter (cycle_has_id cycleId) (cycles_mensuels (db w)) = [c] ->
  fst (getStatsMensuel cycleId w)
  = (stats <~ stats_of_cycle c (now w) ;; Some (ok stats)).
Proof.
  intros Hc Hrow. unfold getStatsMensuel, bind, select_cycle.
  rewrite (request_reaches _ w (calm_head 0 w Hc)).
  unfold on_store. cbn [db fst snd]. rewrite Hrow. reflexivity.
Qed.

(** The two rates by day computed by [getStatsMensuel]. *)
Lemma rates_by_day (c : CycleMensuel.t) (today : Z) :
  exists dpj bjr : Q,
    (if (joursEcoules c today >? 0)%Z
     then js_div (CycleMensuel.total_depenses c) (inject_Z (joursEcoules c today))
     else Some 0) = Some dpj
    /\ (if (joursRestants c today >? 0)%Z
        then js_div (CycleMensuel.reste c) (inject_Z (joursRestants c today))
        else Some (CycleMensuel.reste c)) = Some bjr
    /\ ((0 < joursEcoules c today)%Z ->
        dpj = CycleMensuel.total_depenses c / inject_Z (joursEcoules c today))
    /\ ((0 < joursRestants c today)%Z ->
        bjr = CycleMensuel.reste c / inject_Z (joursRestants c today))
    /\ (joursRestants c today = 0%Z -> bjr = CycleMensuel.reste c).
Proof.
  destruct (joursEcoules c today >? 0)%Z eqn:Ee;
    [rewrite (js_div_finite _ _ (inject_Z_positive _ Ee))|];
    (destruct (joursRestants c today >? 0)%Z eqn:Er;
     [rewrite (js_div_finite _ _ (inject_Z_positive _ Er))|]);
    rewrite ?Z.gtb_ltb in *; rewrite ?Z.ltb_lt, ?Z.ltb_ge in *;
    eexists; eexists; (split; [reflexivity|]); (split; [reflexivity|]);
    (split; [|split]); intros H; try reflexivity; lia.
Qed.

(** X22. The monthly summary of a stored cycle whose income is positive,
    when the read reaches the store: the summary carries the income, the
    two totals and [reste] of the row; [pourcentage_utilise] is charges
    plus expenses divided by the income, times 100, and [taux_epargne] is
    [reste] divided by the income, times 100; the spend per day is the
    expenses divided by the days elapsed when a day has elapsed; the
    remaining daily budget is [reste] divided by the days left when a day
    is left; the days left are never negative, they complete the days
    elapsed to the length of the period while the period lasts, and once
    the days elapsed reach that length none is left and the remaining
    daily budget is [reste] itself. *)
Theorem getStatsMensuel_positive_income (cycleId : string) (c : CycleMensuel.t)
    (w : World) :
  calm 1 w ->
  filter (cycle_has_id cycleId) (cycles_mensuels (db w)) = [c] ->
  0 < CycleMensuel.salaire_reel c ->
  exists s : StatsMensuel,
    fst (getStatsMensuel cycleId w) = Some (ok s)
    /\ salaire s = CycleMensuel.salaire_reel c
    /\ stats_total_charges s = CycleMensuel.total_charges c
    /\ stats_total_depenses s = CycleMensuel.total_depenses c
    /\ stats_reste s = CycleMensuel.reste c
    /\ pourcentage_utilise s
       = (CycleMensuel.total_charges c + CycleMensuel.total_depenses c)
         / CycleMensuel.salaire_reel c * 100
    /\ taux_epargne s = CycleMensuel.reste c / CycleMensuel.salaire_reel c * 100
    /\ ((0 < joursEcoules c (now w))%Z ->
        depenses_par_jour s
        = CycleMensuel.total_depenses c / inject_Z (joursEcoules c (now w)))
    /\ ((0 < jours_restants s)%Z ->
        budget_journalier_restant s = CycleMensuel.reste c / inject_Z (jours_restants s))
    /\ (0 <= jours_restants s)%Z
    /\ ((joursEcoules c (now w) <= totalJours c)%Z ->
        (joursEcoules c (now w) + jours_restants s)%Z = totalJours c)
    /\ ((totalJours c <= joursEcoules c (now w))%Z ->
        jours_restants s = 0%Z /\ budget_journalier_restant s = CycleMensuel.reste c).
Proof.
  intros Hc Hrow Hpos.
  rewrite (getStatsMensuel_reads cycleId c w Hc Hrow).
  pose proof (positive_not_zero _ Hpos) as Hnz.
  unfold stats_of_cycle.
  rewrite (proj2 (Qgtb_gt _ _) Hpos).
  rewrite !percent_finite by exact Hnz.
  destruct (rates_by_day c (now w)) as (dpj & bjr & -> & -> & Hd & Hb & Hb0).
  eexists. split; [reflexivity|].
  cbn [salaire stats_total_charges stats_total_depenses stats_reste pourcentage_utilise
         taux_epargne depenses_par_jour budget_journalier_restant jours_restants].
  repeat (split; [reflexivity|]).
  split; [exact Hd|]. split; [exact Hb|].
  split; [apply Z.le_max_l|]. split.
  - intros Hle. unfold joursRestants. lia.
  - intros Hle.
    assert (H0 : joursRestants c (now w) = 0%Z) by (unfold joursRestants; lia).
    split; [exact H0 | exact (Hb0 H0)].
Qed.

Lemma getStatsMensuel_positive_income_witness :
  exists s : StatsMensuel,
    fst (getStatsMensuel "c1" (sample_world [])) = Some (ok s)
    /\ pourcentage_utilise s = (700 + 450) / 3000 * 100
    /\ (joursEcoules cycle_janvier (now (sample_world [])) + jours_restants s)%Z
       = totalJours cycle_janvier.
Proof.
  destruct (getStatsMensuel_positive_income "c1" cycle_janvier (sample_world []))
    as (s & Hs & _ & _ & _ & _ & Hp & _ & _ & _ & _ & Hj & _);
    [reflexivity | reflexivity | reflexivity |].
  exists s. split; [exact Hs|]. split; [exact Hp|].
  apply Hj. vm_compute. discriminate.
Defined.

(** X23. [lib/calculations] and the statistics service give the same
    rates for a stored cycle whose income is not negative: when the read
    reaches the store, [calculerPourcentageUtilise] on the income, the
    charges total and the expenses total of the row, and
    [calculerTauxEpargne] on its [reste] and income, return the
    [pourcentage_utilise] and the [taux_epargne] of the summary
    [getStatsMensuel] answers with (the guards [=== 0] and [> 0] agree on
    such an income). *)
Theorem calculations_agree_with_stats (cycleId : string) (cycle : CycleMensuel.t)
    (w : World) :
  calm 1 w ->
  filter (cycle_has_id cycleId) (cycles_mensuels (db w)) = [cycle] ->
  0 <= CycleMensuel.salaire_reel cycle ->
  exists s : StatsMensuel,
    fst (getStatsMensuel cycleId w) = Some (ok s)
    /\ calculerPourcentageUtilise (CycleMensuel.salaire_reel cycle)
         (CycleMensuel.total_charges cycle) (CycleMensuel.total_depenses cycle)
       = Some (pourcentage_utilise s)
    /\ calculerTauxEpargne (CycleMensuel.reste cycle) (CycleMensuel.salaire_reel cycle)
       = Some (taux_epargne s).
Proof.
  intros Hc Hrow Hs.
  rewrite (getStatsMensuel_reads cycleId cycle w Hc Hrow).
  unfold stats_of_cycle, calculerPourcentageUtilise, calculerTauxEpargne.
  destruct (rates_by_day cycle (now w)) as (dpj & bjr & -> & -> & _).
  destruct (Qgtb (CycleMensuel.salaire_reel cycle) 0) eqn:E.
  - apply Qgtb_gt in E. pose proof (positive_not_zero _ E) as Hnz.
    destruct (Qeq_bool (CycleMensuel.salaire_reel cycle) 0) eqn:E0;
      [apply Qeq_bool_iff in E0; contradiction|].
    rewrite !percent_finite by exact Hnz.
    eexists. split; [reflexivity|]. cbn [pourcentage_utilise taux_epargne].
    split; reflexivity.
  - apply Qgtb_le in E.
    assert (E0 : Qeq_bool (CycleMensuel.salaire_reel cycle) 0 = true)
      by (apply Qeq_bool_iff; lra).
    rewrite E0.
    eexists. split; [reflexivity|]. cbn [pourcentage_utilise taux_epargne].
    split; reflexivity.
Qed.

Lemma calculations_agree_with_stats_witness :
  exists s : StatsMensuel,
    fst (getStatsMensuel "c1" (sample_world [])) = Some (ok s)
    /\ calculerPourcentageUtilise 3000 700 450 = Some (pourcentage_utilise s)
    /\ calculerTauxEpargne 1850 3000 = Some (taux_epargne s).
Proof.
  destruct (calculations_agree_with_stats "c1" cycle_janvier (sample_world []))
    as (s & Hs & Hp & He);
    [reflexivity | reflexivity | unfold Qle; simpl; lia |].
  exists s. split; [exact Hs|]. split; [exact Hp | exact He].
Defined.

(** ** Categories service *)

Lemma set_categories_same (s : Store) : set_categories s (categories s) = s.
Proof. destruct s. reflexivity. Qed.

Lemma own_not_hors (i userId : string) (k : Categorie.t) :
  own_categorie i userId k = true -> hors_de userId k = false.
Proof.
  unfold own_categorie, hors_de. intros H. apply andb_true_iff in H.
  destruct H as (_ & ->). reflexivity.
Qed.

Lemma spared_by_update (i userId : string) (p : PartialCategorie.t) (l : list Categorie.t) :
  filter (hors_de userId)
    (map (fun e => if own_categorie i userId e then patch_categorie p e else e) l)
  = filter (hors_de userId) l.
Proof.
  induction l as [|e rest IH]; cbn [map filter]; [reflexivity|].
  destruct (own_categorie i userId e) eqn:E.
  - rewrite (own_not_hors i userId e E).
    replace (hors_de userId (patch_categorie p e)) with false
      by (symmetry; exact (own_not_hors i userId e E)).
    exact IH.
  - rewrite IH. reflexivity.
Qed.

Lemma spared_by_delete (i userId : string) (l : list Categorie.t) :
  filter (hors_de userId) (filter (fun e => negb (own_categorie i userId e)) l)
  = filter (hors_de userId) l.
Proof.
  induction l as [|e rest IH]; cbn [filter]; [reflexivity|].
  destruct (own_categorie i userId e) eqn:E; cbn [negb filter].
  - rewrite (own_not_hors i userId e E). exact IH.
  - rewrite IH. reflexivity.
Qed.

Lemma select_categorie_owner_db (i : string) (w : World) :
  db (snd (select_categorie_owner i w)) = db w.
Proof.
  unfold select_categorie_owner.
  apply (request_read_db
           (fun s => single (map Categorie.user_id
                               (filter (categorie_has_id i) (categories s))))).
Qed.

(** X24. [updateCategorie] and [deleteCategorie] called for [userId]
    leave every row that [userId] does not own as it was, the default
    categories and the categories of the other users, whatever the
    identifier, the payload and the fate of the requests; the other
    tables are not written. *)
Theorem categorie_writes_spare_other_rows (categorieId userId : string)
    (updates : PartialCategorie.t) (w : World) :
  (exists l : list Categorie.t,
     db (snd (updateCategorie categorieId userId updates w)) = set_categories (db w) l
     /\ filter (hors_de userId) l = filter (hors_de userId) (categories (db w)))
  /\ (exists l : list Categorie.t,
        db (snd (deleteCategorie categorieId userId w)) = set_categories (db w) l
        /\ filter (hors_de userId) l = filter (hors_de userId) (categories (db w))).
Proof.
  split.
  - unfold updateCategorie, bind.
    pose proof (select_categorie_owner_db categorieId w) as Hdb.
    destruct (select_categorie_owner categorieId w) as [existing w1]. cbn [snd] in Hdb.
    destruct (not_owner (data existing) userId).
    + exists (categories (db w)). cbn [ret snd]. unfold ret. cbn [snd].
      rewrite Hdb, set_categories_same. split; reflexivity.
    + unfold request, on_store, ret.
      destruct (faults w1) as [|[] fs]; cbn [db faults uuids now tl snd];
        try (exists (categories (db w)); rewrite Hdb, set_categories_same;
             split; reflexivity);
        (destruct (map (patch_categorie updates)
                     (filter (own_categorie categorieId userId) (categories (db w1))))
           as [|k [|k2 rest]]; cbn [snd db];
         [exists (categories (db w)); rewrite Hdb, set_categories_same; split; reflexivity
         | rewrite Hdb; eexists; split; [reflexivity | apply spared_by_update]
         | exists (categories (db w)); rewrite Hdb, set_categories_same; split; reflexivity]).
  - unfold deleteCategorie, bind.
    pose proof (select_categorie_owner_db categorieId w) as Hdb.
    destruct (select_categorie_owner categorieId w) as [existing w1]. cbn [snd] in Hdb.
    destruct (not_owner (data existing) userId).
    + exists (categories (db w)). unfold ret. cbn [snd].
      rewrite Hdb, set_categories_same. split; reflexivity.
    + unfold request, on_store, ret.
      destruct (faults w1) as [|[] fs]; cbn [db faults uuids now tl snd];
        try (exists (categories (db w)); rewrite Hdb, set_categories_same;
             split; reflexivity);
        (destruct (filter (own_categorie categorieId userId) (categories (db w1)))
           as [|k [|k2 rest]]; cbn [snd db];
         [exists (categories (db w)); rewrite Hdb, set_categories_same; split; reflexivity
         | rewrite Hdb; eexists; split; [reflexivity | apply spared_by_delete]
         | exists (categories (db w)); rewrite Hdb, set_categories_same; split; reflexivity]).
Qed.

Lemma single_row_not_owned (i userId : string) (l : list Categorie.t) (k : Categorie.t) :
  filter (categorie_has_id i) l = [k] ->
  filter (own_categorie i userId) l = [] ->
  owned_by userId (Categorie.user_id k) = false.
Proof.
  intros Hk Hown.
  assert (Hin : In k (filter (categorie_has_id i) l)) by (rewrite Hk; left; reflexivity).
  apply filter_In in Hin. destruct Hin as (Hin & Hid).
  destruct (owned_by userId (Categorie.user_id k)) eqn:E; [|reflexivity].
  assert (Hin2 : In k (filter (own_categorie i userId) l)).
  { apply filter_In. split; [exact Hin|]. unfold own_categorie. rewrite Hid, E. reflexivity. }
  rewrite Hown in Hin2. destruct Hin2.
Qed.

Lemma guard_refuses (i userId : string) (w : World) :
  filter (own_categorie i userId) (categories (db w)) = [] ->
  not_owner (data (fst (select_categorie_owner i w))) userId = true
  /\ snd (select_categorie_owner i w) = mkWorld (db w) (tl (faults w)) (uuids w) (now w).
Proof.
  intros Hown. unfold select_categorie_owner, request, on_store.
  destruct (faults w) as [|[] fs]; cbn [db faults uuids now tl fst snd];
    try (split; reflexivity);
    (destruct (filter (categorie_has_id i) (categories (db w))) as [|k [|k2 rest]] eqn:Hk;
     cbn [map single fst snd data ok failure not_owner]; try (split; reflexivity);
     rewrite (single_row_not_owned i userId _ k Hk Hown); split; reflexivity).
Qed.

(** X25. A category that [userId] does not own is refused: when no row
    of that identifier belongs to [userId] (a default category, a
    category of another user, an unknown identifier), [updateCategorie]
    and [deleteCategorie] answer with their refusal and no data after one
    request, and the store is left as it was. *)
Theorem categorie_guard_refuses_non_owner (categorieId userId : string)
    (updates : PartialCategorie.t) (w : World) :
  filter (own_categorie categorieId userId) (categories (db w)) = [] ->
  updateCategorie categorieId userId updates w
  = (mkResponse None (Some cannot_update),
     mkWorld (db w) (tl (faults w)) (uuids w) (now w))
  /\ deleteCategorie categorieId userId w
     = (mkResponse None (Some cannot_delete),
        mkWorld (db w) (tl (faults w)) (uuids w) (now w)).
Proof.
  intros Hown. destruct (guard_refuses categorieId userId w Hown) as (Hg & Hw).
  unfold updateCategorie, deleteCategorie, bind.
  destruct (select_categorie_owner categorieId w) as [existing w1].
  cbn [fst snd] in Hg, Hw. rewrite Hg, Hw. split; reflexivity.
Qed.

Lemma categorie_guard_refuses_non_owner_witness :
  fst (updateCategorie "k1" "u1"
         (PartialCategorie.mk (Some "Maison") None None None None) (world_categories []))
  = mkResponse None (Some cannot_update)
  /\ fst (deleteCategorie "k2" "u1" (world_categories []))
     = mkResponse None (Some cannot_delete).
Proof.
  split.
  - rewrite (proj1 (categorie_guard_refuses_non_owner "k1" "u1"
                      (PartialCategorie.mk (Some "Maison") None None None None)
                      (world_categories []) eq_refl)).
    reflexivity.
  - rewrite (proj2 (categorie_guard_refuses_non_owner "k2" "u1"
                      (PartialCategorie.mk None None None None None)
                      (world_categories []) eq_refl)).
    reflexivity.
Defined.

(** X26. When the ownership read does not reach the store,
    [updateCategorie] and [deleteCategorie] answer with the ownership
    refusal, not with the error of the read, even to the owner of the
    category; nothing is written and no second request is made. *)
Theorem categorie_guard_read_failure (categorieId userId : string)
    (updates : PartialCategorie.t) (w : World) :
  hd false (faults w) = true ->
  updateCategorie categorieId userId updates w
  = (mkResponse None (Some cannot_update),
     mkWorld (db w) (tl (faults w)) (uuids w) (now w))
  /\ deleteCategorie categorieId userId w
     = (mkResponse None (Some cannot_delete),
        mkWorld (db w) (tl (faults w)) (uuids w) (now w)).
Proof.
  intros Hf. unfold updateCategorie, deleteCategorie, bind, select_categorie_owner.
  rewrite (request_fails _ w Hf). split; reflexivity.
Qed.

Lemma categorie_guard_read_failure_witness :
  fst (deleteCategorie "k2" "u2" (world_categories [true]))
  = mkResponse None (Some cannot_delete)
  /\ fst (deleteCategorie "k2" "u2" (world_categories [false; false]))
     = ok (Categorie.mk "k2" (Some "u2") "Sport" "Heart" "#10B981" (Some 50) depense 0%Z).
Proof.
  split.
  - rewrite (proj2 (categorie_guard_read_failure "k2" "u2"
                      (PartialCategorie.mk None None None None None)
                      (world_categories [true]) eq_refl)).
    reflexivity.
  - reflexivity.
Defined.

Lemma fresh_no_row (i : string) (l : list Categorie.t) :
  existsb (categorie_has_id i) l = false -> filter (categorie_has_id i) l = [].
Proof.
  induction l as [|e rest IH]; cbn [existsb filter]; [reflexivity|].
  intros H. apply orb_false_iff in H. destruct H as (-> & H). apply IH. exact H.
Qed.

Lemma fresh_no_own (i userId : string) (l : list Categorie.t) :
  existsb (categorie_has_id i) l = false ->
  filter (fun e => negb (own_categorie i userId e)) l = l
  /\ filter (own_categorie i userId) l = [].
Proof.
  induction l as [|e rest IH]; cbn [existsb filter]; [split; reflexivity|].
  intros H. apply orb_false_iff in H. destruct H as (He & H).
  destruct (IH H) as (IH1 & IH2).
  assert (Ho : own_categorie i userId e = false) by (unfold own_categorie; rewrite He; reflexivity).
  rewrite Ho. cbn [negb]. rewrite IH1, IH2.
  split; reflexivity.
Qed.

Lemma filter_own (i userId : string) (l : list Categorie.t) :
  filter (own_categorie i userId) l
  = filter (fun k => owned_by userId (Categorie.user_id k)) (filter (categorie_has_id i) l).
Proof.
  induction l as [|e rest IH]; cbn [filter]; [reflexivity|].
  unfold own_categorie at 1. destruct (categorie_has_id i e); cbn [andb filter].
  - rewrite IH. reflexivity.
  - exact IH.
Qed.

Lemma getCategorieById_reads (i : string) (k : Categorie.t) (w : World) :
  hd false (faults w) = false ->
  filter (categorie_has_id i) (categories (db w)) = [k] ->
  fst (getCategorieById i w) = ok k.
Proof.
  intros Hf Hrow. unfold getCategorieById, bind.
  rewrite (request_reaches _ w Hf). unfold on_store. cbn [db fst snd].
  rewrite Hrow. reflexivity.
Qed.

(** The deletion by the owner, when the two requests reach the store. *)
Lemma deleteCategorie_owner (i userId : string) (k : Categorie.t) (w : World) :
  hd false (faults w) = false ->
  hd false (tl (faults w)) = false ->
  filter (categorie_has_id i) (categories (db w)) = [k] ->
  owned_by userId (Categorie.user_id k) = true ->
  fst (deleteCategorie i userId w) = ok k
  /\ db (snd (deleteCategorie i userId w))
     = set_categories (db w)
         (filter (fun e => negb (own_categorie i userId e)) (categories (db w))).
Proof.
  intros H1 H2 Hrow Hown.
  assert (Hrow2 : filter (own_categorie i userId) (categories (db w)) = [k]).
  { rewrite filter_own, Hrow. cbn [filter]. rewrite Hown. reflexivity. }
  unfold deleteCategorie, bind, select_categorie_owner.
  rewrite (request_reaches _ w H1). unfold on_store. cbn [db fst snd].
  rewrite Hrow. cbn [map single data ok not_owner]. rewrite Hown. cbn [negb].
  rewrite (request_reaches _ (mkWorld (db w) (tl (faults w)) (uuids w) (now w)) H2).
  cbn [db fst snd faults].
  rewrite Hrow2. split; reflexivity.
Qed.

(** X27. A category created by [createCategorie] belongs to the caller,
    has no budget when the form gives none or zero, is read back by
    [getCategorieById], is refused to every other user by
    [deleteCategorie], and is deleted by its owner, which leaves the
    store as it was before the creation. *)
Theorem createCategorie_round_trip (userId : string) (form : CategorieFormData.t)
    (w : World) :
  calm 3 w ->
  existsb (categorie_has_id (hd "" (uuids w))) (categories (db w)) = false ->
  exists (k : Categorie.t) (w1 : World),
    createCategorie userId form w = (ok k, w1)
    /\ Categorie.user_id k = Some userId
    /\ Categorie.budget_max k = or_null_number (CategorieFormData.budget_max form)
    /\ fst (getCategorieById (Categorie.id k) w1) = ok k
    /\ (forall other : string,
          String.eqb userId other = false ->
          fst (deleteCategorie (Categorie.id k) other w1)
          = mkResponse None (Some cannot_delete))
    /\ fst (deleteCategorie (Categorie.id k) userId w1) = ok k
    /\ db (snd (deleteCategorie (Categorie.id k) userId w1)) = db w.
Proof.
  intros Hc Hfresh. destruct (calm_three w Hc) as (H1 & H2 & H3).
  unfold createCategorie, bind, insert_categorie.
  rewrite (request_reaches _ w H1).
  cbn [db faults uuids now Categorie.id Categorie.user_id Categorie.nom Categorie.icon
         Categorie.couleur Categorie.budget_max Categorie.type].
  rewrite Hfresh. unfold ret. cbn [fst snd settle error data ok].
  set (k := Categorie.mk (hd "" (uuids w)) (Some userId) (CategorieFormData.nom form)
              (CategorieFormData.icon form) (CategorieFormData.couleur form)
              (or_null_number (CategorieFormData.budget_max form))
              (CategorieFormData.type form) (now w)).
  set (w1 := mkWorld (set_categories (db w) (categories (db w) ++ [k])) (tl (faults w))
               (tl (uuids w)) (now w)).
  exists k, w1. split; [reflexivity|]. split; [reflexivity|]. split; [reflexivity|].
  change (Categorie.id k) with (hd "" (uuids w)).
  assert (Hid : categorie_has_id (hd "" (uuids w)) k = true) by apply String.eqb_refl.
  assert (Hcat : categories (db w1) = categories (db w) ++ [k]) by reflexivity.
  assert (Hrow : filter (categorie_has_id (hd "" (uuids w))) (categories (db w1)) = [k]).
  { rewrite Hcat, filter_app, (fresh_no_row _ _ Hfresh). cbn [filter app].
    rewrite Hid. reflexivity. }
  split; [|split].
  - apply getCategorieById_reads; [exact H2 | exact Hrow].
  - intros other Hother.
    assert (Hown : filter (own_categorie (hd "" (uuids w)) other) (categories (db w1)) = []).
    { rewrite filter_own, Hrow. cbn [filter].
      change (owned_by other (Categorie.user_id k)) with (String.eqb userId other).
      rewrite Hother. reflexivity. }
    destruct (guard_refuses (hd "" (uuids w)) other w1 Hown) as (Hg & Hw).
    unfold deleteCategorie, bind.
    destruct (select_categorie_owner (hd "" (uuids w)) w1) as [existing w2].
    cbn [fst snd] in Hg, Hw. rewrite Hg. reflexivity.
  - assert (Hmine : owned_by userId (Categorie.user_id k) = true) by apply String.eqb_refl.
    destruct (deleteCategorie_owner (hd "" (uuids w)) userId k w1 H2 H3 Hrow Hmine)
      as (Hr & Hdb).
    split; [exact Hr|]. rewrite Hdb, Hcat, filter_app.
    rewrite (proj1 (fresh_no_own (hd "" (uuids w)) userId _ Hfresh)).
    cbn [filter]. unfold own_categorie. rewrite Hid, Hmine. cbn [andb negb].
    rewrite app_nil_r. unfold w1. cbn [db]. destruct (db w). reflexivity.
Qed.

Lemma createCategorie_round_trip_witness :
  exists (k : Categorie.t) (w1 : World),
    createCategorie "u1" loisirs (world_categories []) = (ok k, w1)
    /\ Categorie.user_id k = Some "u1"
    /\ Categorie.budget_max k = None
    /\ fst (getCategorieById (Categorie.id k) w1) = ok k
    /\ db (snd (deleteCategorie (Categorie.id k) "u1" w1)) = db (world_categories []).
Proof.
  destruct (createCategorie_round_trip "u1" loisirs (world_categories []))
    as (k & w1 & Hk & Hu & Hb & Hg & _ & _ & Hd); [reflexivity | reflexivity |].
  exists k, w1. split; [exact Hk|]. split; [exact Hu|].
  split; [rewrite Hb; reflexivity|]. split; [exact Hg | exact Hd].
Defined.

(** ** The pages that open and close cycles *)

Lemma getTotalCharges_fails (w : World) (userId : string) :
  hd false (faults w) = true ->
  getTotalCharges userId w
  = (mkResponse None (Some fetch_failed),
     mkWorld (db w) (tl (faults w)) (uuids w) (now w)).
Proof.
  intros Hf. unfold getTotalCharges, getChargesActives, bind.
  rewrite (request_fails _ w Hf). reflexivity.
Qed.

(** X28. Opening a cycle from the Configuration page, when the user has
    no active cycle, the period is free and the two requests reach the
    store: the page announces the creation and the table gains one
    cycle, active, for the year, month and currency of the form, without
    expenses, whose [total_charges] is the sum of the user's active
    charges at that moment and whose [reste] is the income less that
    sum. *)
Theorem configuration_opens_cycle_with_live_charges (userId : string)
    (form : CycleFormData.t) (w : World) :
  calm 2 w ->
  periode_libre w userId (CycleFormData.annee form) (CycleFormData.mois form) ->
  exists c' : CycleMensuel.t,
    fst (onSubmit (Some userId) None form w) = [Cycle_cree]
    /\ cycles_mensuels (db (snd (onSubmit (Some userId) None form w)))
       = cycles_mensuels (db w) ++ [c']
    /\ CycleMensuel.user_id c' = userId
    /\ CycleMensuel.annee c' = CycleFormData.annee form
    /\ CycleMensuel.mois c' = CycleFormData.mois form
    /\ CycleMensuel.devise c' = Some (CycleFormData.devise form)
    /\ CycleMensuel.statut c' = actif
    /\ CycleMensuel.total_depenses c' = 0
    /\ CycleMensuel.total_charges c' == total_actives userId (db w)
    /\ CycleMensuel.reste c' == CycleFormData.salaire form - total_actives userId (db w).
Proof.
  intros Hc Hfree. destruct (calm_two w Hc) as (H1 & H2).
  destruct (getTotalCharges_runs w userId H1) as (t & Ht & Heq).
  unfold onSubmit, bind. rewrite Ht. cbn [data ok].
  rewrite (createCycle_inserts (mkWorld (db w) (tl (faults w)) (uuids w) (now w)) userId
             (CycleFormData.salaire form) (CycleFormData.annee form)
             (CycleFormData.mois form) (Some (or_zero t)) (Some (CycleFormData.devise form))
             H2 Hfree).
  cbn [error ok ret fst snd db cycles_mensuels set_cycles uuids now opt].
  eexists. split; [reflexivity|]. split; [reflexivity|].
  cbn [CycleMensuel.user_id CycleMensuel.annee CycleMensuel.mois CycleMensuel.devise
         CycleMensuel.statut CycleMensuel.total_depenses CycleMensuel.total_charges
         CycleMensuel.reste].
  repeat (split; [reflexivity|]).
  split; rewrite or_zero_eq, Heq; reflexivity.
Qed.

Lemma configuration_opens_cycle_with_live_charges_witness :
  exists c' : CycleMensuel.t,
    fst (onSubmit (Some "u1") None form_fevrier (sample_world [])) = [Cycle_cree]
    /\ CycleMensuel.total_charges c' == 800
    /\ CycleMensuel.reste c' == 2000.
Proof.
  destruct (configuration_opens_cycle_with_live_charges "u1" form_fevrier (sample_world []))
    as (c' & Hr & _ & _ & _ & _ & _ & _ & _ & Ht & Hre).
  - reflexivity.
  - intros d [<- | []]. split; [discriminate|]. intros (_ & _ & Hm). discriminate.
  - exists c'. split; [exact Hr|]. split.
    + rewrite Ht. vm_compute. reflexivity.
    + rewrite Hre. vm_compute. reflexivity.
Defined.

(** X29. When the read of the active charges does not reach the store,
    the Configuration page opens the cycle all the same, with
    [total_charges] 0 and [reste] the whole income, whatever the active
    charges of the user are, and announces the creation. *)
Theorem configuration_charges_read_fails (userId : string) (form : CycleFormData.t)
    (w : World) :
  hd false (faults w) = true ->
  hd false (tl (faults w)) = false ->
  periode_libre w userId (CycleFormData.annee form) (CycleFormData.mois form) ->
  exists c' : CycleMensuel.t,
    fst (onSubmit (Some userId) None form w) = [Cycle_cree]
    /\ cycles_mensuels (db (snd (onSubmit (Some userId) None form w)))
       = cycles_mensuels (db w) ++ [c']
    /\ CycleMensuel.statut c' = actif
    /\ CycleMensuel.total_charges c' = 0
    /\ CycleMensuel.reste c' == CycleFormData.salaire form.
Proof.
  intros H1 H2 Hfree.
  unfold onSubmit, bind. rewrite (getTotalCharges_fails w userId H1). cbn [data].
  rewrite (createCycle_inserts (mkWorld (db w) (tl (faults w)) (uuids w) (now w)) userId
             (CycleFormData.salaire form) (CycleFormData.annee form)
             (CycleFormData.mois form) (Some 0) (Some (CycleFormData.devise form))
             H2 Hfree).
  cbn [error ok ret fst snd db cycles_mensuels set_cycles uuids now opt].
  eexists. split; [reflexivity|]. split; [reflexivity|].
  cbn [CycleMensuel.statut CycleMensuel.total_charges CycleMensuel.reste].
  split; [reflexivity|]. split; [reflexivity|]. ring.
Qed.

Lemma configuration_charges_read_fails_witness :
  exists c' : CycleMensuel.t,
    fst (onSubmit (Some "u1") None form_fevrier (sample_world [true])) = [Cycle_cree]
    /\ CycleMensuel.total_charges c' = 0
    /\ CycleMensuel.reste c' == 2800
    /\ total_actives "u1" (db (sample_world [true])) == 800.
Proof.
  destruct (configuration_charges_read_fails "u1" form_fevrier (sample_world [true]))
    as (c' & Hr & _ & _ & Ht & Hre).
  - reflexivity.
  - reflexivity.
  - intros d [<- | []]. split; [discriminate|]. intros (_ & _ & Hm). discriminate.
  - exists c'. split; [exact Hr|]. split; [exact Ht|]. split.
    + rewrite Hre. reflexivity.
    + vm_compute. reflexivity.
Defined.

Lemma calm_four (w : World) :
  calm 4 w -> calm 3 w /\ hd false (tl (tl (tl (faults w)))) = false.
Proof.
  unfold calm.
  destruct (faults w) as [|[] [|[] [|[] [|[] fs]]]]; simpl; intros H;
    try discriminate; split; reflexivity.
Qed.

Lemma patch_keeps_keys (p : PartialCycle.t) (c : CycleMensuel.t) :
  keeps_keys p ->
  CycleMensuel.id (patch_cycle p c) = CycleMensuel.id c
  /\ CycleMensuel.user_id (patch_cycle p c) = CycleMensuel.user_id c
  /\ CycleMensuel.annee (patch_cycle p c) = CycleMensuel.annee c
  /\ CycleMensuel.mois (patch_cycle p c) = CycleMensuel.mois c.
Proof.
  intros (Hi & Hu & Ha & Hm). unfold patch_cycle.
  cbn [CycleMensuel.id CycleMensuel.user_id CycleMensuel.annee CycleMensuel.mois].
  rewrite Hi, Hu, Ha, Hm. repeat split; reflexivity.
Qed.

(** An update that keeps the keys keeps a period free. *)
Lemma periode_libre_updated (w w1 : World) (i : string) (p : PartialCycle.t)
    (userId : string) (annee mois : Z) :
  keeps_keys p ->
  cycles_mensuels (db w1) = updated_cycles i p (cycles_mensuels (db w)) ->
  uuids w1 = uuids w ->
  periode_libre w userId annee mois -> periode_libre w1 userId annee mois.
Proof.
  intros K Hl Hu Hfree d Hin. rewrite Hl in Hin. rewrite Hu.
  unfold updated_cycles in Hin. apply in_map_iff in Hin.
  destruct Hin as (d0 & Hd & Hin0). specialize (Hfree d0 Hin0).
  destruct (cycle_has_id i d0); subst d; [|exact Hfree].
  destruct (patch_keeps_keys p d0 K) as (-> & -> & -> & ->). exact Hfree.
Qed.

Lemma filter_none {A} (f : A -> bool) (l : list A) :
  (forall x, In x l -> f x = false) -> filter f l = [].
Proof.
  induction l as [|x rest IH]; intros H; cbn [filter]; [reflexivity|].
  rewrite (H x (or_introl eq_refl)). apply IH. intros y Hy. apply H. right. exact Hy.
Qed.

(** Closing the only active cycle of a user leaves the user without an
    active cycle. *)
Lemma actifs_de_closed (userId i : string) (c : CycleMensuel.t) (l : list CycleMensuel.t)
    (charges : list ChargeFix.t) (t : Z) :
  actifs_de userId l = [c] ->
  filter (cycle_has_id i) l = [c] ->
  actifs_de userId (updated_cycles i (cloture_de c charges t) l) = [].
Proof.
  intros Ha Hi. unfold actifs_de. apply filter_none.
  intros d Hin. unfold updated_cycles in Hin. apply in_map_iff in Hin.
  destruct Hin as (d0 & Hd & Hin0).
  destruct (cycle_has_id i d0) eqn:E; subst d.
  - unfold est_actif, patch_cycle, cloture_de. cbn. apply andb_false_r.
  - destruct (String.eqb (CycleMensuel.user_id d0) userId && est_actif d0) eqn:F;
      [|reflexivity].
    assert (Hd0 : In d0 (actifs_de userId l)).
    { unfold actifs_de. apply filter_In. split; [exact Hin0 | exact F]. }
    rewrite Ha in Hd0. destruct Hd0 as [<- | []].
    assert (Hc : In c (filter (cycle_has_id i) l)) by (rewrite Hi; left; reflexivity).
    apply filter_In in Hc. destruct Hc as (_ & Hc). congruence.
Qed.

Lemma mois_suivant_cases (y m : Z) :
  (0 <= m <= 11)%Z ->
  fst (mois_suivant y m) = (if (m =? 11)%Z then y + 1 else y)%Z
  /\ snd (mois_suivant y m) = (if (m =? 11)%Z then 1 else m + 2)%Z.
Proof.
  intros Hm. unfold mois_suivant. cbn [fst snd].
  destruct (m =? 11)%Z eqn:E.
  - apply Z.eqb_eq in E. subst m. split; reflexivity.
  - apply Z.eqb_neq in E.
    rewrite (Z.div_small (m + 1) 12) by lia. rewrite (Z.mod_small (m + 1) 12) by lia.
    split; lia.
Qed.

(** X30. Closing a cycle from the dashboard with the choice of opening
    the next one, when the four requests reach the store and the period
    is free: the page announces the closure and the creation; the stored
    cycle is closed as [closeCycle] closes it and one cycle is added,
    active, for the month after today's month (January of the next year
    after December), whatever the period of the cycle closed, without
    expenses, with the total of charges the dashboard had loaded and the
    income less that total as [reste].  When the cycle closed was the
    only active cycle of the user, the new cycle is the only one
    afterwards. *)
Theorem handleCloseCycle_rolls_over (cycle c : CycleMensuel.t) (userId : string)
    (newCycleSalaire : Q) (newCycleDevise : Devise) (totalChargesActives : Q)
    (anneeLocale moisLocal : Z) (w : World) :
  calm 4 w ->
  cycles_ok (cycles_mensuels (db w)) = true ->
  filter (cycle_has_id (CycleMensuel.id cycle)) (cycles_mensuels (db w)) = [c] ->
  (1970 <= anneeLocale)%Z -> (0 <= moisLocal <= 11)%Z ->
  periode_libre w userId (fst (mois_suivant anneeLocale moisLocal))
    (snd (mois_suivant anneeLocale moisLocal)) ->
  exists c2 : CycleMensuel.t,
    fst (handleCloseCycle (Some cycle) (Some userId) true newCycleSalaire newCycleDevise
           totalChargesActives anneeLocale moisLocal w)
    = [Cycle_cloture; Nouveau_cycle_cree]
    /\ cycles_mensuels
         (db (snd (handleCloseCycle (Some cycle) (Some userId) true newCycleSalaire
                     newCycleDevise totalChargesActives anneeLocale moisLocal w)))
       = updated_cycles (CycleMensuel.id cycle)
           (cloture_de c (charges_actives (CycleMensuel.user_id c) (db w)) (now w))
           (cycles_mensuels (db w))
         ++ [c2]
    /\ CycleMensuel.user_id c2 = userId
    /\ CycleMensuel.statut c2 = actif
    /\ CycleMensuel.annee c2
       = (if (moisLocal =? 11)%Z then anneeLocale + 1 else anneeLocale)%Z
    /\ CycleMensuel.mois c2 = (if (moisLocal =? 11)%Z then 1 else moisLocal + 2)%Z
    /\ CycleMensuel.total_charges c2 = totalChargesActives
    /\ CycleMensuel.total_depenses c2 = 0
    /\ CycleMensuel.reste c2 == newCycleSalaire - totalChargesActives
    /\ (actifs_de userId (cycles_mensuels (db w)) = [c] ->
        actifs_de userId
          (cycles_mensuels
             (db (snd (handleCloseCycle (Some cycle) (Some userId) true newCycleSalaire
                         newCycleDevise totalChargesActives anneeLocale moisLocal w))))
        = [c2]).
Proof.
  intros Hc Hok Hrow Hy Hm Hfree. destruct (calm_four w Hc) as (Hc3 & H4).
  destruct (mois_suivant_cases anneeLocale moisLocal Hm) as (Eny & Enm).
  unfold handleCloseCycle, bind.
  rewrite (closeCycle_runs w (CycleMensuel.id cycle) c Hc3 Hok Hrow).
  cbn [error ok].
  set (p := cloture_de c (charges_actives (CycleMensuel.user_id c) (db w)) (now w)).
  set (w1 := mkWorld
               (set_cycles (db w)
                  (updated_cycles (CycleMensuel.id cycle) p (cycles_mensuels (db w))))
               (tl (tl (tl (faults w)))) (uuids w) (now w)).
  destruct (mois_suivant anneeLocale moisLocal) as [nextYear nextMonth] eqn:En.
  cbn [fst snd] in Hfree, Eny, Enm.
  assert (Hfree1 : periode_libre w1 userId nextYear nextMonth).
  { apply (periode_libre_updated w w1 (CycleMensuel.id cycle) p);
      [apply keeps_keys_cloture | reflexivity | reflexivity | exact Hfree]. }
  rewrite (createCycle_inserts w1 userId newCycleSalaire nextYear nextMonth
             (Some totalChargesActives) (Some newCycleDevise) H4 Hfree1).
  cbn [error ok ret fst snd db cycles_mensuels set_cycles uuids now opt w1].
  eexists. split; [reflexivity|]. split; [reflexivity|].
  cbn [CycleMensuel.user_id CycleMensuel.annee CycleMensuel.mois CycleMensuel.devise
         CycleMensuel.statut CycleMensuel.total_depenses CycleMensuel.total_charges
         CycleMensuel.reste].
  split; [reflexivity|]. split; [reflexivity|]. split; [exact Eny|]. split; [exact Enm|].
  split; [reflexivity|]. split; [reflexivity|]. split; [reflexivity|].
  intros Hact. unfold actifs_de at 1. rewrite filter_app.
  fold (actifs_de userId
          (updated_cycles (CycleMensuel.id cycle) p (cycles_mensuels (db w)))).
  unfold p. rewrite (actifs_de_closed userId _ c _ _ _ Hact Hrow).
  cbn [filter app CycleMensuel.user_id est_actif CycleMensuel.statut].
  rewrite String.eqb_refl. reflexivity.
Qed.

Lemma handleCloseCycle_rolls_over_witness :
  exists c2 : CycleMensuel.t,
    fst (handleCloseCycle (Some cycle_janvier) (Some "u1") true 3100 EUR 800 2025 11
           (sample_world []))
    = [Cycle_cloture; Nouveau_cycle_cree]
    /\ (CycleMensuel.annee c2, CycleMensuel.mois c2) = (2026%Z, 1%Z)
    /\ CycleMensuel.reste c2 == 2300
    /\ actifs_de "u1"
         (cycles_mensuels
            (db (snd (handleCloseCycle (Some cycle_janvier) (Some "u1") true 3100 EUR 800
                        2025 11 (sample_world [])))))
       = [c2].
Proof.
  destruct (handleCloseCycle_rolls_over cycle_janvier cycle_janvier "u1" 3100 EUR 800
              2025 11 (sample_world []))
    as (c2 & Hr & _ & _ & _ & Hy & Hm & _ & _ & Hre & Ha).
  - reflexivity.
  - reflexivity.
  - reflexivity.
  - lia.
  - lia.
  - intros d [<- | []]. split; [discriminate|]. intros (_ & Hd & _). discriminate.
  - exists c2. split; [exact Hr|]. split; [rewrite Hy, Hm; reflexivity|]. split.
    + rewrite Hre. reflexivity.
    + apply Ha. reflexivity.
Defined.

(** ** The monthly summary, as the service answers it *)

(** C8. The monthly summary never divides by zero.  For every cycle and
    date the statistics are produced, and they are what [getStatsMensuel]
    answers with, and no error, whenever its read reaches the store and
    finds that cycle at that date: the income, the two totals and [reste]
    of the row; with income 0 the percentage used and the savings rate are
    0; with no day elapsed the spend per day is 0; with no day left the
    remaining daily budget is [reste] itself; the days are never negative.
    When the read fails or finds no row the answer is the error without
    data.  [getStatsMensuel] and the two helpers of [lib/calculations]
    produce their numbers in every case as well. *)
Theorem monthly_summary_never_divides_by_zero :
  forall (cycle : CycleMensuel.t) (today : Z),
    (exists stats : StatsMensuel,
       stats_of_cycle cycle today = Some stats
       /\ (CycleMensuel.salaire_reel cycle == 0 ->
           pourcentage_utilise stats = 0 /\ taux_epargne stats = 0)
       /\ (joursEcoules cycle today = 0%Z -> depenses_par_jour stats = 0)
       /\ (joursRestants cycle today = 0%Z ->
           budget_journalier_restant stats = CycleMensuel.reste cycle)
       /\ jours_restants stats = joursRestants cycle today
       /\ salaire stats = CycleMensuel.salaire_reel cycle
       /\ stats_total_charges stats = CycleMensuel.total_charges cycle
       /\ stats_total_depenses stats = CycleMensuel.total_depenses cycle
       /\ stats_reste stats = CycleMensuel.reste cycle
       /\ (forall (cycleId : string) (w : World),
             hd false (faults w) = false ->
             filter (cycle_has_id cycleId) (cycles_mensuels (db w)) = [cycle] ->
             now w = today ->
             getStatsMensuel cycleId w
             = (Some (ok stats), mkWorld (db w) (tl (faults w)) (uuids w) (now w))))
    /\ (0 <= joursEcoules cycle today)%Z
    /\ (0 <= joursRestants cycle today)%Z
    /\ (forall (cycleId : string) (w : World), fst (getStatsMensuel cycleId w) <> None)
    /\ (forall (cycleId : string) (w : World),
          hd false (faults w) = true
          \/ filter (cycle_has_id cycleId) (cycles_mensuels (db w)) = [] ->
          exists e : PostgrestError,
            fst (getStatsMensuel cycleId w) = Some (mkResponse None (Some e))
            /\ db (snd (getStatsMensuel cycleId w)) = db w)
    /\ (forall charges depenses : Q,
          exists p : Q,
            calculerPourcentageUtilise (CycleMensuel.salaire_reel cycle) charges depenses
            = Some p
            /\ (CycleMensuel.salaire_reel cycle == 0 -> p = 0))
    /\ (exists e : Q,
          calculerTauxEpargne (CycleMensuel.reste cycle) (CycleMensuel.salaire_reel cycle)
          = Some e
          /\ (CycleMensuel.salaire_reel cycle == 0 -> e = 0)).
Proof.
  intros cycle today.
  split.
  { destruct (guarded_percent
                (CycleMensuel.total_charges cycle + CycleMensuel.total_depenses cycle)
                (CycleMensuel.salaire_reel cycle)) as (p & Ep & Hp).
    destruct (guarded_percent (CycleMensuel.reste cycle) (CycleMensuel.salaire_reel cycle))
      as (e & Ee & He).
    destruct (guarded_rate (CycleMensuel.total_depenses cycle) 0 (joursEcoules cycle today))
      as (d & Ed & Hd).
    destruct (guarded_rate (CycleMensuel.reste cycle) (CycleMensuel.reste cycle)
                (joursRestants cycle today)) as (b & Eb & Hb).
    assert (Hs : stats_of_cycle cycle today
                 = Some (mkStats (CycleMensuel.salaire_reel cycle)
                           (CycleMensuel.total_charges cycle)
                           (CycleMensuel.total_depenses cycle) (CycleMensuel.reste cycle)
                           p e d (joursRestants cycle today) b)).
    { unfold stats_of_cycle. rewrite Ep, Ee, Ed, Eb. reflexivity. }
    eexists. split; [exact Hs|].
    cbn [pourcentage_utilise taux_epargne depenses_par_jour budget_journalier_restant
           jours_restants salaire stats_total_charges stats_total_depenses stats_reste].
    split; [intros Z; split; [apply Hp | apply He]; exact Z|].
    split; [exact Hd|]. split; [exact Hb|].
    repeat (split; [reflexivity|]).
    intros cycleId w Hf Hrow Hnow.
    unfold getStatsMensuel, bind, select_cycle.
    rewrite (request_reaches _ w Hf). unfold on_store. cbn [db fst snd faults uuids now].
    rewrite Hrow. cbn [single ok error data clock now ret].
    rewrite Hnow, Hs. reflexivity. }
  split; [apply Z.le_max_l|]. split; [apply Z.le_max_l|].
  split.
  { intros cycleId w. unfold getStatsMensuel, bind.
    destruct (select_cycle cycleId w) as [cur w1].
    destruct (error cur); [cbn; discriminate|].
    destruct (data cur) as [c|]; [|cbn; discriminate].
    unfold clock, ret. cbn [fst].
    destruct (guarded_percent
                (CycleMensuel.total_charges c + CycleMensuel.total_depenses c)
                (CycleMensuel.salaire_reel c)) as (p & Ep & _).
    destruct (guarded_percent (CycleMensuel.reste c) (CycleMensuel.salaire_reel c))
      as (e & Ee & _).
    destruct (guarded_rate (CycleMensuel.total_depenses c) 0 (joursEcoules c (now w1)))
      as (d & Ed & _).
    destruct (guarded_rate (CycleMensuel.reste c) (CycleMensuel.reste c)
                (joursRestants c (now w1))) as (b & Eb & _).
    unfold stats_of_cycle. rewrite Ep, Ee, Ed, Eb. discriminate. }
  split.
  { intros cycleId w H. unfold getStatsMensuel, bind, select_cycle.
    destruct H as [Hf | Hrow].
    - rewrite (request_fails _ w Hf). exists fetch_failed. split; reflexivity.
    - unfold request, on_store.
      destruct (faults w) as [|[] fs]; cbn [db faults uuids now tl fst snd];
        rewrite ?Hrow; eexists; split; reflexivity. }
  split.
  - intros charges depenses. unfold calculerPourcentageUtilise.
    destruct (Qeq_bool (CycleMensuel.salaire_reel cycle) 0) eqn:E.
    + exists 0. split; reflexivity.
    + apply Qeq_bool_neq in E. eexists. split; [apply percent_finite; exact E|].
      intros Z. contradiction.
  - unfold calculerTauxEpargne.
    destruct (Qeq_bool (CycleMensuel.salaire_reel cycle) 0) eqn:E.
    + exists 0. split; reflexivity.
    + apply Qeq_bool_neq in E. eexists. split; [apply percent_finite; exact E|].
      intros Z. contradiction.
Qed.

Lemma monthly_summary_never_divides_by_zero_witness :
  exists stats : StatsMensuel,
    fst (getStatsMensuel "c0" world_vide) = Some (ok stats)
    /\ pourcentage_utilise stats = 0
    /\ taux_epargne stats = 0
    /\ depenses_par_jour stats = 0.
Proof.
  destruct (monthly_summary_never_divides_by_zero cycle_vide 0%Z)
    as ((stats & _ & Hp & Hj & _ & _ & _ & _ & _ & _ & Hrun) & _).
  exists stats. split; [rewrite (Hrun "c0" world_vide); reflexivity|].
  destruct Hp as (Hp1 & Hp2); [reflexivity|].
  split; [exact Hp1|]. split; [exact Hp2|].
  apply Hj. reflexivity.
Defined.

(** ** The comparison, as the service answers it *)








